(** * Inspire CLI: remote execution and incremental log synchronisation

    A shallow embedding of the parts of [inspire/cli] that decide the
    behaviour of the bridge router, the forge client, the workflow poller,
    the log cache and the tunnel profile store, with the properties of the
    specification proved (or refuted) against that embedding.

    Conventions.
    - Python [str] is [string], read as the sequence of its code points,
      each below 256; [bytes] is [list byte]; [int] is [Z].
    - A Python [dict] whose iteration order is observable is an association
      list in insertion order; a dict used only as a map is a [gmap].
    - Calls that leave the process (HTTP, SSH, the clock, the artifact
      poller) read their answer from a scripted environment inside the
      state, and every such call is recorded in a trace, so that "how often"
      and "in what order" are statements about lists. *)

From Stdlib Require Import ZArith List String Ascii Bool Lia QArith Lqa.
From Stdlib.Strings Require Import Byte.
From stdpp Require Import gmap strings list pretty.

Local Set Warnings "-register-all".

Local Open Scope string_scope.
Local Open Scope list_scope.
Local Open Scope Z_scope.

(** ** Python values shared by the modules *)

Module Py.

(** Insertion-ordered dictionaries ([dict] since Python 3.7). *)
Section Dict.
Context {V : Type}.

Definition dict := list (string * V).

Fixpoint get (k : string) (d : dict) : option V :=
  match d with
  | [] => None
  | (k', v) :: d' => if String.eqb k k' then Some v else get k d'
  end.

(** [d[k] = v]: an existing key keeps its position, a new key goes last. *)
Fixpoint set (k : string) (v : V) (d : dict) : dict :=
  match d with
  | [] => [(k, v)]
  | (k', v') :: d' =>
      if String.eqb k k' then (k', v) :: d' else (k', v') :: set k v d'
  end.

(** [del d[k]]. *)
Fixpoint del (k : string) (d : dict) : dict :=
  match d with
  | [] => []
  | (k', v') :: d' =>
      if String.eqb k k' then d' else (k', v') :: del k d'
  end.

Definition mem (k : string) (d : dict) : bool :=
  match get k d with Some _ => true | None => false end.

Definition keys (d : dict) : list string := map fst d.
Definition values (d : dict) : list V := map snd d.
End Dict.
Arguments dict V : clear implicits.

(** Truthiness of a [str]: only the empty string is false. *)
Definition str_truthy (s : string) : bool :=
  match s with EmptyString => false | String _ _ => true end.

(** [s[n:]] for [0 <= n]. *)
Fixpoint slice_from (n : nat) (s : string) : string :=
  match n, s with
  | O, _ => s
  | S n', EmptyString => EmptyString
  | S n', String _ s' => slice_from n' s'
  end.

(** The one-character string holding a double quote. *)
Definition dq : string := String (ascii_of_nat 34) EmptyString.

(** The scalar JSON values, as Python sees them after [json.loads]
    ([float] is not modelled). *)
Inductive scalar :=
| SNone
| SBool (b : bool)
| SInt (z : Z)
| SStr (s : string).

(** Truthiness ([if v], [not v], [a or b]). *)
Definition truthy (v : scalar) : bool :=
  match v with
  | SNone => false
  | SBool b => b
  | SInt z => negb (z =? 0)
  | SStr s => str_truthy s
  end.

(** [str(v)]. *)
Definition str (v : scalar) : string :=
  match v with
  | SNone => "None"
  | SBool true => "True"
  | SBool false => "False"
  | SInt z => pretty z
  | SStr s => s
  end.

Definition scalar_eqb (a b : scalar) : bool :=
  match a, b with
  | SNone, SNone => true
  | SBool x, SBool y => Bool.eqb x y
  | SInt x, SInt y => x =? y
  | SStr x, SStr y => String.eqb x y
  | _, _ => false
  end.

(** [a or b]. *)
Definition or_else (a b : scalar) : scalar := if truthy a then a else b.

(** [d.get(k)] and [d.get(k, default)] on a field that may be absent. *)
Definition get_or (field : option scalar) (default : scalar) : scalar :=
  match field with Some v => v | None => default end.

(** A decoded JSON document. *)
Inductive json :=
| JNull
| JBool (b : bool)
| JInt (z : Z)
| JStr (s : string)
| JList (items : list json)
| JDict (fields : list (string * json)).

Definition json_truthy (v : json) : bool :=
  match v with
  | JNull => false
  | JBool b => b
  | JInt z => negb (z =? 0)
  | JStr s => str_truthy s
  | JList items => match items with [] => false | _ => true end
  | JDict fields => match fields with [] => false | _ => true end
  end.

End Py.

(** ** Exceptions

    The exception classes the modelled code raises or catches, with the
    subclass relation Python uses to select an [except] clause.
    [GiteaError] and [GiteaAuthError] are the backward-compatibility
    subclasses declared in [forge.py]; [forge.py] itself raises the base
    classes [ForgeError] and [ForgeAuthError]. *)

Module Exc.

Inductive cls :=
| BaseException
| SystemExit
| KeyboardInterrupt
| Exception
| ConfigError
| ForgeAuthError
| GiteaAuthError
| ForgeError
| GiteaError
| TunnelError
| TunnelNotAvailableError
| BridgeNotFoundError
| OSError
| TimeoutError
| ValueError
| RuntimeError
| AttributeError.

Definition cls_eqb (a b : cls) : bool :=
  match a, b with
  | BaseException, BaseException | SystemExit, SystemExit
  | KeyboardInterrupt, KeyboardInterrupt | Exception, Exception
  | ConfigError, ConfigError | ForgeAuthError, ForgeAuthError
  | GiteaAuthError, GiteaAuthError | ForgeError, ForgeError
  | GiteaError, GiteaError | TunnelError, TunnelError
  | TunnelNotAvailableError, TunnelNotAvailableError
  | BridgeNotFoundError, BridgeNotFoundError | OSError, OSError
  | TimeoutError, TimeoutError | ValueError, ValueError
  | RuntimeError, RuntimeError | AttributeError, AttributeError => true
  | _, _ => false
  end.

(** The direct base class. *)
Definition base (c : cls) : option cls :=
  match c with
  | BaseException => None
  | SystemExit | KeyboardInterrupt | Exception => Some BaseException
  | ConfigError | ForgeError | TunnelError | OSError | ValueError
  | RuntimeError | AttributeError => Some Exception
  | ForgeAuthError => Some ConfigError
  | GiteaAuthError => Some ForgeAuthError
  | GiteaError => Some ForgeError
  | TunnelNotAvailableError | BridgeNotFoundError => Some TunnelError
  | TimeoutError => Some OSError
  end.

Fixpoint subclass_fuel (n : nat) (c k : cls) : bool :=
  cls_eqb c k ||
  match n with
  | O => false
  | S n' =>
      match base c with
      | Some b => subclass_fuel n' b k
      | None => false
      end
  end.

(** [issubclass(c, k)]; the hierarchy is at most four levels deep. *)
Definition subclass (c k : cls) : bool := subclass_fuel 4 c k.

(** A raised exception: its class and its message. [sys.exit(code)] raises
    [SystemExit] carrying the exit status. *)
Inductive exn :=
| Exn (c : cls) (msg : string)
| Exit (code : Z).

Definition class_of (e : exn) : cls :=
  match e with
  | Exn c _ => c
  | Exit _ => SystemExit
  end.

(** [str(e)]. *)
Definition message (e : exn) : string :=
  match e with
  | Exn _ msg => msg
  | Exit code => pretty code
  end.

(** [isinstance(e, k)], the test of [except k]. *)
Definition isinstance (e : exn) (k : cls) : bool := subclass (class_of e) k.

End Exc.

(** ** Computations with state, exceptions and fuel *)

Module Eff.

Inductive outcome (A : Type) :=
| Ok (a : A)
| Raised (e : Exc.exn)
| OutOfFuel.
Arguments Ok {A} a.
Arguments Raised {A} e.
Arguments OutOfFuel {A}.

Definition M (S A : Type) : Type := S -> outcome A * S.

Definition ret {S A} (a : A) : M S A := fun s => (Ok a, s).

Definition bind {S A B} (m : M S A) (k : A -> M S B) : M S B :=
  fun s =>
    match m s with
    | (Ok a, s') => k a s'
    | (Raised e, s') => (Raised e, s')
    | (OutOfFuel, s') => (OutOfFuel, s')
    end.

Definition raise {S A} (e : Exc.exn) : M S A := fun s => (Raised e, s).

Definition out_of_fuel {S A} : M S A := fun s => (OutOfFuel, s).

Definition get_state {S} : M S S := fun s => (Ok s, s).
Definition modify {S} (f : S -> S) : M S unit := fun s => (Ok tt, f s).

(** [try: m  except k as e: handler e] for each clause [(k, handler)],
    tried in order; an exception no clause accepts propagates. *)
Fixpoint select {S A} (clauses : list (Exc.cls * (Exc.exn -> M S A)))
    (e : Exc.exn) : option (M S A) :=
  match clauses with
  | [] => None
  | (k, h) :: rest =>
      if Exc.isinstance e k then Some (h e) else select rest e
  end.

Definition try_except {S A} (m : M S A)
    (clauses : list (Exc.cls * (Exc.exn -> M S A))) : M S A :=
  fun s =>
    match m s with
    | (Raised e, s') =>
        match select clauses e with
        | Some h => h s'
        | None => (Raised e, s')
        end
    | r => r
    end.

(** [try: m  finally: fin]. *)
Definition try_finally {S A} (m : M S A) (fin : M S unit) : M S A :=
  fun s =>
    match m s with
    | (OutOfFuel, s') => (OutOfFuel, s')
    | (r, s') =>
        match fin s' with
        | (Ok _, s'') => (r, s'')
        | (Raised e, s'') => (Raised e, s'')
        | (OutOfFuel, s'') => (OutOfFuel, s'')
        end
    end.

(** [sys.exit(code)]. *)
Definition sys_exit {S A} (code : Z) : M S A := raise (Exc.Exit code).

(** A call of a function that touches no state and may raise. *)
Definition lift {S A} (r : Exc.exn + A) : M S A :=
  match r with
  | inl e => raise e
  | inr a => ret a
  end.

End Eff.

Declare Scope eff_scope.
Delimit Scope eff_scope with eff.
Notation "x <- m ;; k" := (Eff.bind m (fun x => k))
  (at level 100, m at next level, right associativity) : eff_scope.
Notation "m ;; k" := (Eff.bind m (fun _ => k))
  (at level 100, right associativity) : eff_scope.

(** Exit statuses of [inspire/cli/context.py]. *)
Definition EXIT_SUCCESS : Z := 0.
Definition EXIT_GENERAL_ERROR : Z := 1.
Definition EXIT_CONFIG_ERROR : Z := 10.
Definition EXIT_TIMEOUT : Z := 14.
Definition EXIT_LOG_NOT_FOUND : Z := 15.
Definition EXIT_JOB_NOT_FOUND : Z := 16.

(** ** [ForgeClient.request_json] over [urllib]

    [urlopen] is the boundary: its k-th call is answered by the k-th entry
    of a script. [json.loads] and [str] on a decoded document are Python's
    own and are taken as they are. *)

Module Http.

(** What one call of [urlrequest.urlopen] does. *)
Inductive reply :=
| Success (payload : string)
    (** a response; [payload] is [resp.read().decode(charset)] *)
| HTTPError (code : Z) (raw : option string)
    (** [urlerror.HTTPError]; [raw] is [e.read().decode()], if that works *)
| URLError (reason : string)
    (** [urlerror.URLError] that is not an [HTTPError] *)
| Other (e : Exc.exn).
    (** any other exception that [urlopen], [resp.read()] or [decode]
        raises: a [TimeoutError] or [ConnectionResetError] while the
        response is read, [IncompleteRead], an unknown charset, a body
        that is not text in its charset *)

Inductive event :=
| EvUrlopen (method url : string) (data : option Py.json)
| EvSleep (seconds : Q).

Record world := {
  trace : list event;
  calls : nat;
}.

Definition M := Eff.M world.

Section Client.
Variable json_loads : string -> option Py.json.
Variable str_json : Py.json -> string.
Variable urlopen_script : nat -> reply.

Local Open Scope eff_scope.

Definition emit (e : event) : M unit :=
  Eff.modify (fun w => {| trace := trace w ++ [e]; calls := calls w |}).

Definition urlopen (method url : string) (data : option Py.json) : M reply :=
  w <- Eff.get_state ;;
  Eff.modify (fun w => {| trace := trace w ++ [EvUrlopen method url data];
                          calls := S (calls w) |}) ;;
  Eff.ret (urlopen_script (calls w)).

Definition sleep (seconds : Q) : M unit := emit (EvSleep seconds).

Definition max_retries : Z := 3.
Definition retry_delay : Q := 2%Q.

(** [str(e)] of a [URLError]. *)
Definition str_URLError (reason : string) : string :=
  "<urlopen error " +:+ reason +:+ ">".

(** [parsed.get("message") or parsed.get("error")] inside
    [try ... except Exception: pass]. *)
Definition error_detail (raw : option string) : option Py.json :=
  match raw with
  | None => None
  | Some text =>
      match json_loads text with
      | Some (Py.JDict fields) =>
          match Py.get "message" fields with
          | Some m =>
              if Py.json_truthy m then Some m else Py.get "error" fields
          | None => Py.get "error" fields
          end
      | _ => None
      end
  end.

Definition api_error_msg (code : Z) (url : string) (detail : option Py.json)
  : string :=
  let msg := "API error " +:+ pretty code +:+ " for " +:+ url in
  match detail with
  | Some d => if Py.json_truthy d then msg +:+ ": " +:+ str_json d else msg
  | None => msg
  end.

(** The body of [for attempt in range(max_retries + 1)]. *)
Fixpoint request_json_loop (method url : string) (data : option Py.json)
    (attempts : list Z) : M Py.json :=
  match attempts with
  | [] => Eff.ret (Py.JDict [])
  | attempt :: rest =>
      r <- urlopen method url data ;;
      match r with
      | Success payload =>
          if negb (Py.str_truthy payload) then Eff.ret (Py.JDict [])
          else
            match json_loads payload with
            | Some v => Eff.ret v
            | None => Eff.raise (Exc.Exn Exc.ValueError "JSONDecodeError")
            end
      | HTTPError code raw =>
          let msg := api_error_msg code url (error_detail raw) in
          if (500 <=? code) && (attempt <? max_retries) then
            sleep retry_delay ;; request_json_loop method url data rest
          else Eff.raise (Exc.Exn Exc.ForgeError msg)
      | URLError reason =>
          if attempt <? max_retries then
            sleep retry_delay ;; request_json_loop method url data rest
          else
            Eff.raise (Exc.Exn Exc.ForgeError
                         ("API request failed for " +:+ url +:+ ": "
                            +:+ str_URLError reason))
      | Other e => Eff.raise e
      end
  end.

Definition request_json (method url : string) (data : option Py.json)
  : M Py.json :=
  request_json_loop method url data (seqZ 0 (max_retries + 1)).

End Client.

(** A body "carries a non-zero application error code" when it is an
    object whose [code] member is a non-zero integer. *)
Definition carries_error_code (v : Py.json) : Prop :=
  exists fields c,
    v = Py.JDict fields /\ Py.get "code" fields = Some (Py.JInt c) /\ c <> 0.

Definition sleeps (tr : list event) : list Q :=
  omap (fun e => match e with EvSleep q => Some q | _ => None end) tr.

Definition is_urlopen (e : event) : bool :=
  match e with EvUrlopen _ _ _ => true | EvSleep _ => false end.

Definition attempts_made (tr : list event) : nat :=
  length (List.filter is_urlopen tr).

(** *** Auxiliary notions for the properties of this module *)

(** [k] failed attempts, each followed by the fixed pause. *)
Fixpoint retry_events (method url : string) (data : option Py.json) (k : nat)
  : list event :=
  match k with
  | O => []
  | S k' => EvUrlopen method url data :: EvSleep retry_delay
              :: retry_events method url data k'
  end.

(** A reply with a status code of 500 or above. *)
Definition is_server_error (r : reply) : Prop :=
  match r with
  | HTTPError code _ => 500 <= code
  | _ => False
  end.

(** The state before the first call. *)
Definition w0 : world := {| trace := []; calls := 0 |}.

(** A body that carries the application error code 1. *)
Definition error_body : Py.json := Py.JDict [("code", Py.JInt 1)].
(** Its text. *)
Definition error_text : string :=
  "{" +:+ Py.dq +:+ "code" +:+ Py.dq +:+ ": 1}".
(** A decoder and a [str] that know this one document, for examples. *)
Definition toy_loads (s : string) : option Py.json :=
  if String.eqb s error_text then Some error_body else None.
Definition toy_str (v : Py.json) : string :=
  match v with Py.JStr s => s | _ => "" end.

End Http.

(** ** [inspire/cli/utils/forge.py] and [job_cache.py]: the mediated transport

    The forge-level functions are embedded against the [ForgeClient]
    interface, as the repository's tests exercise them: the k-th call of
    [client.request_json] is answered by the k-th entry of a script and is
    a decoded response, a [ForgeError], or any other exception, which
    [request_json] lets through. The clock, the artifact poller
    [wait_for_log_artifact], the writes of [jobs.json] and the age test of
    the pruning step are scripted in the same way. The configuration is
    the resolved one. *)

Module Forge.

(** A [Path]: its parent directory and its final component. *)
Abbreviation path := (string * string)%type.

Inductive platform := GITEA | GITHUB.

Record ForgeClient := {
  kind : platform;
  token : string;
  server_url : string;
}.

Definition get_auth_header (self : ForgeClient) : string :=
  match kind self with
  | GITEA => "token " +:+ token self
  | GITHUB => "Bearer " +:+ token self
  end.

Definition get_api_base (self : ForgeClient) (repo : string) : string :=
  match kind self with
  | GITEA => server_url self +:+ "/api/v1/repos/" +:+ repo +:+ "/actions"
  | GITHUB =>
      if String.eqb (server_url self) "https://github.com" then
        "https://api.github.com/repos/" +:+ repo +:+ "/actions"
      else server_url self +:+ "/api/v3/repos/" +:+ repo +:+ "/actions"
  end.

Definition get_pagination_params (self : ForgeClient) (limit page : Z)
  : string :=
  match kind self with
  | GITEA => "limit=" +:+ pretty limit +:+ "&page=" +:+ pretty page
  | GITHUB => "per_page=" +:+ pretty limit +:+ "&page=" +:+ pretty page
  end.

(** The resolved configuration: what [_get_active_repo],
    [create_forge_client] and [_get_active_workflow_file] return for it. *)
Record Config := {
  repo : string;
  client : ForgeClient;
  log_workflow : string;
  sync_workflow : string;
  bridge_workflow : string;
  target_dir : option string;
  remote_timeout : Z;
  log_cache_dir : string;
}.

(** A workflow run as the runs API lists it; [None] is an absent key. *)
Record WorkflowRun := {
  r_id : option Py.scalar;
  r_status : option Py.scalar;
  r_conclusion : option Py.scalar;
  r_html_url : option Py.scalar;
  r_event_payload : option Py.scalar;
}.

(** The members of a decoded response that the code reads. [as_run] holds
    the top-level run members of a single-run response. *)
Record response := {
  workflow_runs : option (list WorkflowRun);
  total_count : option Py.scalar;
  total : option Py.scalar;
  count : option Py.scalar;
  as_run : WorkflowRun;
}.

(** A member of a decoded event payload. *)
Inductive member :=
| MScalar (v : Py.scalar)
| MDict (d : Py.dict Py.scalar)
| MList (items : list Py.scalar).

Definition member_truthy (m : member) : bool :=
  match m with
  | MScalar v => Py.truthy v
  | MDict d => match d with [] => false | _ => true end
  | MList l => match l with [] => false | _ => true end
  end.

(** What one call of [client.request_json] does. [ApiRaises] is an
    exception that [request_json] does not turn into a [ForgeError] and
    so leaves the call as it was raised: a [TimeoutError] or
    [ConnectionResetError] while the response is read, [IncompleteRead],
    a body that is not text in its charset, a [JSONDecodeError]. A
    response that is JSON but not an object makes the [response.get] that
    follows the call raise [AttributeError], in the same [try] block
    wherever a response is read; [ApiRaises] covers that as well. *)
Inductive api_reply :=
| ApiOk (r : response)
| ApiForgeError (msg : string)
| ApiRaises (e : Exc.exn).

(** What [json.loads] makes of the text of an event payload. *)
Inductive decoded :=
| JsonObject (d : Py.dict member)
| JsonOther (type_name : string)
    (** a document that is not an object: a list, a string, a number,
        [true], [false] or [null]; [type_name] is the name of its Python
        type *)
| JsonInvalid.                      (** [JSONDecodeError] *)

(** What [wait_for_log_artifact] ends with: the log it wrote to its
    destination, or the exception it raised (possibly after it had
    opened the destination for writing). *)
Inductive artifact_reply :=
| Delivered (data : list byte)
| Failed (e : Exc.exn) (leftover : option (list byte)).

Record environment := {
  clock : nat -> Q;                  (** k-th reading of [time.time()] *)
  api : nat -> api_reply;            (** k-th [client.request_json] *)
  artifact : nat -> artifact_reply;  (** k-th [wait_for_log_artifact] *)
  expired : path -> bool;            (** older than the retention window *)
  pid : Z;                           (** [os.getpid()] *)
  json_loads : string -> decoded;    (** [json.loads] on an event payload *)
  int_of_str : string -> option Z;   (** [int(s)]; [None] is [ValueError] *)
  now_iso : string;                  (** [datetime.now().isoformat()] *)
  cache_saved : nat -> bool;
    (** whether the k-th write of [jobs.json] succeeds; [JobCache._save]
        logs an [IOError] and carries on *)
}.

(** One record of [jobs.json]. *)
Record JobEntry := {
  j_name : string;
  j_resource : string;
  j_command : string;
  j_created_at : string;
  j_status : string;
  j_updated_at : string;
  log_path : option string;
  log_byte_offset : option Z;
  log_cached_at : option string;
}.

Inductive event :=
| EvRequest (method url : string)
    (data : option (string * Py.dict Py.scalar))
| EvSleep (seconds : Q)
| EvWaitArtifact (job_id request_id : string) (dest : path)
| EvPrune (dir : string).

(** [jobs] is the content of [jobs.json]. *)
Record world := {
  files : gmap path (list byte);
  jobs : gmap string JobEntry;
  trace : list event;
  n_clock : nat;
  n_api : nat;
  n_artifact : nat;
  n_save : nat;
}.

Definition M := Eff.M world.

Definition with_files (f : gmap path (list byte)) (w : world) : world :=
  {| files := f; jobs := jobs w; trace := trace w; n_clock := n_clock w;
     n_api := n_api w; n_artifact := n_artifact w; n_save := n_save w |}.

Definition with_jobs (j : gmap string JobEntry) (w : world) : world :=
  {| files := files w; jobs := j; trace := trace w; n_clock := n_clock w;
     n_api := n_api w; n_artifact := n_artifact w; n_save := n_save w |}.

Definition with_event (e : event) (w : world) : world :=
  {| files := files w; jobs := jobs w; trace := trace w ++ [e];
     n_clock := n_clock w; n_api := n_api w; n_artifact := n_artifact w;
     n_save := n_save w |}.

Definition tick_clock (w : world) : world :=
  {| files := files w; jobs := jobs w; trace := trace w;
     n_clock := S (n_clock w); n_api := n_api w;
     n_artifact := n_artifact w; n_save := n_save w |}.

Definition tick_api (w : world) : world :=
  {| files := files w; jobs := jobs w; trace := trace w;
     n_clock := n_clock w; n_api := S (n_api w);
     n_artifact := n_artifact w; n_save := n_save w |}.

Definition tick_artifact (w : world) : world :=
  {| files := files w; jobs := jobs w; trace := trace w;
     n_clock := n_clock w; n_api := n_api w;
     n_artifact := S (n_artifact w); n_save := n_save w |}.

Definition tick_save (w : world) : world :=
  {| files := files w; jobs := jobs w; trace := trace w;
     n_clock := n_clock w; n_api := n_api w;
     n_artifact := n_artifact w; n_save := S (n_save w) |}.

Definition nl : string := String (ascii_of_nat 10) EmptyString.

(** [int(x)] of a non-negative or negative float: truncation. *)
Definition trunc (q : Q) : Z := Z.quot (Qnum q) (Zpos (Qden q)).

(** [a > b] on clock readings. *)
Definition Qgtb (a b : Q) : bool := negb (Qle_bool a b).

Section Env.
Variable env : environment.

Local Open Scope eff_scope.

(** *** The boundary *)

Definition time_time : M Q :=
  fun w => (Eff.Ok (clock env (n_clock w)), tick_clock w).

Definition sleep (seconds : Q) : M unit :=
  Eff.modify (with_event (EvSleep seconds)).

Definition request_json (method url : string)
    (data : option (string * Py.dict Py.scalar)) : M response :=
  fun w =>
    let w' := tick_api (with_event (EvRequest method url data) w) in
    match api env (n_api w) with
    | ApiOk r => (Eff.Ok r, w')
    | ApiForgeError msg => (Eff.Raised (Exc.Exn Exc.ForgeError msg), w')
    | ApiRaises e => (Eff.Raised e, w')
    end.

(** *** The local disk *)

Definition path_exists (p : path) : M bool :=
  fun w => (Eff.Ok (bool_decide (is_Some (files w !! p))), w).

Definition stat_size (p : path) : M Z :=
  fun w =>
    match files w !! p with
    | Some data => (Eff.Ok (Z.of_nat (length data)), w)
    | None => (Eff.Raised (Exc.Exn Exc.OSError "FileNotFoundError"), w)
    end.

Definition read_bytes (p : path) : M (list byte) :=
  fun w =>
    match files w !! p with
    | Some data => (Eff.Ok data, w)
    | None => (Eff.Raised (Exc.Exn Exc.OSError "FileNotFoundError"), w)
    end.

(** [p.write_bytes(data)], [p.open("wb").write(data)]. *)
Definition write_bytes (p : path) (data : list byte) : M unit :=
  Eff.modify (fun w => with_files (<[p := data]> (files w)) w).

(** [p.open("ab").write(data)]. *)
Definition append_bytes (p : path) (data : list byte) : M unit :=
  Eff.modify (fun w =>
    with_files (<[p := default [] (files w !! p) ++ data]> (files w)) w).

(** [src.replace(dst)]. *)
Definition replace (src dst : path) : M unit :=
  fun w =>
    match files w !! src with
    | Some data =>
        (Eff.Ok tt, with_files (<[dst := data]> (delete src (files w))) w)
    | None => (Eff.Raised (Exc.Exn Exc.OSError "FileNotFoundError"), w)
    end.

Definition unlink (p : path) : M unit :=
  fun w =>
    match files w !! p with
    | Some _ => (Eff.Ok tt, with_files (delete p (files w)) w)
    | None => (Eff.Raised (Exc.Exn Exc.OSError "FileNotFoundError"), w)
    end.

(** *** Helper functions for workflow operations *)

Definition scalar_int (v : Py.scalar) : option Z :=
  match v with
  | Py.SNone => None
  | Py.SBool b => Some (if b then 1 else 0)
  | Py.SInt z => Some z
  | Py.SStr s => int_of_str env s
  end.

Definition _extract_total_count (r : response) : option Z :=
  let total_count :=
    Py.or_else (Py.or_else (Py.get_or (total_count r) Py.SNone)
                           (Py.get_or (total r) Py.SNone))
               (Py.get_or (count r) Py.SNone) in
  scalar_int total_count.

(** [payload.get] on a decoded payload that is not a [dict]. *)
Definition no_get (type_name : string) : Exc.exn :=
  Exc.Exn Exc.AttributeError
    ("'" +:+ type_name +:+ "' object has no attribute 'get'").

(** [json.loads] of a payload that is not a [str] raises [TypeError],
    which is caught like [JSONDecodeError]; [payload.get] is outside the
    [try]. *)
Definition _parse_event_inputs (run : WorkflowRun)
  : Exc.exn + Py.dict Py.scalar :=
  let event_payload := Py.get_or (r_event_payload run) (Py.SStr "") in
  if negb (Py.truthy event_payload) then inr []
  else
    match event_payload with
    | Py.SStr text =>
        match json_loads env text with
        | JsonInvalid => inr []
        | JsonOther type_name => inl (no_get type_name)
        | JsonObject payload =>
            let inputs :=
              match Py.get "inputs" payload with
              | Some m => if member_truthy m then m else MDict []
              | None => MDict []
              end in
            match inputs with
            | MDict d => inr d
            | _ => inr []
            end
        end
    | _ => inr []
    end.

Fixpoint _matches_inputs (inputs expected_inputs : Py.dict Py.scalar)
  : bool :=
  match expected_inputs with
  | [] => true
  | (key, value) :: rest =>
      if negb (Py.truthy value) then _matches_inputs inputs rest
      else if negb (String.eqb
                      (Py.str (Py.get_or (Py.get key inputs) (Py.SStr "")))
                      (Py.str value))
      then false
      else _matches_inputs inputs rest
  end.

Fixpoint _find_run_by_inputs (runs : list WorkflowRun)
    (expected_inputs : Py.dict Py.scalar) : Exc.exn + option WorkflowRun :=
  match runs with
  | [] => inr None
  | run :: rest =>
      match _parse_event_inputs run with
      | inl e => inl e
      | inr [] => _find_run_by_inputs rest expected_inputs
      | inr inputs =>
          if _matches_inputs inputs expected_inputs then inr (Some run)
          else _find_run_by_inputs rest expected_inputs
      end
  end.

Definition _artifact_name (job_id request_id : string) : string :=
  "job-" +:+ job_id +:+ "-log-" +:+ request_id.

(** *** Public API functions *)

Definition trigger_workflow_dispatch (config : Config)
    (workflow_file : string) (inputs : Py.dict Py.scalar) (ref : string)
  : M response :=
  let api_base := get_api_base (client config) (repo config) in
  let url := api_base +:+ "/workflows/" +:+ workflow_file +:+ "/dispatches" in
  Eff.try_except (request_json "POST" url (Some (ref, inputs)))
    [(Exc.ForgeError, fun e =>
        Eff.raise (Exc.Exn Exc.ForgeError
                     ("Failed to trigger workflow: " +:+ Exc.message e)))].

Definition trigger_log_retrieval_workflow (config : Config)
    (job_id remote_log_path request_id : string) (start_offset : Z)
  : M unit :=
  let inputs :=
    [("job_id", Py.SStr job_id);
     ("remote_log_path", Py.SStr remote_log_path);
     ("request_id", Py.SStr request_id);
     ("start_offset", Py.SStr (pretty start_offset))] in
  trigger_workflow_dispatch config (log_workflow config) inputs "main" ;;
  Eff.ret tt.

(** [str(force).lower()]. *)
Definition lower_bool (b : bool) : string := if b then "true" else "false".

Definition sync_inputs (config : Config) (branch commit_sha : string)
    (force : bool) : Py.dict Py.scalar :=
  [("branch", Py.SStr branch);
   ("commit_sha", Py.SStr commit_sha);
   ("force", Py.SStr (lower_bool force));
   ("target_dir", Py.SStr (default "" (target_dir config)))].

Definition runs_url (config : Config) (limit page : Z) : string :=
  get_api_base (client config) (repo config) +:+ "/runs?"
    +:+ get_pagination_params (client config) limit page.

Definition runs_of (r : response) : list WorkflowRun :=
  default [] (workflow_runs r).

Definition run_id_str (run : WorkflowRun) : string :=
  Py.str (Py.get_or (r_id run) (Py.SStr "")).

(** The [try] block of one round of the search in [trigger_sync_workflow];
    [Some s] is [return s]. *)
Definition sync_search_round (config : Config)
    (expected_inputs : Py.dict Py.scalar) (limit : Z) : M (option string) :=
  response <- request_json "GET" (runs_url config limit 1) None ;;
  run <- Eff.lift (_find_run_by_inputs (runs_of response) expected_inputs) ;;
  match run with
  | Some run => Eff.ret (Some (run_id_str run))
  | None =>
      match _extract_total_count response with
      | Some total_count =>
          if negb (total_count =? 0) && (limit <? total_count) then
            let last_page := (total_count + limit - 1) / limit in
            response <- request_json "GET" (runs_url config limit last_page)
                          None ;;
            run <- Eff.lift (_find_run_by_inputs (runs_of response)
                               expected_inputs) ;;
            match run with
            | Some run => Eff.ret (Some (run_id_str run))
            | None => Eff.ret None
            end
          else Eff.ret None
      | None => Eff.ret None
      end
  end.

(** [for _ in range(3)]. *)
Fixpoint sync_search (rounds : nat) (config : Config)
    (expected_inputs : Py.dict Py.scalar) (limit : Z) : M string :=
  match rounds with
  | O => Eff.ret ""
  | S rounds' =>
      found <- Eff.try_except (sync_search_round config expected_inputs limit)
                 [(Exc.ForgeError, fun _ => Eff.ret None)] ;;
      match found with
      | Some s => Eff.ret s
      | None =>
          sleep 1%Q ;;
          sync_search rounds' config expected_inputs limit
      end
  end.

Definition trigger_sync_workflow (config : Config)
    (branch commit_sha : string) (force : bool) : M string :=
  let inputs := sync_inputs config branch commit_sha force in
  trigger_workflow_dispatch config (sync_workflow config) inputs "main" ;;
  sleep 2%Q ;;
  let expected_inputs := sync_inputs config branch commit_sha force in
  sync_search 3 config expected_inputs 20.

Definition get_workflow_run (config : Config) (run_id : string)
  : M WorkflowRun :=
  let url :=
    get_api_base (client config) (repo config) +:+ "/runs/" +:+ run_id in
  Eff.try_except
    (r <- request_json "GET" url None ;; Eff.ret (as_run r))
    [(Exc.ForgeError, fun e =>
        Eff.raise (Exc.Exn Exc.ForgeError
                     ("Failed to get workflow run: " +:+ Exc.message e)))].

(** The dict [wait_for_workflow_completion] returns. *)
Record completion := {
  c_status : Py.scalar;
  c_conclusion : Py.scalar;
  c_run_id : string;
  c_html_url : Py.scalar;
}.

(** [status in ("completed", "success", "failure")]. *)
Definition is_terminal (status : Py.scalar) : bool :=
  existsb (Py.scalar_eqb status)
    [Py.SStr "completed"; Py.SStr "success"; Py.SStr "failure"].

(** [timeout or config.remote_timeout or 90]. *)
Definition timeout_seconds (config : Config) (timeout : option Z) : Z :=
  match timeout with
  | Some t =>
      if negb (t =? 0) then t
      else if negb (remote_timeout config =? 0) then remote_timeout config
      else 90
  | None =>
      if negb (remote_timeout config =? 0) then remote_timeout config
      else 90
  end.

(** [while True:], one unit of fuel per iteration. *)
Fixpoint wait_loop (fuel : nat) (config : Config) (run_id : string)
    (seconds : Z) (deadline : Q) : M completion :=
  match fuel with
  | O => Eff.out_of_fuel
  | S fuel' =>
      now <- time_time ;;
      if Qgtb now deadline then
        Eff.raise (Exc.Exn Exc.TimeoutError
          ("Workflow timed out after " +:+ pretty seconds +:+ " seconds."
           +:+ nl +:+
           "To increase the timeout, set: export INSP_REMOTE_TIMEOUT=<seconds>"))
      else
        run <- get_workflow_run config run_id ;;
        let status := Py.get_or (r_status run) Py.SNone in
        let conclusion := Py.get_or (r_conclusion run) Py.SNone in
        if is_terminal status then
          Eff.ret {| c_status := status;
                     c_conclusion := Py.or_else conclusion status;
                     c_run_id := run_id;
                     c_html_url := Py.get_or (r_html_url run) (Py.SStr "") |}
        else
          sleep 3%Q ;;
          wait_loop fuel' config run_id seconds deadline
  end.

Definition wait_for_workflow_completion (fuel : nat) (config : Config)
    (run_id : string) (timeout : option Z) : M completion :=
  let seconds := timeout_seconds config timeout in
  start <- time_time ;;
  let deadline := (start + inject_Z (Z.max 5 seconds))%Q in
  wait_loop fuel config run_id seconds deadline.

(** *** Log retrieval *)

Definition new_request_id : M string :=
  now <- time_time ;;
  Eff.ret (pretty (trunc now) +:+ "-" +:+ pretty (pid env)).

(** [wait_for_log_artifact] polls the artifact API and the [logs] branch
    until one of them yields the log, which it writes to [cache_path], or
    until its deadline, when it raises [TimeoutError]. *)
Definition wait_for_log_artifact (config : Config)
    (job_id request_id : string) (cache_path : path) : M unit :=
  fun w =>
    let w' :=
      tick_artifact (with_event (EvWaitArtifact job_id request_id cache_path)
                       w) in
    match artifact env (n_artifact w) with
    | Delivered data =>
        (Eff.Ok tt, with_files (<[cache_path := data]> (files w')) w')
    | Failed e None => (Eff.Raised e, w')
    | Failed e (Some data) =>
        (Eff.Raised e, with_files (<[cache_path := data]> (files w')) w')
    end.

(** [name.endswith(".log")], the glob [*.log]. *)
Definition is_log_name (n : string) : bool :=
  Nat.leb 4 (String.length n)
  && String.eqb (Py.slice_from (Nat.sub (String.length n) 4) n) ".log".

(** [_prune_old_logs]: every [*.log] file of the directory whose age
    exceeds the retention window is unlinked. *)
Definition _prune_old_logs (cache_dir : string) (max_age_days : Z)
  : M unit :=
  now <- time_time ;;
  Eff.modify (fun w =>
    with_event (EvPrune cache_dir)
      (with_files
         (filter (fun kv : path * list byte =>
                    ~ (fst (fst kv) = cache_dir
                       /\ is_log_name (snd (fst kv)) = true
                       /\ expired env (fst kv) = true))
                 (files w)) w)).

Definition fetch_remote_log_via_bridge (config : Config)
    (job_id remote_log_path : string) (cache_path : path) (refresh : bool)
  : M path :=
  present <- path_exists cache_path ;;
  if present && negb refresh then Eff.ret cache_path
  else
    request_id <- new_request_id ;;
    trigger_log_retrieval_workflow config job_id remote_log_path request_id 0 ;;
    wait_for_log_artifact config job_id request_id cache_path ;;
    _prune_old_logs (fst cache_path) 7 ;;
    Eff.ret cache_path.

(** [cache_path.parent / f"{job_id}.tmp.{os.getpid()}"]. *)
Definition temp_path_of (cache_path : path) (job_id : string) : path :=
  (fst cache_path, job_id +:+ ".tmp." +:+ pretty (pid env)).

Definition fetch_remote_log_incremental (config : Config)
    (job_id remote_log_path : string) (cache_path : path) (start_offset : Z)
  : M (path * Z) :=
  request_id <- new_request_id ;;
  trigger_log_retrieval_workflow config job_id remote_log_path request_id
    start_offset ;;
  let temp_path := temp_path_of cache_path job_id in
  Eff.try_finally
    (wait_for_log_artifact config job_id request_id temp_path ;;
     temp_present <- path_exists temp_path ;;
     bytes_written <-
       (if temp_present then stat_size temp_path else Eff.ret 0) ;;
     if 0 <? bytes_written then
       cache_present <- path_exists cache_path ;;
       if cache_present && (0 <? start_offset) then
         data <- read_bytes temp_path ;;
         append_bytes cache_path data ;;
         Eff.ret (cache_path, bytes_written)
       else
         replace temp_path cache_path ;;
         Eff.ret (cache_path, bytes_written)
     else Eff.ret (cache_path, bytes_written))
    (temp_present <- path_exists temp_path ;;
     if temp_present then
       Eff.try_except (unlink temp_path)
         [(Exc.OSError, fun _ => Eff.ret tt)]
     else Eff.ret tt).

(** *** [JobCache] *)

Definition get_job (job_id : string) : M (option JobEntry) :=
  fun w => (Eff.Ok (jobs w !! job_id), w).

Definition get_log_offset (job_id : string) : M Z :=
  fun w =>
    match jobs w !! job_id with
    | Some j => (Eff.Ok (default 0 (log_byte_offset j)), w)
    | None => (Eff.Ok 0, w)
    end.

Definition with_offset (j : JobEntry) (offset : Z) (stamp : option string)
  : JobEntry :=
  {| j_name := j_name j; j_resource := j_resource j;
     j_command := j_command j; j_created_at := j_created_at j;
     j_status := j_status j; j_updated_at := j_updated_at j;
     log_path := log_path j;
     log_byte_offset := Some offset;
     log_cached_at := stamp |}.

(** [self._save(jobs)]: it catches the [IOError] of a write that fails;
    such a write is one whose [open] fails, and it leaves the file as it
    was. *)
Definition _save (j : gmap string JobEntry) (w : world) : world :=
  if cache_saved env (n_save w) then with_jobs j (tick_save w)
  else tick_save w.

Definition set_log_offset (job_id : string) (offset : Z) : M unit :=
  Eff.modify (fun w =>
    match jobs w !! job_id with
    | Some j =>
        _save (<[job_id := with_offset j offset (Some (now_iso env))]>
                 (jobs w)) w
    | None => w
    end).

Definition reset_log_offset (job_id : string) : M unit :=
  Eff.modify (fun w =>
    match jobs w !! job_id with
    | Some j => _save (<[job_id := with_offset j 0 None]> (jobs w)) w
    | None => w
    end).

(** *** The fetch of [inspire job logs JOB_ID]

    The statements of [logs] that read the stored offset, reset it when
    the cache file is gone and fetch incrementally or in full (source
    lines 952 to 1025 of [job.py]), for the job's recorded log path and
    its cache path. *)

Definition _handle_error {A} (exit_code : Z) : M A := Eff.sys_exit exit_code.

(** The [except] clauses around either fetch, as imported in [job.py]. *)
Definition fetch_handlers : list (Exc.cls * (Exc.exn -> M unit)) :=
  [(Exc.GiteaAuthError, fun _ => _handle_error EXIT_CONFIG_ERROR);
   (Exc.TimeoutError, fun _ => _handle_error EXIT_TIMEOUT);
   (Exc.GiteaError, fun _ => _handle_error EXIT_GENERAL_ERROR)].

Definition logs_fetch (config : Config) (job_id remote_log_path : string)
    (cache_path : path) (refresh : bool) : M unit :=
  stored <- (if refresh then Eff.ret 0 else get_log_offset job_id) ;;
  present <- path_exists cache_path ;;
  current_offset <-
    (if (0 <? stored) && negb present then
       reset_log_offset job_id ;; Eff.ret 0
     else Eff.ret stored) ;;
  present <- path_exists cache_path ;;
  if (0 <? current_offset) && present then
    Eff.try_except
      (r <- fetch_remote_log_incremental config job_id remote_log_path
              cache_path current_offset ;;
       set_log_offset job_id (current_offset + snd r))
      fetch_handlers
  else if refresh || negb present then
    Eff.try_except
      (fetch_remote_log_via_bridge config job_id remote_log_path cache_path
         refresh ;;
       present <- path_exists cache_path ;;
       if present then
         new_offset <- stat_size cache_path ;;
         set_log_offset job_id new_offset
       else Eff.ret tt)
      fetch_handlers
  else Eff.ret tt.

Definition log_cache_path (config : Config) (job_id : string) : path :=
  (log_cache_dir config, job_id +:+ ".log").

End Env.

(** *** Auxiliary notions and example data for the properties of this module *)

Definition empty_run : WorkflowRun :=
  {| r_id := None; r_status := None; r_conclusion := None;
     r_html_url := None; r_event_payload := None |}.

(** The response [{}]. *)
Definition empty_response : response :=
  {| workflow_runs := None; total_count := None; total := None;
     count := None; as_run := empty_run |}.

Definition example_config : Config :=
  {| repo := "org/repo";
     client := {| kind := GITEA; token := "secret";
                  server_url := "https://gitea.example.com" |};
     log_workflow := "retrieve_job_log.yml";
     sync_workflow := "sync_code.yml";
     bridge_workflow := "run_bridge_action.yml";
     target_dir := Some "/shared/work";
     remote_timeout := 90;
     log_cache_dir := "/home/u/.inspire/logs" |}.

(** An environment whose forge accepts every dispatch and whose artifact
    poller delivers [delta]. *)
Definition env_log (delta : list byte) : environment :=
  {| clock := fun _ => 1700000000%Q;
     api := fun _ => ApiOk empty_response;
     artifact := fun _ => Delivered delta;
     expired := fun _ => false;
     pid := 4242;
     json_loads := fun _ => JsonInvalid;
     int_of_str := fun _ => None;
     now_iso := "2026-01-01T00:00:00";
     cache_saved := fun _ => true |}.

(** The same environment with a [jobs.json] that cannot be written. *)
Definition env_unwritable (delta : list byte) : environment :=
  {| clock := fun _ => 1700000000%Q;
     api := fun _ => ApiOk empty_response;
     artifact := fun _ => Delivered delta;
     expired := fun _ => false;
     pid := 4242;
     json_loads := fun _ => JsonInvalid;
     int_of_str := fun _ => None;
     now_iso := "2026-01-01T00:00:00";
     cache_saved := fun _ => false |}.

Definition example_job (offset : option Z) : JobEntry :=
  {| j_name := "train"; j_resource := "4xH200"; j_command := "bash train.sh";
     j_created_at := "2026-01-01T00:00:00"; j_status := "RUNNING";
     j_updated_at := "2026-01-01T00:00:00";
     log_path := Some "/shared/work/logs/job-1.log";
     log_byte_offset := offset;
     log_cached_at := None |}.

(** The job cache holding the one example job. *)
Definition example_jobs (offset : option Z) : gmap string JobEntry :=
  {[ "job-1" := example_job offset ]}.

Definition world_with (f : gmap path (list byte)) (j : gmap string JobEntry)
  : world :=
  {| files := f; jobs := j; trace := []; n_clock := 0; n_api := 0;
     n_artifact := 0; n_save := 0 |}.

Definition example_cache : path := ("/home/u/.inspire/logs", "job-1.log").
Definition abc : list byte := ["a"; "b"; "c"]%byte.
Definition de : list byte := ["d"; "e"]%byte.

(** What [get_log_offset] reads. *)
Definition stored_offset (w : world) (job_id : string) : Z :=
  match jobs w !! job_id with
  | Some j => default 0 (log_byte_offset j)
  | None => 0
  end.

(** The stored offset is the size of the cache file, if there is one. *)
Definition offset_matches (cache_path : path) (job_id : string) (w : world)
  : Prop :=
  forall bytes, files w !! cache_path = Some bytes ->
    stored_offset w job_id = Z.of_nat (length bytes).

(** Requests sent to the forge. *)
Definition is_request (e : event) : bool :=
  match e with EvRequest _ _ _ => true | _ => false end.

(** The cleanup of the [finally] clause. *)
Definition cleanup (temp : path) : M unit :=
  Eff.bind (path_exists temp) (fun temp_present =>
    if temp_present then
      Eff.try_except (unlink temp) [(Exc.OSError, fun _ => Eff.ret tt)]
    else Eff.ret tt).

(** What an exception is when it leaves a function that rewraps
    [ForgeError]: a [ForgeError] gets the prefix, anything else is as it
    was. *)
Definition rewrapped (prefix : string) (e : Exc.exn) : Exc.exn :=
  if Exc.isinstance e Exc.ForgeError then
    Exc.Exn Exc.ForgeError (prefix +:+ Exc.message e)
  else e.

Section Notions.
Variable env : environment.
Variable config : Config.

(** The state after [set_log_offset] or [reset_log_offset]: for a job of
    the cache, the entry is stored if the write succeeds. *)
Definition store_offset (job_id : string) (offset : Z) (stamp : option string)
    (w : world) : world :=
  match jobs w !! job_id with
  | Some j => _save env (<[job_id := with_offset j offset stamp]> (jobs w)) w
  | None => w
  end.

(** From the state [w] on, every write of [jobs.json] succeeds. *)
Definition cache_writable (w : world) : Prop :=
  forall k, (n_save w <= k)%nat -> cache_saved env k = true.

(** The dispatch that opens either fetch. *)
Definition log_dispatch (job_id remote_log_path request_id : string)
    (start_offset : Z) : event :=
  EvRequest "POST"
    (get_api_base (client config) (repo config) +:+ "/workflows/"
       +:+ log_workflow config +:+ "/dispatches")
    (Some ("main",
           [("job_id", Py.SStr job_id);
            ("remote_log_path", Py.SStr remote_log_path);
            ("request_id", Py.SStr request_id);
            ("start_offset", Py.SStr (pretty start_offset))])).

(** The request id drawn from the next clock reading. *)
Definition request_id_at (w : world) : string :=
  pretty (trunc (clock env (n_clock w))) +:+ "-" +:+ pretty (pid env).

(** The state after the dispatch and the wait of an incremental fetch. *)
Definition after_fetch (job_id remote_log_path : string) (cache_path : path)
    (start_offset : Z) (w : world) (f : gmap path (list byte)) : world :=
  {| files := f;
     jobs := jobs w;
     trace := trace w ++
       [log_dispatch job_id remote_log_path (request_id_at w) start_offset;
        EvWaitArtifact job_id (request_id_at w)
          (temp_path_of env cache_path job_id)];
     n_clock := S (n_clock w);
     n_api := S (n_api w);
     n_artifact := S (n_artifact w);
     n_save := n_save w |}.

(** What the pruning step keeps. *)
Definition kept (dir : string) (kv : path * list byte) : Prop :=
  ~ (fst (fst kv) = dir /\ is_log_name (snd (fst kv)) = true
     /\ expired env (fst kv) = true).

(** The state after a full fetch: dispatch, wait, prune. *)
Definition after_full_fetch (job_id remote_log_path : string)
    (cache_path : path) (data : list byte) (w : world) : world :=
  {| files := filter (kept (fst cache_path)) (<[cache_path := data]> (files w));
     jobs := jobs w;
     trace := trace w ++
       [log_dispatch job_id remote_log_path (request_id_at w) 0;
        EvWaitArtifact job_id (request_id_at w) cache_path;
        EvPrune (fst cache_path)];
     n_clock := S (S (n_clock w));
     n_api := S (n_api w);
     n_artifact := S (n_artifact w);
     n_save := n_save w |}.

(** The full-fetch branch of [logs]: lines 1001 to 1012. *)
Definition full_branch (job_id remote_log_path : string) (cache_path : path)
    (refresh : bool) : M unit :=
  Eff.try_except
    (Eff.bind (fetch_remote_log_via_bridge env config job_id remote_log_path
                 cache_path refresh)
       (fun _ =>
          Eff.bind (path_exists cache_path) (fun present =>
            if present then
              Eff.bind (stat_size cache_path) (fun new_offset =>
                set_log_offset env job_id new_offset)
            else Eff.ret tt)))
    (fetch_handlers).

(** The state after the full-fetch branch. *)
Definition after_full_branch (job_id remote_log_path : string)
    (cache_path : path) (data : list byte) (w : world) : world :=
  let w1 := after_full_fetch job_id remote_log_path cache_path data w in
  match files w1 !! cache_path with
  | Some bytes =>
      store_offset job_id (Z.of_nat (length bytes)) (Some (now_iso env)) w1
  | None => w1
  end.

End Notions.

(** *** Notions for the completion poll *)

Section Polling.
Variable env : environment.
Variable config : Config.
Variable run_id : string.

(** The URL polled. *)
Definition run_url : string :=
  get_api_base (client config) (repo config) +:+ "/runs/" +:+ run_id.

Definition poll : event := EvRequest "GET" run_url None.

(** The answer of the k-th poll and the clock reading that precedes it,
    counted from the state in which the wait begins: the reading at
    [n_clock w] is the start time. *)
Definition poll_reply (w : world) (k : nat) : api_reply :=
  api env (n_api w + k)%nat.

Definition check_time (w : world) (k : nat) : Q :=
  clock env (S (n_clock w) + k)%nat.

Definition deadline (timeout : option Z) (w : world) : Q :=
  (clock env (n_clock w)
   + inject_Z (Z.max 5 (timeout_seconds config timeout)))%Q.

(** A poll that shows the run still going. *)
Definition pending (a : api_reply) : Prop :=
  exists r, a = ApiOk r
    /\ is_terminal (Py.get_or (r_status (as_run r)) Py.SNone) = false.

(** Up to iteration [k], no deadline check fired and every poll was
    pending. *)
Definition quiet (timeout : option Z) (w : world) (k : nat) : Prop :=
  forall j, (j < k)%nat ->
    (check_time w j <= deadline timeout w)%Q /\ pending (poll_reply w j).

(** [k] polls, each followed by the fixed pause. *)
Fixpoint poll_events (k : nat) : list event :=
  match k with
  | O => []
  | S k' => poll :: EvSleep 3 :: poll_events k'
  end.

(** The dict returned for a terminal run. *)
Definition completion_of (r : response) : completion :=
  let status := Py.get_or (r_status (as_run r)) Py.SNone in
  {| c_status := status;
     c_conclusion :=
       Py.or_else (Py.get_or (r_conclusion (as_run r)) Py.SNone) status;
     c_run_id := run_id;
     c_html_url := Py.get_or (r_html_url (as_run r)) (Py.SStr "") |}.

Definition timeout_message (seconds : Z) : string :=
  "Workflow timed out after " +:+ pretty seconds +:+ " seconds." +:+ nl +:+
  "To increase the timeout, set: export INSP_REMOTE_TIMEOUT=<seconds>".

(** The state after [k] iterations that went round. *)
Definition after_polls (w : world) (k : nat) : world :=
  {| files := files w; jobs := jobs w;
     trace := trace w ++ poll_events k;
     n_clock := (n_clock w + k)%nat;
     n_api := (n_api w + k)%nat;
     n_artifact := n_artifact w;
     n_save := n_save w |}.

End Polling.

(** A run that has completed. *)
Definition done_run : WorkflowRun :=
  {| r_id := Some (Py.SInt 42);
     r_status := Some (Py.SStr "completed");
     r_conclusion := Some (Py.SStr "success");
     r_html_url := Some (Py.SStr "https://gitea.example.com/org/repo/actions/runs/42");
     r_event_payload := None |}.

Definition done_response : response :=
  {| workflow_runs := None; total_count := None; total := None;
     count := None; as_run := done_run |}.

(** An environment whose clock shows [t0] first and [t1] from then on, and
    whose forge reports the completed run. *)
Definition env_poll (t0 t1 : Q) : environment :=
  {| clock := fun k => match k with O => t0 | S _ => t1 end;
     api := fun _ => ApiOk done_response;
     artifact := fun _ => Delivered [];
     expired := fun _ => false;
     pid := 4242;
     json_loads := fun _ => JsonInvalid;
     int_of_str := fun _ => None;
     now_iso := "2026-01-01T00:00:00";
     cache_saved := fun _ => true |}.

(** The same clock, with a forge whose every request times out while the
    response is read. *)
Definition env_poll_timeout (t0 t1 : Q) : environment :=
  {| clock := fun k => match k with O => t0 | S _ => t1 end;
     api := fun _ => ApiRaises (Exc.Exn Exc.TimeoutError "timed out");
     artifact := fun _ => Delivered [];
     expired := fun _ => false;
     pid := 4242;
     json_loads := fun _ => JsonInvalid;
     int_of_str := fun _ => None;
     now_iso := "2026-01-01T00:00:00";
     cache_saved := fun _ => true |}.

(** *** Notions for the search of [trigger_sync_workflow] *)

(** The specification of a match: every expected key with a non-empty
    value has, after stringification, the same value in the run's inputs. *)
Definition matches_spec (inputs expected : Py.dict Py.scalar) : Prop :=
  forall key value, In (key, value) expected -> Py.truthy value = true ->
    Py.str (Py.get_or (Py.get key inputs) (Py.SStr "")) = Py.str value.

(** An expected dictionary with at least one non-empty string value, as
    every caller builds it. *)
Definition has_nonempty (expected : Py.dict Py.scalar) : Prop :=
  exists key s, In (key, Py.SStr s) expected /\ s <> "".

(** A pause of one second. *)
Definition is_pause (e : event) : bool :=
  match e with
  | EvSleep q => Qeq_bool q 1
  | _ => false
  end.

Definition pauses (tr : list event) : nat :=
  length (List.filter is_pause tr).

Definition requests (tr : list event) : nat :=
  length (List.filter is_request tr).

Section Correlation.
Variable env : environment.
Variable config : Config.

(** A run matches when its event payload decodes and the decoded inputs
    match. *)
Definition run_matches (run : WorkflowRun) (expected : Py.dict Py.scalar)
  : Prop :=
  exists inputs,
    _parse_event_inputs env run = inr inputs /\ matches_spec inputs expected.

(** A run whose event payload decodes: it is absent, empty, not a
    string, not valid JSON, or a JSON object. *)
Definition decodes (run : WorkflowRun) : Prop :=
  exists inputs, _parse_event_inputs env run = inr inputs.

(** A run that decodes and does not match. *)
Definition passed_over (run : WorkflowRun) (expected : Py.dict Py.scalar)
  : Prop :=
  decodes run /\ ~ run_matches run expected.

(** A run whose event payload is JSON but not an object: decoding its
    inputs raises. *)
Definition payload_not_object (run : WorkflowRun) (e : Exc.exn) : Prop :=
  exists text type_name,
    r_event_payload run = Some (Py.SStr text) /\ text <> ""
    /\ json_loads env text = JsonOther type_name /\ e = no_get type_name.

(** The first of [total_count], [total] and [count] that is truthy is the
    integer [t]: what the response reports as the number of runs. *)
Definition falsy (field : option Py.scalar) : Prop :=
  Py.truthy (Py.get_or field Py.SNone) = false.

Definition reports_total (r : response) (t : Z) : Prop :=
  t <> 0
  /\ (total_count r = Some (Py.SInt t)
      \/ (falsy (total_count r) /\ total r = Some (Py.SInt t))
      \/ (falsy (total_count r) /\ falsy (total r)
          /\ count r = Some (Py.SInt t))).

Definition list_page (page : Z) : event :=
  EvRequest "GET" (runs_url config 20 page) None.

(** The state after one listing request. *)
Definition listed (page : Z) (w : world) : world :=
  tick_api (with_event (list_page page) w).

(** [total_count and total_count > limit], with the last page. *)
Definition last_page_of (r : response) : option Z :=
  match _extract_total_count env r with
  | Some t => if negb (t =? 0) && (20 <? t) then Some ((t + 20 - 1) / 20)
              else None
  | None => None
  end.

Definition found_in (r : response) (expected : Py.dict Py.scalar)
  : Exc.exn + option string :=
  match _find_run_by_inputs env (runs_of r) expected with
  | inl e => inl e
  | inr (Some run) => inr (Some (run_id_str run))
  | inr None => inr None
  end.

(** One round of the search, with its [except ForgeError: pass]. *)
Definition round (expected : Py.dict Py.scalar) : M (option string) :=
  Eff.try_except (sync_search_round env config expected 20)
    [(Exc.ForgeError, fun _ => Eff.ret None)].

(** No listed page holds a matching run, and every listed payload
    decodes. *)
Definition no_match (expected : Py.dict Py.scalar) : Prop :=
  forall k r, api env k = ApiOk r ->
    forall run, In run (runs_of r) -> passed_over run expected.

(** The [except ForgeError: pass] of a round. *)
Definition caught (e : Exc.exn) : Eff.outcome (option string) :=
  if Exc.isinstance e Exc.ForgeError then Eff.Ok None else Eff.Raised e.

(** Every request that fails, fails with a [ForgeError]. *)
Definition fails_as_ForgeError : Prop :=
  forall k e, api env k = ApiRaises e ->
    Exc.isinstance e Exc.ForgeError = true.

(** The dispatch request of the sync workflow. *)
Definition sync_dispatch (inputs : Py.dict Py.scalar) : event :=
  EvRequest "POST"
    (get_api_base (client config) (repo config) +:+ "/workflows/"
       +:+ sync_workflow config +:+ "/dispatches")
    (Some ("main", inputs)).

(** The state in which the search begins. *)
Definition dispatched (inputs : Py.dict Py.scalar) (w : world) : world :=
  with_event (EvSleep 2) (tick_api (with_event (sync_dispatch inputs) w)).

End Correlation.

(** A run dispatched with the inputs of [example_config], branch [main],
    commit [abc123] and no force; its payload is what [env_sync] decodes. *)
Definition sync_payload : string := "payload-of-run-42".

Definition sync_run : WorkflowRun :=
  {| r_id := Some (Py.SInt 42);
     r_status := Some (Py.SStr "queued");
     r_conclusion := None;
     r_html_url := None;
     r_event_payload := Some (Py.SStr sync_payload) |}.

(** The first page: 25 runs in all, none of the listed ones matching. *)
Definition first_page : response :=
  {| workflow_runs := Some [done_run]; total_count := Some (Py.SInt 25);
     total := None; count := None; as_run := empty_run |}.

Definition second_page : response :=
  {| workflow_runs := Some [done_run; sync_run]; total_count := Some (Py.SInt 25);
     total := None; count := None; as_run := empty_run |}.

(** A run whose event payload is the JSON document [[]]. *)
Definition list_payload_run : WorkflowRun :=
  {| r_id := Some (Py.SInt 7);
     r_status := Some (Py.SStr "queued");
     r_conclusion := None;
     r_html_url := None;
     r_event_payload := Some (Py.SStr "[]") |}.

Definition list_payload_page : response :=
  {| workflow_runs := Some [list_payload_run]; total_count := None;
     total := None; count := None; as_run := empty_run |}.

(** An environment whose forge accepts the dispatch and whose every
    listing times out while the response is read. *)
Definition env_sync_timeout : environment :=
  {| clock := fun _ => 1700000000%Q;
     api := fun k => match k with
                     | 0%nat => ApiOk empty_response
                     | _ => ApiRaises (Exc.Exn Exc.TimeoutError "timed out")
                     end;
     artifact := fun _ => Delivered [];
     expired := fun _ => false;
     pid := 4242;
     json_loads := fun _ => JsonInvalid;
     int_of_str := fun _ => None;
     now_iso := "2026-01-01T00:00:00";
     cache_saved := fun _ => true |}.

(** An environment whose forge accepts the dispatch and lists one run,
    whose event payload is a JSON list. *)
Definition env_sync_list_payload : environment :=
  {| clock := fun _ => 1700000000%Q;
     api := fun k => match k with
                     | 0%nat => ApiOk empty_response
                     | _ => ApiOk list_payload_page
                     end;
     artifact := fun _ => Delivered [];
     expired := fun _ => false;
     pid := 4242;
     json_loads := fun text =>
       if String.eqb text "[]" then JsonOther "list" else JsonInvalid;
     int_of_str := fun _ => None;
     now_iso := "2026-01-01T00:00:00";
     cache_saved := fun _ => true |}.

(** An environment whose forge accepts the dispatch, lists [first_page]
    and then [second_page]. *)
Definition env_sync : environment :=
  {| clock := fun _ => 1700000000%Q;
     api := fun k => match k with
                     | 0%nat => ApiOk empty_response
                     | 1%nat => ApiOk first_page
                     | _ => ApiOk second_page
                     end;
     artifact := fun _ => Delivered [];
     expired := fun _ => false;
     pid := 4242;
     json_loads := fun text =>
       if String.eqb text sync_payload then
         JsonObject
           [("ref", MScalar (Py.SStr "main"));
            ("inputs", MDict (sync_inputs example_config "main" "abc123" false))]
       else JsonInvalid;
     int_of_str := fun _ => None;
     now_iso := "2026-01-01T00:00:00";
     cache_saved := fun _ => true |}.

End Forge.

(** ** [inspire/cli/utils/tunnel.py]: bridge profiles and the ProxyCommand *)

Module Tunnel.

Definition DEFAULT_SSH_USER : string := "root".
Definition DEFAULT_SSH_PORT : Z := 22222.

Record BridgeProfile := {
  name : string;
  proxy_url : string;
  ssh_user : string;
  ssh_port : Z;
}.

(** [bridges] is iterated ([next(iter(...))]), so its order is kept. *)
Record TunnelConfig := {
  bridges : Py.dict BridgeProfile;
  default_bridge : option string;
  config_dir : string;
}.

(** [TunnelConfig()] with its field defaults. *)
Definition empty_config (dir : string) : TunnelConfig :=
  {| bridges := []; default_bridge := None; config_dir := dir |}.

(** Truthiness of an [Optional[str]]: [None] and [''] are false. *)
Definition opt_truthy (o : option string) : bool :=
  match o with Some s => Py.str_truthy s | None => false end.

Definition get_bridge (self : TunnelConfig) (name : option string)
  : option BridgeProfile :=
  if opt_truthy name then
    match name with Some n => Py.get n (bridges self) | None => None end
  else if opt_truthy (default_bridge self) then
    match default_bridge self with
    | Some d => Py.get d (bridges self)
    | None => None
    end
  else if Nat.eqb (length (bridges self)) 1 then
    hd_error (Py.values (bridges self))
  else None.

Definition add_bridge (self : TunnelConfig) (profile : BridgeProfile)
  : TunnelConfig :=
  let bridges' := Py.set (name profile) profile (bridges self) in
  {| bridges := bridges';
     default_bridge :=
       match default_bridge self with
       | None => Some (name profile)
       | Some d => Some d
       end;
     config_dir := config_dir self |}.

(** [self.default_bridge == name] for [name : str]. *)
Definition default_is (self : TunnelConfig) (n : string) : bool :=
  match default_bridge self with
  | Some d => String.eqb d n
  | None => false
  end.

Definition remove_bridge (self : TunnelConfig) (n : string)
  : TunnelConfig * bool :=
  if Py.mem n (bridges self) then
    let bridges' := Py.del n (bridges self) in
    ({| bridges := bridges';
        default_bridge :=
          if default_is self n then hd_error (Py.keys bridges')
          else default_bridge self;
        config_dir := config_dir self |}, true)
  else (self, false).

Definition list_bridges (self : TunnelConfig) : list BridgeProfile :=
  Py.values (bridges self).

(** A caller's use of the profile store. *)
Inductive op :=
| AddBridge (profile : BridgeProfile)
| RemoveBridge (n : string).

Definition apply_op (c : TunnelConfig) (o : op) : TunnelConfig :=
  match o with
  | AddBridge p => add_bridge c p
  | RemoveBridge n => fst (remove_bridge c n)
  end.

Definition run_ops (ops : list op) (c : TunnelConfig) : TunnelConfig :=
  fold_left apply_op ops c.

Definition adds_named (o : op) : Prop :=
  match o with
  | AddBridge p => name p <> ""
  | RemoveBridge _ => True
  end.

(** *** [shlex.quote] (Python standard library)

    [_find_unsafe] is [re.compile(r'[^\w@%+=:,./-]', re.ASCII).search]:
    a character is safe when it is an ASCII letter, digit, underscore or one
    of [@%+=:,./-]. *)

Definition squote : ascii := ascii_of_nat 39.
Definition dquote : ascii := ascii_of_nat 34.

Definition in_range (lo hi : nat) (c : ascii) : bool :=
  Nat.leb lo (nat_of_ascii c) && Nat.leb (nat_of_ascii c) hi.

Definition shlex_safe_char (c : ascii) : bool :=
  in_range 97 122 c || in_range 65 90 c || in_range 48 57 c
  || existsb (Ascii.eqb c)
       ["_"; "@"; "%"; "+"; "="; ":"; ","; "."; "/"; "-"]%char.

Fixpoint str_forallb (f : ascii -> bool) (s : string) : bool :=
  match s with
  | EmptyString => true
  | String c s' => f c && str_forallb f s'
  end.

(** The five characters that replace a single quote: close the quoted
    run, a double-quoted single quote, open a new quoted run. *)
Definition squote_escape : string :=
  String squote (String dquote (String squote (String dquote
    (String squote EmptyString)))).

(** [s.replace("'", squote_escape)]. *)
Fixpoint replace_squote (s : string) : string :=
  match s with
  | EmptyString => EmptyString
  | String c s' =>
      if Ascii.eqb c squote then squote_escape +:+ replace_squote s'
      else String c (replace_squote s')
  end.

Definition shlex_quote (s : string) : string :=
  if negb (Py.str_truthy s) then String squote (String squote EmptyString)
  else if str_forallb shlex_safe_char s then s
  else String squote (replace_squote s +:+ String squote EmptyString).

(** The URL rewriting at the head of [_get_proxy_command]. *)
Definition ws_url (proxy_url : string) : string :=
  if String.prefix "https://" proxy_url then
    "wss://" +:+ Py.slice_from 8 proxy_url
  else if String.prefix "http://" proxy_url then
    "ws://" +:+ Py.slice_from 7 proxy_url
  else proxy_url.

(** [rtunnel_bin] is the [Path] rendered by [str()]. *)
Definition _get_proxy_command (bridge : BridgeProfile) (rtunnel_bin : string)
    (quiet : bool) : string :=
  let ws := ws_url (proxy_url bridge) in
  if quiet then
    let cmd :=
      rtunnel_bin +:+ " " +:+ shlex_quote ws +:+ " stdio://%h:%p 2>/dev/null" in
    "sh -c " +:+ shlex_quote cmd
  else
    shlex_quote rtunnel_bin +:+ " " +:+ shlex_quote ws +:+ " "
      +:+ shlex_quote "stdio://%h:%p".

(** *** Auxiliary notions for the properties of this module *)

(** What every reachable profile store satisfies. *)
Record store_ok (c : TunnelConfig) : Prop := {
  ok_none : default_bridge c = None <-> bridges c = [];
  ok_present : forall d, default_bridge c = Some d ->
                 exists p, Py.get d (bridges c) = Some p;
}.

(** Every key of the store is a non-empty name. *)
Definition keys_named (c : TunnelConfig) : Prop :=
  forall k, In k (Py.keys (bridges c)) -> k <> "".

(** A profile named [n], for examples. *)
Definition prof (n : string) : BridgeProfile :=
  {| name := n; proxy_url := "https://proxy.example.com/" +:+ n;
     ssh_user := DEFAULT_SSH_USER; ssh_port := DEFAULT_SSH_PORT |}.

Definition example_bridge : BridgeProfile :=
  {| name := "gpu"; proxy_url := "https://proxy.example.com/tunnel";
     ssh_user := DEFAULT_SSH_USER; ssh_port := DEFAULT_SSH_PORT |}.

(** Characters other than the single quote. *)
Definition no_squote (c : ascii) : bool := negb (Ascii.eqb c squote).

End Tunnel.

(** ** [inspire/cli/commands/bridge.py]: the transport router of [bridge exec]

    [exec_command] is embedded against the helpers it imports from
    [tunnel.py] and [gitea.py], each of which answers as the environment
    says: it returns a value or raises. Messages printed with [click.echo]
    are left out. *)

Module Bridge.

Inductive answer (A : Type) :=
| Returns (a : A)
| Raises (e : Exc.exn).
Arguments Returns {A} a.
Arguments Raises {A} e.

Record CompletedProcess := {
  returncode : Z;
  stdout : string;
  stderr : string;
}.

(** The members of the completion dict that [exec_command] reads. *)
Record action_result := {
  conclusion : Py.scalar;
  html_url : Py.scalar;
}.

Record Config := {
  target_dir : string;
  remote_env : Py.dict string;
  bridge_action_timeout : Z;
  bridge_action_denylist : list string;
}.

Record environment := {
  tunnel_available : answer bool;            (** [is_tunnel_available()] *)
  ssh_result : answer CompletedProcess;      (** [run_ssh_command(...)] *)
  trigger_result : answer unit;
    (** [trigger_bridge_action_workflow(...)] *)
  wait_result : answer action_result;
    (** [wait_for_bridge_action_completion(...)] *)
  output_log_result : answer (option string);
    (** [fetch_bridge_output_log(...)] *)
  download_result : answer unit;             (** [download_bridge_artifact] *)
  now : Q;                                   (** [time.time()] *)
  pid : Z;                                   (** [os.getpid()] *)
}.

Inductive event :=
| EvProbe
| EvSsh (command : string) (timeout : Z)
| EvTrigger (raw_command : string) (artifact_paths : list string)
    (request_id : string) (denylist : list string)
| EvWait (request_id : string) (timeout : Z)
| EvFetchOutput (request_id : string)
| EvDownload (request_id : string) (local_path : string).

(** The part of an invocation that used the direct transport, and the part
    that used the mediated one. *)
Definition is_direct (e : event) : bool :=
  match e with
  | EvProbe | EvSsh _ _ => true
  | _ => false
  end.

Definition is_dispatch (e : event) : bool :=
  match e with
  | EvTrigger _ _ _ _ => true
  | _ => false
  end.

Definition is_mediated (e : event) : bool := negb (is_direct e).

Definition M := Eff.M (list event).

(** [str.strip()] and [str.split(",")]. White space is what
    [str.isspace] accepts; below 256 these are the code points 9 to 13,
    28 to 32, 133 (next line) and 160 (no-break space). *)
Definition is_space (c : ascii) : bool :=
  existsb (Nat.eqb (nat_of_ascii c))
    [9; 10; 11; 12; 13; 28; 29; 30; 31; 32; 133; 160]%nat.

Fixpoint lstrip (s : string) : string :=
  match s with
  | EmptyString => EmptyString
  | String c s' => if is_space c then lstrip s' else s
  end.

Fixpoint rstrip (s : string) : string :=
  match s with
  | EmptyString => EmptyString
  | String c s' =>
      match rstrip s' with
      | EmptyString => if is_space c then EmptyString else String c EmptyString
      | r => String c r
      end
  end.

Definition strip (s : string) : string := rstrip (lstrip s).

(** [s.split(sep)] for a one-character separator. *)
Fixpoint split_on (sep : ascii) (s : string) : list string :=
  match s with
  | EmptyString => [EmptyString]
  | String c s' =>
      if Ascii.eqb c sep then EmptyString :: split_on sep s'
      else
        match split_on sep s' with
        | [] => [String c EmptyString]
        | h :: t => String c h :: t
        end
  end.

(** [raw.replace("\r", "").replace("\n", ",")]. *)
Fixpoint normalise_breaks (s : string) : string :=
  match s with
  | EmptyString => EmptyString
  | String c s' =>
      if Nat.eqb (nat_of_ascii c) 13 then normalise_breaks s'
      else if Nat.eqb (nat_of_ascii c) 10 then
        String "," (normalise_breaks s')
      else String c (normalise_breaks s')
  end.

Definition _split_denylist (items : list string) : list string :=
  flat_map
    (fun raw =>
       List.filter Py.str_truthy
         (map strip (split_on "," (normalise_breaks raw))))
    items.

(** [" && ".join(...)]. *)
Fixpoint join (sep : string) (parts : list string) : string :=
  match parts with
  | [] => ""
  | [x] => x
  | x :: rest => x +:+ sep +:+ join sep rest
  end.

Definition build_env_exports (env_dict : Py.dict string) : string :=
  match env_dict with
  | [] => ""
  | _ =>
      join " && "
        (map (fun kv => "export " +:+ fst kv +:+ "=" +:+ Py.dq +:+ snd kv +:+ Py.dq)
             env_dict)
      +:+ " && "
  end.

(** [timeout or config.bridge_action_timeout or 300]. *)
Definition action_timeout (config : Config) (timeout : option Z) : Z :=
  let fallback :=
    if negb (bridge_action_timeout config =? 0) then
      bridge_action_timeout config
    else 300 in
  match timeout with
  | Some t => if negb (t =? 0) then t else fallback
  | None => fallback
  end.

(** Truthiness of the [--download] option value. *)
Definition requested (download : option string) : bool :=
  match download with
  | Some d => Py.str_truthy d
  | None => false
  end.

Section Env.
Variable env : environment.

Local Open Scope eff_scope.

Definition call {A} (e : event) (a : answer A) : M A :=
  fun tr =>
    match a with
    | Returns v => (Eff.Ok v, tr ++ [e])
    | Raises x => (Eff.Raised x, tr ++ [e])
    end.

Definition is_tunnel_available : M bool :=
  call EvProbe (tunnel_available env).

Definition run_ssh_command (command : string) (timeout : Z)
  : M CompletedProcess :=
  call (EvSsh command timeout) (ssh_result env).

Definition trigger_bridge_action_workflow (raw_command : string)
    (artifact_paths : list string) (request_id : string)
    (denylist : list string) : M unit :=
  call (EvTrigger raw_command artifact_paths request_id denylist)
       (trigger_result env).

Definition wait_for_bridge_action_completion (request_id : string)
    (timeout : Z) : M action_result :=
  call (EvWait request_id timeout) (wait_result env).

Definition fetch_bridge_output_log (request_id : string)
  : M (option string) :=
  call (EvFetchOutput request_id) (output_log_result env).

Definition download_bridge_artifact (request_id local_path : string)
  : M unit :=
  call (EvDownload request_id local_path) (download_result env).

(** The direct attempt: the [try] statement of source lines 124 to 190. *)
Definition direct_attempt (config : Config) (command : string)
    (timeout : option Z) : M unit :=
  Eff.try_except
    (up <- is_tunnel_available ;;
     if up then
       let env_exports := build_env_exports (remote_env config) in
       let full_command :=
         env_exports +:+ "cd " +:+ Py.dq +:+ target_dir config +:+ Py.dq
           +:+ " && " +:+ command in
       result <- run_ssh_command full_command (action_timeout config timeout) ;;
       if negb (returncode result =? 0) then
         Eff.sys_exit EXIT_GENERAL_ERROR
       else Eff.sys_exit EXIT_SUCCESS
     else Eff.ret tt)
    [(Exc.TunnelNotAvailableError, fun _ => Eff.ret tt);
     (Exc.Exception, fun _ => Eff.ret tt)].

(** The mediated path: source lines 192 to 352. *)
Definition mediated_path (config : Config) (command : string)
    (denylist artifact_path : list string) (download : option string)
    (wait : bool) (timeout : option Z) : M unit :=
  let env_exports := build_env_exports (remote_env config) in
  let workflow_command :=
    if Py.str_truthy env_exports then env_exports +:+ command
    else command in
  let merged_denylist :=
    bridge_action_denylist config ++ _split_denylist denylist in
  let request_id :=
    pretty (Forge.trunc (now env)) +:+ "-" +:+ pretty (pid env) in
  Eff.try_except
    (trigger_bridge_action_workflow workflow_command artifact_path
       request_id merged_denylist)
    [(Exc.GiteaError, fun _ => Eff.sys_exit EXIT_GENERAL_ERROR);
     (Exc.GiteaAuthError, fun _ => Eff.sys_exit EXIT_GENERAL_ERROR)] ;;
  if negb wait then Eff.sys_exit EXIT_SUCCESS
  else
    result <-
      Eff.try_except
        (wait_for_bridge_action_completion request_id
           (action_timeout config timeout))
        [(Exc.TimeoutError, fun _ => Eff.sys_exit EXIT_TIMEOUT);
         (Exc.GiteaError, fun _ => Eff.sys_exit EXIT_GENERAL_ERROR)] ;;
    output_log <-
      Eff.try_except (fetch_bridge_output_log request_id)
        [(Exc.GiteaError, fun _ => Eff.ret None)] ;;
    if negb (Py.scalar_eqb (conclusion result) (Py.SStr "success")) then
      Eff.sys_exit EXIT_GENERAL_ERROR
    else
      (match download with
       | Some dir =>
           if Py.str_truthy dir then
             Eff.try_except (download_bridge_artifact request_id dir)
               [(Exc.GiteaError, fun _ => Eff.sys_exit EXIT_GENERAL_ERROR)]
           else Eff.ret tt
       | None => Eff.ret tt
       end) ;;
      Eff.sys_exit EXIT_SUCCESS.

Definition exec_command (config : Config) (command : string)
    (denylist artifact_path : list string) (download : option string)
    (wait : bool) (timeout : option Z) (no_tunnel : bool) : M unit :=
  (if negb no_tunnel
      && negb (match artifact_path with [] => false | _ => true end)
      && negb (requested download)
   then direct_attempt config command timeout
   else Eff.ret tt) ;;
  mediated_path config command denylist artifact_path download wait timeout.

End Env.

(** *** Auxiliary notions for the properties of this module *)

(** Events of the mediated transport other than the dispatch itself. *)
Definition is_followup (e : event) : bool :=
  is_mediated e && negb (is_dispatch e).

(** The direct transport is unavailable or fails. *)
Definition direct_fails (env : environment) : Prop :=
  tunnel_available env = Returns false
  \/ (exists e, tunnel_available env = Raises e
                /\ Exc.isinstance e Exc.Exception = true)
  \/ (tunnel_available env = Returns true
      /\ exists e, ssh_result env = Raises e
                   /\ Exc.isinstance e Exc.Exception = true).

(** Environments and a configuration for examples. *)
Definition example_config : Config :=
  {| target_dir := "/shared/work"; remote_env := [];
     bridge_action_timeout := 300; bridge_action_denylist := [] |}.

Definition env_down : environment :=
  {| tunnel_available :=
       Raises (Exc.Exn Exc.TunnelNotAvailableError "No bridge configured");
     ssh_result := Raises (Exc.Exn Exc.TunnelNotAvailableError "unused");
     trigger_result := Returns tt;
     wait_result :=
       Returns {| conclusion := Py.SStr "success"; html_url := Py.SStr "" |};
     output_log_result := Returns (Some "done");
     download_result := Returns tt;
     now := 1700000000%Q;
     pid := 4242 |}.

Definition env_up_failing : environment :=
  {| tunnel_available := Returns true;
     ssh_result :=
       Returns {| returncode := 1; stdout := ""; stderr := "" |};
     trigger_result := Returns tt;
     wait_result :=
       Returns {| conclusion := Py.SStr "success"; html_url := Py.SStr "" |};
     output_log_result := Returns None;
     download_result := Returns tt;
     now := 1700000000%Q;
     pid := 4242 |}.

End Bridge.
(** ** Further notions for the profile store of [tunnel.py] *)

Module TunnelStore.
Import Tunnel.

(** The names of the stored profiles, in the order [list_bridges] gives. *)
Definition names (c : TunnelConfig) : list string := Py.keys (bridges c).

(** A store as the operations build it: no name twice, and every profile
    filed under its own name. *)
Record well_keyed (c : TunnelConfig) : Prop := {
  wk_unique : List.NoDup (names c);
  wk_named : forall k p, In (k, p) (bridges c) -> name p = k;
}.

End TunnelStore.

(** ** Further notions for the log cache of [forge.py] and [job.py] *)

Module LogFrame.
Import Forge.

(** A computation is confined to the files [F] and the job records [J]
    when it ends (with a value or an exception) in a state that differs
    from the one it started in at most there. *)
Definition confined (F : path -> Prop) (J : string -> Prop) {A} (m : M A)
  : Prop :=
  forall w,
    fst (m w) <> Eff.OutOfFuel
    /\ (forall p, ~ F p -> files (snd (m w)) !! p = files w !! p)
    /\ (forall j, ~ J j -> jobs (snd (m w)) !! j = jobs w !! j).

(** The [*.log] files of a directory, the files [_prune_old_logs] visits. *)
Definition log_file_of (dir : string) (p : path) : Prop :=
  fst p = dir /\ is_log_name (snd p) = true.

End LogFrame.

(** ** Notions for the failures of a log fetch *)

Module LogExit.
Import Forge.

(** The message [trigger_workflow_dispatch] puts on a refused dispatch. *)
Definition refused (msg : string) : Exc.exn :=
  Exc.Exn Exc.ForgeError ("Failed to trigger workflow: " +:+ msg).

End LogExit.

(** ** [ForgeClient.request_bytes] and the attempts of either request *)

Module HttpBytes.
Import Http.

(** What one call of [urlrequest.urlopen] does for a binary request;
    [data] is [resp.read()]. The body of an error response is only
    logged. *)
Inductive reply :=
| Body (data : list byte)
| HTTPError (code : Z)
| URLError (reason : string)
| Other (e : Exc.exn).
    (** any other exception that [urlopen] or [resp.read()] raises, such
        as a [TimeoutError] or a [ConnectionResetError] while the body is
        read *)

Section Client.
Variable urlopen_script : nat -> reply.

Local Open Scope eff_scope.

(** [_build_request(method, url, data=None, accept=...)] and [urlopen]. *)
Definition urlopen (method url : string) : M reply :=
  w <- Eff.get_state ;;
  Eff.modify (fun w => {| trace := trace w ++ [EvUrlopen method url None];
                          calls := S (calls w) |}) ;;
  Eff.ret (urlopen_script (calls w)).

(** The body of [for attempt in range(max_retries + 1)]. *)
Fixpoint request_bytes_loop (method url : string) (attempts : list Z)
  : M (list byte) :=
  match attempts with
  | [] => Eff.ret []
  | attempt :: rest =>
      r <- urlopen method url ;;
      match r with
      | Body data => Eff.ret data
      | HTTPError code =>
          let msg := "API error " +:+ pretty code +:+ " for " +:+ url in
          if (500 <=? code) && (attempt <? max_retries) then
            sleep retry_delay ;; request_bytes_loop method url rest
          else Eff.raise (Exc.Exn Exc.ForgeError msg)
      | URLError reason =>
          if attempt <? max_retries then
            sleep retry_delay ;; request_bytes_loop method url rest
          else
            Eff.raise (Exc.Exn Exc.ForgeError
                         ("API request failed for " +:+ url +:+ ": "
                            +:+ str_URLError reason))
      | Other e => Eff.raise e
      end
  end.

Definition request_bytes (method url : string) : M (list byte) :=
  request_bytes_loop method url (seqZ 0 (max_retries + 1)).

End Client.

(** A reply that leads to another attempt while the budget lasts: a status
    code of 500 or above, or a [URLError]. *)
Definition retried (r : reply) : Prop :=
  match r with
  | Body _ => False
  | HTTPError code => 500 <= code
  | URLError _ => True
  | Other _ => False
  end.

(** The same for [request_json]. *)
Definition json_retried (r : Http.reply) : Prop :=
  match r with
  | Http.Success _ => False
  | Http.HTTPError code _ => 500 <= code
  | Http.URLError _ => True
  | Http.Other _ => False
  end.

(** What the last attempt of [request_bytes] ends with. *)
Definition bytes_outcome (url : string) (r : reply)
  : Eff.outcome (list byte) :=
  match r with
  | Body data => Eff.Ok data
  | HTTPError code =>
      Eff.Raised (Exc.Exn Exc.ForgeError
                    ("API error " +:+ pretty code +:+ " for " +:+ url))
  | URLError reason =>
      Eff.Raised (Exc.Exn Exc.ForgeError
                    ("API request failed for " +:+ url +:+ ": "
                       +:+ str_URLError reason))
  | Other e => Eff.Raised e
  end.

(** What the last attempt of [request_json] ends with. *)
Definition json_outcome (json_loads : string -> option Py.json)
    (str_json : Py.json -> string) (url : string) (r : Http.reply)
  : Eff.outcome Py.json :=
  match r with
  | Http.Success payload =>
      if negb (Py.str_truthy payload) then Eff.Ok (Py.JDict [])
      else
        match json_loads payload with
        | Some v => Eff.Ok v
        | None => Eff.Raised (Exc.Exn Exc.ValueError "JSONDecodeError")
        end
  | Http.HTTPError code raw =>
      Eff.Raised (Exc.Exn Exc.ForgeError
                    (api_error_msg str_json code url
                       (error_detail json_loads raw)))
  | Http.URLError reason =>
      Eff.Raised (Exc.Exn Exc.ForgeError
                    ("API request failed for " +:+ url +:+ ": "
                       +:+ str_URLError reason))
  | Http.Other e => Eff.Raised e
  end.

End HttpBytes.

(** ** Notions on strings *)

Module StrNotions.
Import Bridge.

(** A character occurs in a string. *)
Fixpoint occurs (c : ascii) (s : string) : bool :=
  match s with
  | EmptyString => false
  | String c' s' => Ascii.eqb c c' || occurs c s'
  end.

(** A string that does not begin with white space. *)
Definition starts_clean (s : string) : Prop :=
  match s with
  | EmptyString => True
  | String c _ => is_space c = false
  end.

End StrNotions.

(** ** [_parse_denylist] of [config.py] *)

Module ConfigParse.
Import Bridge StrNotions.

Definition newline : ascii := ascii_of_nat 10.

(** [value.replace("\r", "")]. *)
Fixpoint remove_cr (s : string) : string :=
  match s with
  | EmptyString => EmptyString
  | String c s' =>
      if Nat.eqb (nat_of_ascii c) 13 then remove_cr s'
      else String c (remove_cr s')
  end.

(** The denylist of [INSPIRE_BRIDGE_DENYLIST]; [None] is an unset
    variable. *)
Definition _parse_denylist (value : option string) : list string :=
  match value with
  | None => []
  | Some v =>
      if negb (Py.str_truthy v) then []
      else
        flat_map
          (fun raw =>
             List.filter Py.str_truthy (map strip (split_on "," raw)))
          (split_on newline (remove_cr v))
  end.

(** An item as a denylist holds it: not empty, no white space at either
    end, and none of the separators inside. *)
Record clean_item (x : string) : Prop := {
  ci_nonempty : x <> "";
  ci_stripped : strip x = x;
  ci_no_comma : occurs "," x = false;
  ci_no_newline : occurs newline x = false;
  ci_no_return : occurs (ascii_of_nat 13) x = false;
}.

End ConfigParse.

(** ** [_wrap_in_bash] of [commands/job.py] *)

Module JobCommand.
Import Bridge.

Definition squote : ascii := ascii_of_nat 39.
Definition backslash : ascii := ascii_of_nat 92.

(** The prefixes of [stripped.startswith((...))]. *)
Definition wrappers : list string :=
  ["bash -c "; "sh -c "; "/bin/bash -c "; "/bin/sh -c "].

Definition already_wrapped (command : string) : bool :=
  existsb (fun p => String.prefix p (strip command)) wrappers.

(** The four characters that replace a single quote: close the quoted
    run, an escaped single quote, open a new quoted run. *)
Definition squote_escape : string :=
  String squote (String backslash (String squote (String squote EmptyString))).

(** [command.replace("'", squote_escape)]. *)
Fixpoint escape_squotes (s : string) : string :=
  match s with
  | EmptyString => EmptyString
  | String c s' =>
      if Ascii.eqb c squote then squote_escape +:+ escape_squotes s'
      else String c (escape_squotes s')
  end.

Definition _wrap_in_bash (command : string) : string :=
  if already_wrapped command then command
  else
    "bash -c " +:+ String squote (escape_squotes command
                                    +:+ String squote EmptyString).

(** *** How a POSIX shell reads a word

    Inside single quotes every character stands for itself up to the
    closing quote; outside, a backslash makes the next character stand for
    itself. [sh_word] reads a word made of such pieces (no other
    metacharacter is given a meaning: a word that needs one is not read). *)

Fixpoint sh_quoted (s : string) : option (string * string) :=
  match s with
  | EmptyString => None
  | String c s' =>
      if Ascii.eqb c squote then Some (EmptyString, s')
      else
        match sh_quoted s' with
        | Some (body, rest) => Some (String c body, rest)
        | None => None
        end
  end.

(** The fuel bounds the number of pieces. *)
Fixpoint sh_word (fuel : nat) (s : string) : option string :=
  match fuel with
  | O => None
  | S fuel' =>
      match s with
      | EmptyString => Some EmptyString
      | String c s' =>
          if Ascii.eqb c squote then
            match sh_quoted s' with
            | Some (body, rest) =>
                match sh_word fuel' rest with
                | Some w => Some (body +:+ w)
                | None => None
                end
            | None => None
            end
          else if Ascii.eqb c backslash then
            match s' with
            | String d rest =>
                match sh_word fuel' rest with
                | Some w => Some (String d w)
                | None => None
                end
            | EmptyString => None
            end
          else None
      end
  end.

End JobCommand.

(** ** [forge.py]: resolving the platform, the repository and the client

    The settings are the fields of [Config] that [forge.py] reads, and
    [INSP_GIT_PLATFORM] is the value of the environment variable ([None]
    when it is unset). *)

Module ForgeConfig.
Import Bridge StrNotions.

Inductive result (A : Type) :=
| Val (a : A)
| Err (e : Exc.exn).
Arguments Val {A} a.
Arguments Err {A} e.

Record Config := {
  git_platform : option string;
  gitea_repo : option string;
  gitea_token : option string;
  gitea_server : string;
  gitea_log_workflow : string;
  gitea_sync_workflow : string;
  gitea_bridge_workflow : string;
  github_repo : option string;
  github_token : option string;
  github_server : string;
  github_log_workflow : string;
  github_sync_workflow : string;
  github_bridge_workflow : string;
}.

(** [str.lower()]: below 256 the upper-case letters are the code points
    65 to 90, 192 to 214 and 216 to 222, each 32 below its lower-case
    form. *)
Definition lower_char (c : ascii) : ascii :=
  if Tunnel.in_range 65 90 c || Tunnel.in_range 192 214 c
     || Tunnel.in_range 216 222 c
  then ascii_of_nat (nat_of_ascii c + 32)
  else c.

Fixpoint lower (s : string) : string :=
  match s with
  | EmptyString => EmptyString
  | String c s' => String (lower_char c) (lower s')
  end.

(** [s.rstrip("/")]. *)
Fixpoint rstrip_slash (s : string) : string :=
  match s with
  | EmptyString => EmptyString
  | String c s' =>
      match rstrip_slash s' with
      | EmptyString =>
          if Ascii.eqb c "/" then EmptyString else String c EmptyString
      | r => String c r
      end
  end.

(** [x or ""] for an [Optional[str]]. *)
Definition or_empty (o : option string) : string := default "" o.

(** [x or d] for a [str]. *)
Definition str_or (s d : string) : string :=
  if Py.str_truthy s then s else d.

Definition _sanitize_token (token : string) : string :=
  let token := strip token in
  let lower := lower token in
  if String.prefix "bearer " lower then strip (Py.slice_from 7 token)
  else if String.prefix "token " lower then strip (Py.slice_from 6 token)
  else token.

Definition _resolve_platform (INSP_GIT_PLATFORM : option string)
    (config : Config) : Forge.platform :=
  let platform_env := lower (strip (or_empty INSP_GIT_PLATFORM)) in
  let platform_config := lower (strip (or_empty (git_platform config))) in
  let platform_str :=
    if Py.str_truthy platform_env then platform_env else platform_config in
  if String.eqb platform_str "github" then Forge.GITHUB
  else if String.eqb platform_str "gitea" then Forge.GITEA
  else if Tunnel.opt_truthy (github_repo config)
          || Tunnel.opt_truthy (github_token config) then Forge.GITHUB
  else Forge.GITEA.

Definition auth_error (msg : string) : Exc.exn :=
  Exc.Exn Exc.ForgeAuthError msg.

Definition _get_active_repo (INSP_GIT_PLATFORM : option string)
    (config : Config) : result string :=
  match _resolve_platform INSP_GIT_PLATFORM config with
  | Forge.GITHUB =>
      let repo := strip (or_empty (github_repo config)) in
      if negb (Py.str_truthy repo) then
        Err (auth_error
               ("GitHub operations require INSP_GITHUB_REPO to be set."
                  +:+ Forge.nl +:+ "Use 'owner/repo' format." +:+ Forge.nl
                  +:+ "Example: export INSP_GITHUB_REPO='my-org/my-repo'"))
      else if negb (occurs "/" repo) then
        Err (auth_error
               ("Invalid INSP_GITHUB_REPO format '" +:+ repo
                  +:+ "'. Expected 'owner/repo'."))
      else Val repo
  | Forge.GITEA =>
      let repo := strip (or_empty (gitea_repo config)) in
      if negb (Py.str_truthy repo) then
        Err (auth_error
               ("Gitea operations require INSP_GITEA_REPO to be set."
                  +:+ Forge.nl +:+ "Use 'owner/repo' format." +:+ Forge.nl
                  +:+ "Example: export INSP_GITEA_REPO='owner/repo'"))
      else if negb (occurs "/" repo) then
        Err (auth_error
               ("Invalid INSP_GITEA_REPO format '" +:+ repo
                  +:+ "'. Expected 'owner/repo'."))
      else Val repo
  end.

Definition _get_active_token (INSP_GIT_PLATFORM : option string)
    (config : Config) : result string :=
  match _resolve_platform INSP_GIT_PLATFORM config with
  | Forge.GITHUB =>
      if negb (Tunnel.opt_truthy (github_token config)) then
        Err (auth_error
               ("GitHub operations require INSP_GITHUB_TOKEN environment variable."
                  +:+ Forge.nl
                  +:+ "Set it with: export INSP_GITHUB_TOKEN='ghp_...'"))
      else Val (_sanitize_token (or_empty (github_token config)))
  | Forge.GITEA =>
      if negb (Tunnel.opt_truthy (gitea_token config)) then
        Err (auth_error
               ("Gitea operations require INSP_GITEA_TOKEN environment variable."
                  +:+ Forge.nl
                  +:+ "Set it with: export INSP_GITEA_TOKEN='...'"))
      else Val (_sanitize_token (or_empty (gitea_token config)))
  end.

Definition _get_active_server (INSP_GIT_PLATFORM : option string)
    (config : Config) : string :=
  match _resolve_platform INSP_GIT_PLATFORM config with
  | Forge.GITHUB =>
      rstrip_slash (str_or (github_server config) "https://github.com")
  | Forge.GITEA =>
      rstrip_slash (str_or (gitea_server config) "https://codeberg.org")
  end.

Definition _get_active_workflow_file (INSP_GIT_PLATFORM : option string)
    (config : Config) (workflow_type : string) : string :=
  match _resolve_platform INSP_GIT_PLATFORM config with
  | Forge.GITHUB =>
      if String.eqb workflow_type "log" then github_log_workflow config
      else if String.eqb workflow_type "sync" then github_sync_workflow config
      else if String.eqb workflow_type "bridge" then
        github_bridge_workflow config
      else "workflow.yml"
  | Forge.GITEA =>
      if String.eqb workflow_type "log" then gitea_log_workflow config
      else if String.eqb workflow_type "sync" then gitea_sync_workflow config
      else if String.eqb workflow_type "bridge" then
        gitea_bridge_workflow config
      else "workflow.yml"
  end.

Definition create_forge_client (INSP_GIT_PLATFORM : option string)
    (config : Config) : result Forge.ForgeClient :=
  let platform := _resolve_platform INSP_GIT_PLATFORM config in
  match _get_active_token INSP_GIT_PLATFORM config with
  | Err e => Err e
  | Val token =>
      let server_url := _get_active_server INSP_GIT_PLATFORM config in
      Val {| Forge.kind := platform; Forge.token := token;
             Forge.server_url := server_url |}
  end.

(** *** Notions for the properties *)

(** A string ends with a slash. *)
Fixpoint ends_with_slash (s : string) : bool :=
  match s with
  | EmptyString => false
  | String c EmptyString => Ascii.eqb c "/"
  | String _ s' => ends_with_slash s'
  end.

(** [n] slashes. *)
Fixpoint slashes (n : nat) : string :=
  match n with
  | O => EmptyString
  | S n' => String "/" (slashes n')
  end.

(** The settings of a GitHub user, for examples. *)
Definition github_settings : Config :=
  {| git_platform := Some "github";
     gitea_repo := None; gitea_token := None;
     gitea_server := "https://codeberg.org";
     gitea_log_workflow := "retrieve_job_log.yml";
     gitea_sync_workflow := "sync_code.yml";
     gitea_bridge_workflow := "run_bridge_action.yml";
     github_repo := Some "my-org/my-repo";
     github_token := Some "Bearer ghp_abc";
     github_server := "https://github.com/";
     github_log_workflow := "retrieve_job_log.yml";
     github_sync_workflow := "sync_code.yml";
     github_bridge_workflow := "run_bridge_action.yml" |}.

End ForgeConfig.

(** ** [wait_for_bridge_action_completion] of [forge.py] *)

Module BridgeAction.
Import Forge.

Local Open Scope eff_scope.

(** The dict [_find_matching_run] returns; [run.get("id")] is [None] for a
    run without an id. *)
Record action_result := {
  a_status : Py.scalar;
  a_conclusion : Py.scalar;
  a_run_id : Py.scalar;
  a_html_url : Py.scalar;
}.

Definition result_of (run : WorkflowRun) : action_result :=
  let status := Py.get_or (r_status run) Py.SNone in
  let conclusion := Py.get_or (r_conclusion run) Py.SNone in
  {| a_status := status;
     a_conclusion := Py.or_else conclusion status;
     a_run_id := Py.get_or (r_id run) Py.SNone;
     a_html_url := Py.get_or (r_html_url run) (Py.SStr "") |}.

(** [timeout or config.bridge_action_timeout or 300]. *)
Definition action_timeout_seconds (bridge_action_timeout : Z)
    (timeout : option Z) : Z :=
  let fallback :=
    if negb (bridge_action_timeout =? 0) then bridge_action_timeout
    else 300 in
  match timeout with
  | Some t => if negb (t =? 0) then t else fallback
  | None => fallback
  end.

Definition timed_out (seconds : Z) : Exc.exn :=
  Exc.Exn Exc.TimeoutError
    ("Bridge action timed out after " +:+ pretty seconds +:+ " seconds.").

Section Env.
Variable env : environment.
Variable config : Config.
Variable bridge_action_timeout : Z.   (** [config.bridge_action_timeout] *)

Definition expected_of (request_id : string) : Py.dict Py.scalar :=
  [("request_id", Py.SStr request_id)].

(** It raises what [_find_run_by_inputs] raises. *)
Definition _find_matching_run (request_id : string)
    (runs_list : list WorkflowRun) : Exc.exn + option action_result :=
  match _find_run_by_inputs env runs_list (expected_of request_id) with
  | inl e => inl e
  | inr None => inr None
  | inr (Some run) =>
      if is_terminal (Py.get_or (r_status run) Py.SNone) then
        inr (Some (result_of run))
      else inr None
  end.

(** The [try] block of one iteration; [Some m] is [return m]. *)
Definition action_round (request_id : string) (limit : Z)
  : M (option action_result) :=
  response <- request_json env "GET" (runs_url config limit 1) None ;;
  found <- Eff.lift (_find_matching_run request_id (runs_of response)) ;;
  match found with
  | Some m => Eff.ret (Some m)
  | None =>
      match _extract_total_count env response with
      | Some total_count =>
          if negb (total_count =? 0) && (limit <? total_count) then
            let last_page := (total_count + limit - 1) / limit in
            response <- request_json env "GET"
                          (runs_url config limit last_page) None ;;
            Eff.lift (_find_matching_run request_id (runs_of response))
          else Eff.ret None
      | None => Eff.ret None
      end
  end.

(** [while True:], one unit of fuel per iteration. *)
Fixpoint action_loop (fuel : nat) (request_id : string) (seconds : Z)
    (deadline : Q) : M action_result :=
  match fuel with
  | O => Eff.out_of_fuel
  | S fuel' =>
      now <- time_time env ;;
      if Qgtb now deadline then Eff.raise (timed_out seconds)
      else
        found <- Eff.try_except (action_round request_id 20)
                   [(Exc.ForgeError, fun _ => Eff.ret None)] ;;
        match found with
        | Some m => Eff.ret m
        | None =>
            sleep 3%Q ;;
            action_loop fuel' request_id seconds deadline
        end
  end.

Definition wait_for_bridge_action_completion (fuel : nat)
    (request_id : string) (timeout : option Z) : M action_result :=
  let seconds := action_timeout_seconds bridge_action_timeout timeout in
  start <- time_time env ;;
  let deadline := (start + inject_Z (Z.max 5 seconds))%Q in
  action_loop fuel request_id seconds deadline.

(** *** Notions for the properties *)

(** A result built from a run that some listing showed, that carries the
    request id and that has ended. *)
Definition from_finished_run (request_id : string) (m : action_result)
  : Prop :=
  exists run k r,
    api env k = ApiOk r /\ In run (runs_of r)
    /\ run_matches env run (expected_of request_id)
    /\ is_terminal (Py.get_or (r_status run) Py.SNone) = true
    /\ m = result_of run.

(** An exception that the [except ForgeError: pass] of an iteration does
    not catch: one that is not a [ForgeError] and that a listing request
    raised, or the [AttributeError] raised for a listed run whose event
    payload is JSON but not an object. *)
Definition let_through (e : Exc.exn) : Prop :=
  Exc.isinstance e Exc.ForgeError = false
  /\ ((exists k, api env k = ApiRaises e)
      \/ (exists k r run,
            api env k = ApiOk r /\ In run (runs_of r)
            /\ payload_not_object env run e)).

(** Every request that fails does so with a [ForgeError], and every
    listed event payload decodes. *)
Definition forge_errors_only : Prop :=
  fails_as_ForgeError env
  /\ forall k r run, api env k = ApiOk r -> In run (runs_of r) ->
       decodes env run.

End Env.

End BridgeAction.

(** ** [forge.py]: artifacts and raw files

    [_find_artifact_by_name], [wait_for_log_artifact],
    [download_bridge_artifact] and [fetch_bridge_output_log] are embedded
    against the [ForgeClient] interface: the k-th [request_json] on the
    artifact listing and the k-th [request_bytes] are answered by scripts,
    and [zipfile] and [bytes.decode] are taken as they are. Creating a
    directory and writing a file that has been opened are taken to
    succeed. *)

Module Artifact.
Import Forge.

Local Open Scope eff_scope.

(** An entry of the artifact listing; [None] is an absent key. *)
Record artifact := {
  art_name : option Py.scalar;
  art_expired : option Py.scalar;
  art_id : option Py.scalar;
}.

(** A reply to [request_json] on the artifact listing: the [artifacts]
    member of the response ([None] when absent or null), the [ForgeError]
    that [request_json] raises for a status or a connection error, or any
    other exception that leaves the [try] block of the listing: one that
    [request_json] does not turn into a [ForgeError] (a [TimeoutError]
    while the response is read, a [JSONDecodeError]), or the
    [AttributeError] of a response or of a listed entry that is not an
    object. *)
Inductive listing_reply :=
| Listing (artifacts : option (list artifact))
| ListingError (msg : string)
| ListingRaises (e : Exc.exn).

(** A reply to [request_bytes]: the body, the [ForgeError] it raises for
    a status or a connection error, or an exception that it does not turn
    into a [ForgeError]. *)
Inductive bytes_reply :=
| Bytes (data : list byte)
| BytesError (msg : string)
| BytesRaises (e : Exc.exn).

(** What [zf.open(member)] and the [read()] on it do. *)
Inductive member_read :=
| Content (data : list byte)
| OpenError          (** [zf.open] raises *)
| ReadError.         (** [read] raises, the member being open *)

Record zip_member := {
  filename : string;
  is_dir : bool;
  content : member_read;
}.

Record environment := {
  clock : nat -> Q;                      (** k-th [time.time()] *)
  listing : nat -> listing_reply;        (** k-th listing request *)
  download : nat -> bytes_reply;         (** k-th [request_bytes] *)
  unzip : list byte -> option (list zip_member);
    (** [zipfile.ZipFile(BytesIO(data)).infolist()]; [None] is
        [BadZipFile] *)
  decode : list byte -> string;
    (** [bytes.decode("utf-8", errors="replace")] *)
}.

Inductive event :=
| EvList (url : string)                      (** [request_json("GET", url)] *)
| EvBytes (url : string)                     (** [request_bytes("GET", url)] *)
| EvSleep (seconds : Q)
| EvExtract (local_path : string) (data : list byte).
    (** [zf.extractall(local_path)] *)

Record world := {
  files : gmap path (list byte);
  trace : list event;
  n_clock : nat;
  n_list : nat;
  n_bytes : nat;
}.

Definition M := Eff.M world.

(** [zipfile.BadZipFile], a direct subclass of [Exception]. *)
Definition BadZipFile : Exc.exn := Exc.Exn Exc.Exception "BadZipFile".

(** [s.replace(old, new)] for a non-empty [old]: [skip] counts the
    characters of a match still to be passed over. *)
Fixpoint replace_from (old new : string) (skip : nat) (s : string) : string :=
  match s with
  | EmptyString => EmptyString
  | String c s' =>
      match skip with
      | S k => replace_from old new k s'
      | O =>
          if String.prefix old s then
            new +:+ replace_from old new (Nat.pred (String.length old)) s'
          else String c (replace_from old new O s')
      end
  end.

Definition str_replace (old new s : string) : string :=
  replace_from old new O s.

Definition get_raw_file_url (self : ForgeClient) (repo branch filepath : string)
  : string :=
  match kind self with
  | GITEA =>
      server_url self +:+ "/api/v1/repos/" +:+ repo +:+ "/raw/" +:+ branch
        +:+ "/" +:+ filepath
  | GITHUB =>
      let raw_base :=
        if String.eqb (server_url self) "https://github.com" then
          "https://raw.githubusercontent.com"
        else str_replace "https://" "https://raw." (server_url self) in
      raw_base +:+ "/" +:+ repo +:+ "/" +:+ branch +:+ "/" +:+ filepath
  end.

Definition nonempty {A} (l : list A) : bool :=
  match l with [] => false | _ => true end.

Section Env.
Variable env : environment.

(** *** The boundary *)

Definition time_time : M Q :=
  fun w =>
    (Eff.Ok (clock env (n_clock w)),
     {| files := files w; trace := trace w; n_clock := S (n_clock w);
        n_list := n_list w; n_bytes := n_bytes w |}).

Definition emit (e : event) (w : world) : world :=
  {| files := files w; trace := trace w ++ [e]; n_clock := n_clock w;
     n_list := n_list w; n_bytes := n_bytes w |}.

Definition sleep (seconds : Q) : M unit :=
  Eff.modify (emit (EvSleep seconds)).

Definition request_json (url : string) : M (option (list artifact)) :=
  fun w =>
    let w' := {| files := files w; trace := trace w ++ [EvList url];
                 n_clock := n_clock w; n_list := S (n_list w);
                 n_bytes := n_bytes w |} in
    match listing env (n_list w) with
    | Listing a => (Eff.Ok a, w')
    | ListingError msg => (Eff.Raised (Exc.Exn Exc.ForgeError msg), w')
    | ListingRaises e => (Eff.Raised e, w')
    end.

Definition request_bytes (url : string) : M (list byte) :=
  fun w =>
    let w' := {| files := files w; trace := trace w ++ [EvBytes url];
                 n_clock := n_clock w; n_list := n_list w;
                 n_bytes := S (n_bytes w) |} in
    match download env (n_bytes w) with
    | Bytes data => (Eff.Ok data, w')
    | BytesError msg => (Eff.Raised (Exc.Exn Exc.ForgeError msg), w')
    | BytesRaises e => (Eff.Raised e, w')
    end.

(** [p.write_bytes(data)], and [p.open("wb")] followed by a write. *)
Definition write_bytes (p : path) (data : list byte) : M unit :=
  Eff.modify (fun w =>
    {| files := <[p := data]> (files w); trace := trace w;
       n_clock := n_clock w; n_list := n_list w; n_bytes := n_bytes w |}).

(** *** [_find_artifact_by_name] *)

(** [art.get("name") == artifact_name and not art.get("expired", False)]. *)
Definition usable (artifact_name : string) (art : artifact) : bool :=
  Py.scalar_eqb (Py.get_or (art_name art) Py.SNone) (Py.SStr artifact_name)
  && negb (Py.truthy (Py.get_or (art_expired art) (Py.SBool false))).

Definition artifacts_url (config : Config) : string :=
  get_api_base (client config) (repo config) +:+ "/artifacts?limit=100".

Definition _find_artifact_by_name (config : Config) (artifact_name : string)
  : M (option artifact) :=
  Eff.try_except
    (response <- request_json (artifacts_url config) ;;
     let artifacts := default [] response in
     Eff.ret (List.find (usable artifact_name) artifacts))
    [(Exc.ForgeError, fun _ => Eff.ret None)].

(** *** [wait_for_log_artifact] *)

Definition download_url (config : Config) (artifact_id : Py.scalar)
  : string :=
  get_api_base (client config) (repo config) +:+ "/artifacts/"
    +:+ Py.str artifact_id +:+ "/zip".

Definition raw_log_url (config : Config) (log_filename : string) : string :=
  get_raw_file_url (client config) (repo config) "logs"
    (log_filename +:+ ".log").

(** Method 1; [true] is [return]. *)
Definition from_artifact_api (config : Config) (log_filename : string)
    (cache_path : path) : M bool :=
  artifact <- _find_artifact_by_name config log_filename ;;
  match artifact with
  | None => Eff.ret false
  | Some art =>
      let artifact_id := Py.get_or (art_id art) Py.SNone in
      if Py.truthy artifact_id then
        Eff.try_except
          (data <- request_bytes (download_url config artifact_id) ;;
           match unzip env data with
           | None => Eff.raise BadZipFile
           | Some infolist =>
               match List.filter (fun m => negb (is_dir m)) infolist with
               | [] => Eff.ret false
               | member :: _ =>
                   match content member with
                   | OpenError => Eff.raise BadZipFile
                   | ReadError =>
                       write_bytes cache_path [] ;; Eff.raise BadZipFile
                   | Content bytes =>
                       write_bytes cache_path bytes ;; Eff.ret true
                   end
               end
           end)
          [(Exc.ForgeError, fun _ => Eff.ret false)]
      else Eff.ret false
  end.

(** Method 2; [true] is [return]. *)
Definition from_logs_branch (config : Config) (log_filename : string)
    (cache_path : path) : M bool :=
  Eff.try_except
    (data <- request_bytes (raw_log_url config log_filename) ;;
     if nonempty data then write_bytes cache_path data ;; Eff.ret true
     else Eff.ret false)
    [(Exc.ForgeError, fun _ => Eff.ret false)].

Definition log_timed_out (config : Config) : Exc.exn :=
  Exc.Exn Exc.TimeoutError
    ("Remote log retrieval timed out after "
       +:+ pretty (remote_timeout config) +:+ " seconds.").

(** [while True:], one unit of fuel per iteration. *)
Fixpoint artifact_loop (fuel : nat) (config : Config) (log_filename : string)
    (cache_path : path) (deadline : Q) : M unit :=
  match fuel with
  | O => Eff.out_of_fuel
  | S fuel' =>
      now <- time_time ;;
      if Qgtb now deadline then Eff.raise (log_timed_out config)
      else
        done <- from_artifact_api config log_filename cache_path ;;
        if done then Eff.ret tt
        else
          done <- from_logs_branch config log_filename cache_path ;;
          if done then Eff.ret tt
          else
            sleep 3%Q ;;
            artifact_loop fuel' config log_filename cache_path deadline
  end.

(** [max(5, int(config.remote_timeout or 90))]. *)
Definition log_wait_seconds (config : Config) : Z :=
  Z.max 5 (if negb (remote_timeout config =? 0) then remote_timeout config
           else 90).

Definition wait_for_log_artifact (fuel : nat) (config : Config)
    (job_id request_id : string) (cache_path : path) : M unit :=
  let log_filename := _artifact_name job_id request_id in
  start <- time_time ;;
  let deadline := (start + inject_Z (log_wait_seconds config))%Q in
  artifact_loop fuel config log_filename cache_path deadline.

(** *** Artifacts of a bridge action *)

Definition bridge_artifact_name (request_id : string) : string :=
  "bridge-action-" +:+ request_id.

Definition bridge_zip_url (config : Config) (request_id : string) : string :=
  get_raw_file_url (client config) (repo config) "logs"
    (bridge_artifact_name request_id +:+ ".zip").

Definition not_found (request_id : string) : Exc.exn :=
  Exc.Exn Exc.ForgeError
    ("Artifact not found: " +:+ bridge_artifact_name request_id).

(** A member [extractall] can write out. *)
Definition readable (m : zip_member) : bool :=
  match content m with
  | Content _ => true
  | OpenError | ReadError => false
  end.

(** [true] is the [return] inside the [try]; an archive with a member
    that cannot be read makes [extractall] raise part-way. *)
Definition download_bridge_artifact (config : Config) (request_id : string)
    (local_path : string) : M unit :=
  done <-
    Eff.try_except
      (data <- request_bytes (bridge_zip_url config request_id) ;;
       if nonempty data then
         match unzip env data with
         | None => Eff.raise BadZipFile
         | Some infolist =>
             Eff.modify (emit (EvExtract local_path data)) ;;
             if forallb readable infolist then Eff.ret true
             else Eff.raise BadZipFile
         end
       else Eff.ret false)
      [(Exc.ForgeError, fun _ => Eff.ret false)] ;;
  if done then Eff.ret tt else Eff.raise (not_found request_id).

(** [member.filename == "output.log" or
    member.filename.endswith("/output.log")]. *)
Definition is_output_log (m : zip_member) : bool :=
  String.eqb (filename m) "output.log"
  || (Nat.leb 11 (String.length (filename m))
      && String.eqb
           (Py.slice_from (Nat.sub (String.length (filename m)) 11)
              (filename m))
           "/output.log").

Definition fetch_bridge_output_log (config : Config) (request_id : string)
  : M (option string) :=
  Eff.try_except
    (data <- request_bytes (bridge_zip_url config request_id) ;;
     if nonempty data then
       match unzip env data with
       | None => Eff.raise BadZipFile
       | Some infolist =>
           match List.find is_output_log infolist with
           | None => Eff.ret None
           | Some member =>
               match content member with
               | Content bytes => Eff.ret (Some (decode env bytes))
               | OpenError | ReadError => Eff.raise BadZipFile
               end
           end
       end
     else Eff.ret None)
    [(Exc.ForgeError, fun _ => Eff.ret None)].

(** *** Notions for the properties *)

(** What [except ForgeError] does with an exception [e] of the guarded
    block: [caught] when it is a [ForgeError], [e] again otherwise. *)
Definition handled {A} (e : Exc.exn) (caught : Eff.outcome A)
  : Eff.outcome A :=
  if Exc.isinstance e Exc.ForgeError then caught else Eff.Raised e.

(** An exception of a request that no [except ForgeError] catches. *)
Definition uncaught (e : Exc.exn) : Prop :=
  Exc.isinstance e Exc.ForgeError = false
  /\ ((exists k, listing env k = ListingRaises e)
      \/ (exists k, download env k = BytesRaises e)).

(** How a poll for the log can fail: at its deadline or on an exception
    of a request with the disk as it was, or on an unreadable archive
    with the destination untouched or left empty. *)
Definition poll_failure (config : Config) (e : Exc.exn)
    (leftover : option (list byte)) : Prop :=
  (e = log_timed_out config /\ leftover = None)
  \/ (uncaught e /\ leftover = None)
  \/ (e = BadZipFile /\ (leftover = None \/ leftover = Some [])).

(** How either method can end: nothing found, the log written, an
    unreadable archive (with the destination untouched or left empty),
    or an exception of a request that is let through. *)
Definition step_end (cache_path : path) (before : gmap path (list byte))
    (o : Eff.outcome bool) (after : gmap path (list byte)) : Prop :=
  match o with
  | Eff.Ok false => after = before
  | Eff.Ok true => exists data, after = <[cache_path := data]> before
  | Eff.Raised e =>
      (e = BadZipFile
       /\ (after = before \/ after = <[cache_path := []]> before))
      \/ (uncaught e /\ after = before)
  | Eff.OutOfFuel => False
  end.

(** What the caller of [wait_for_log_artifact] may find changed: the log
    at its destination, an empty destination, or nothing. These are the
    answers [Forge.wait_for_log_artifact] is scripted with. *)
Definition delivers (reply : Forge.artifact_reply) (cache_path : path)
    (before : gmap path (list byte)) (outcome : Eff.outcome unit)
    (after : gmap path (list byte)) : Prop :=
  match reply with
  | Delivered data =>
      outcome = Eff.Ok tt /\ after = <[cache_path := data]> before
  | Failed e None => outcome = Eff.Raised e /\ after = before
  | Failed e (Some data) =>
      outcome = Eff.Raised e /\ after = <[cache_path := data]> before
  end.

End Env.

(** An environment with no artifact listed and the log on the [logs]
    branch, for examples. *)
Definition env_raw (data : list byte) : environment :=
  {| clock := fun _ => 1700000000%Q;
     listing := fun _ => Listing None;
     download := fun _ => Bytes data;
     unzip := fun _ => None;
     decode := fun _ => "" |}.

Definition w0 : world :=
  {| files := ∅; trace := []; n_clock := 0; n_list := 0; n_bytes := 0 |}.

End Artifact.

(** ** [job_cache.py]: the job cache as a file

    The state is [jobs.json] as [_load] reads it. [content] is [Some jobs]
    for a file that holds a JSON object of job records keyed by job id,
    in insertion order, and [None] for a file that is missing, that
    cannot be opened or read ([IOError]) or that is text but not a JSON
    document ([JSONDecodeError]): for these [_load] returns an empty
    dict. A file that is not UTF-8 text, or that holds a JSON document
    other than an object of job records, makes [_load] or its caller
    raise; it is no state of this model, and nothing below is about it.
    A write that fails is logged and otherwise ignored by [_save]. The
    k-th [datetime.now()] is scripted, as is the age in days, at that
    reading, of a [created_at] stamp ([None] when [fromisoformat] rejects
    the stamp). *)

From Stdlib Require Import Sorting.Sorted.

Module JobCache.
Import Forge.

Record environment := {
  now : nat -> string;                     (** [datetime.now().isoformat()] *)
  age_days : nat -> string -> option Z;    (** [(now - created).days] *)
}.

Record state := {
  content : option (Py.dict JobEntry);
  writable : bool;
  n_now : nat;
}.

(** [{}] when the file does not exist and on [JSONDecodeError] and
    [IOError]; what [json.load] gives otherwise. *)
Definition _load (s : state) : Py.dict JobEntry := default [] (content s).

Definition _save (jobs : Py.dict JobEntry) (s : state) : state :=
  if writable s then
    {| content := Some jobs; writable := writable s; n_now := n_now s |}
  else s.

(** The state after [k] readings of the clock. *)
Definition ticks (k : nat) (s : state) : state :=
  {| content := content s; writable := writable s;
     n_now := (n_now s + k)%nat |}.

Section Env.
Variable env : environment.

Definition add_job (job_id name resource command status : string)
    (log_path : option string) (s : state) : state :=
  let jobs := _load s in
  let entry :=
    {| j_name := name; j_resource := resource; j_command := command;
       j_created_at := now env (n_now s);
       j_status := status;
       j_updated_at := now env (S (n_now s));
       Forge.log_path := log_path;
       log_byte_offset := None;
       log_cached_at := None |} in
  _save (Py.set job_id entry jobs) (ticks 2 s).

Definition with_status (j : JobEntry) (status stamp : string) : JobEntry :=
  {| j_name := j_name j; j_resource := j_resource j;
     j_command := j_command j; j_created_at := j_created_at j;
     j_status := status; j_updated_at := stamp;
     Forge.log_path := Forge.log_path j;
     log_byte_offset := log_byte_offset j;
     log_cached_at := log_cached_at j |}.

Definition update_status (job_id status : string) (s : state) : state :=
  let jobs := _load s in
  match Py.get job_id jobs with
  | Some j =>
      _save (Py.set job_id (with_status j status (now env (n_now s))) jobs)
        (ticks 1 s)
  | None => s
  end.

Definition get_job (job_id : string) (s : state) : option JobEntry :=
  Py.get job_id (_load s).

(** [items.sort(key=created_at, reverse=True)]: the sort is stable, so an
    item goes before the items of the sorted rest that are not newer. *)
Fixpoint insert_desc (x : string * JobEntry) (l : list (string * JobEntry))
  : list (string * JobEntry) :=
  match l with
  | [] => [x]
  | y :: l' =>
      if String.ltb (j_created_at (snd x)) (j_created_at (snd y)) then
        y :: insert_desc x l'
      else x :: l
  end.

Definition sort_desc (l : list (string * JobEntry)) : list (string * JobEntry) :=
  fold_right insert_desc [] l.

Definition has_status (status : string) (item : string * JobEntry) : bool :=
  String.eqb (j_status (snd item)) status.

Definition not_excluded (exclude : list string) (item : string * JobEntry)
  : bool :=
  negb (existsb (String.eqb (j_status (snd item))) exclude).

(** The items that pass the two filters of [list_jobs]. *)
Definition selected (status : option string) (exclude_statuses : list string)
    (s : state) : list (string * JobEntry) :=
  let items := _load s in
  let items :=
    match status with
    | Some st =>
        if Py.str_truthy st then List.filter (has_status st) items else items
    | None => items
    end in
  match exclude_statuses with
  | [] => items
  | _ => List.filter (not_excluded exclude_statuses) items
  end.

Definition list_jobs (limit : option Z) (status : option string)
    (exclude_statuses : list string) (s : state)
  : list (string * JobEntry) :=
  let items := sort_desc (selected status exclude_statuses s) in
  match limit with
  | Some n => if 0 <? n then firstn (Z.to_nat n) items else items
  | None => items
  end.

Definition remove_job (job_id : string) (s : state) : state * bool :=
  let jobs := _load s in
  if Py.mem job_id jobs then (_save (Py.del job_id jobs) s, true)
  else (s, false).

Definition clear (s : state) : state := _save [] s.

(** [age_days > max_age_days], [False] for a stamp that does not parse. *)
Definition too_old (k : nat) (max_age_days : Z) (item : string * JobEntry)
  : bool :=
  match age_days env k (j_created_at (snd item)) with
  | Some age => max_age_days <? age
  | None => false
  end.

Definition prune (max_age_days : Z) (s : state) : state * Z :=
  let jobs := _load s in
  let k := n_now s in
  let to_remove := map fst (List.filter (too_old k max_age_days) jobs) in
  let jobs' := fold_left (fun d job_id => Py.del job_id d) to_remove jobs in
  let removed := Z.of_nat (length to_remove) in
  if 0 <? removed then (_save jobs' (ticks 1 s), removed)
  else (ticks 1 s, removed).

Definition get_log_offset (job_id : string) (s : state) : Z :=
  match Py.get job_id (_load s) with
  | Some j => default 0 (log_byte_offset j)
  | None => 0
  end.

Definition set_log_offset (job_id : string) (offset : Z) (s : state)
  : state :=
  let jobs := _load s in
  match Py.get job_id jobs with
  | Some j =>
      _save (Py.set job_id
               (Forge.with_offset j offset (Some (now env (n_now s)))) jobs)
        (ticks 1 s)
  | None => s
  end.

Definition reset_log_offset (job_id : string) (s : state) : state :=
  let jobs := _load s in
  match Py.get job_id jobs with
  | Some j => _save (Py.set job_id (Forge.with_offset j 0 None) jobs) s
  | None => s
  end.

End Env.

(** *** Notions for the properties *)

(** The order [list_jobs] promises: newest first. *)
Definition newer_first (a b : string * JobEntry) : Prop :=
  String.leb (j_created_at (snd b)) (j_created_at (snd a)) = true.

Definition created_at_is (stamp : string) (item : string * JobEntry)
  : bool :=
  String.eqb (j_created_at (snd item)) stamp.

(** A cache file whose object has no key twice, as every JSON object
    written by [json.dump] has. *)
Definition keys_unique (s : state) : Prop :=
  List.NoDup (Py.keys (_load s)).

(** An environment and a cache for examples. *)
Definition env_fixed : environment :=
  {| now := fun _ => "2026-01-02T00:00:00";
     age_days := fun _ _ => Some 0 |}.

Definition cache_one : state :=
  {| content := Some [("job-1", Forge.example_job (Some 3))];
     writable := true; n_now := 0 |}.

End JobCache.

(** * Properties *)

(** ** Dictionaries *)

Module PyFacts.

Section Dict.
Context {V : Type}.
Implicit Types (d : Py.dict V) (k : string) (v : V).

Lemma get_set_eq k v d : Py.get k (Py.set k v d) = Some v.
Proof.
  induction d as [|[k' v'] d IH]; simpl.
  - by rewrite String.eqb_refl.
  - destruct (String.eqb k k') eqn:E; simpl; rewrite E; [done | exact IH].
Qed.

Lemma get_set_ne k k' v d : k <> k' -> Py.get k' (Py.set k v d) = Py.get k' d.
Proof.
  intros Hne. induction d as [|[k0 v0] d IH]; simpl.
  - destruct (String.eqb k' k) eqn:E; [|done].
    apply String.eqb_eq in E. congruence.
  - destruct (String.eqb k k0) eqn:E; simpl.
    + apply String.eqb_eq in E. subst k0.
      destruct (String.eqb k' k) eqn:E'; [|done].
      apply String.eqb_eq in E'. congruence.
    + by rewrite IH.
Qed.

Lemma get_del_ne k k' d : k <> k' -> Py.get k' (Py.del k d) = Py.get k' d.
Proof.
  intros Hne. induction d as [|[k0 v0] d IH]; simpl; [done|].
  destruct (String.eqb k k0) eqn:E; simpl.
  - apply String.eqb_eq in E. subst k0.
    destruct (String.eqb k' k) eqn:E'; [|done].
    apply String.eqb_eq in E'. congruence.
  - by rewrite IH.
Qed.

Lemma set_not_nil k v d : Py.set k v d <> [].
Proof. destruct d as [|[k' v'] d]; simpl; [done|]. by destruct (String.eqb k k'). Qed.

Lemma get_Some_In k v d : Py.get k d = Some v -> In (k, v) d.
Proof.
  induction d as [|[k' v'] d IH]; simpl; [done|].
  destruct (String.eqb k k') eqn:E.
  - apply String.eqb_eq in E. intros [= ->]. left. by subst.
  - intros H. right. auto.
Qed.

Lemma get_Some_value k v d : Py.get k d = Some v -> In v (Py.values d).
Proof.
  intros H. apply get_Some_In in H. unfold Py.values.
  apply in_map_iff. by exists (k, v).
Qed.

Lemma get_Some_key k v d : Py.get k d = Some v -> In k (Py.keys d).
Proof.
  intros H. apply get_Some_In in H. unfold Py.keys.
  apply in_map_iff. by exists (k, v).
Qed.

Lemma keys_set k v d : forall x, In x (Py.keys (Py.set k v d)) -> x = k \/ In x (Py.keys d).
Proof.
  induction d as [|[k' v'] d IH]; simpl; intros x.
  - intros [<-|[]]. by left.
  - destruct (String.eqb k k') eqn:E; simpl.
    + intros [<-|H]; right; [by left | by right].
    + intros [<-|H]; [right; by left|].
      destruct (IH _ H); [by left | right; by right].
Qed.

Lemma keys_del k d : forall x, In x (Py.keys (Py.del k d)) -> In x (Py.keys d).
Proof.
  induction d as [|[k' v'] d IH]; simpl; intros x; [done|].
  destruct (String.eqb k k') eqn:E; simpl.
  - intros H. by right.
  - intros [<-|H]; [by left | right; auto].
Qed.

Lemma head_key_get d k : hd_error (Py.keys d) = Some k -> exists v, Py.get k d = Some v.
Proof.
  destruct d as [|[k' v'] d]; simpl; [done|].
  intros [= ->]. exists v'. by rewrite String.eqb_refl.
Qed.

End Dict.
End PyFacts.

(** ** The bridge profile store *)

Module TunnelSpec.
Import Tunnel.

Lemma empty_ok dir : store_ok (empty_config dir).
Proof. split; simpl; [done | discriminate]. Qed.

Lemma add_bridge_ok c p : store_ok c -> store_ok (add_bridge c p).
Proof.
  intros [Hn Hp]. split; simpl.
  - split.
    + by destruct (default_bridge c).
    + intros H. by apply PyFacts.set_not_nil in H.
  - intros d Hd. destruct (default_bridge c) as [d0|] eqn:E.
    + injection Hd as <-. destruct (Hp d0 eq_refl) as [p0 Hp0].
      destruct (String.eqb_spec (name p) d0) as [->|Hne].
      * exists p. apply PyFacts.get_set_eq.
      * exists p0. by rewrite PyFacts.get_set_ne.
    + injection Hd as <-. exists p. apply PyFacts.get_set_eq.
Qed.

Lemma remove_bridge_ok c n : store_ok c -> store_ok (fst (remove_bridge c n)).
Proof.
  intros [Hn Hp]. unfold remove_bridge, Py.mem.
  destruct (Py.get n (bridges c)) as [pn|] eqn:En; simpl; [|by split].
  unfold default_is.
  destruct (default_bridge c) as [d|] eqn:Ed.
  - destruct (String.eqb_spec d n) as [->|Hne]; split; simpl.
    + destruct (Py.del n (bridges c)) as [|[k v] l]; simpl; split; done.
    + intros d Hd. by apply PyFacts.head_key_get.
    + split; [done|]. intros Hnil.
      destruct (Hp d eq_refl) as [p0 Hp0].
      rewrite <- (PyFacts.get_del_ne n d) in Hp0 by done.
      by rewrite Hnil in Hp0.
    + intros d' [= <-]. destruct (Hp d eq_refl) as [p0 Hp0].
      exists p0. by rewrite PyFacts.get_del_ne.
  - destruct Hn as [Hn _]. rewrite (Hn eq_refl) in En. discriminate.
Qed.

Lemma run_ops_ok ops c : store_ok c -> store_ok (run_ops ops c).
Proof.
  revert c. induction ops as [|o ops IH]; intros c Hc; simpl; [done|].
  apply IH. destruct o; [by apply add_bridge_ok | by apply remove_bridge_ok].
Qed.

Lemma run_ops_named ops c :
  Forall adds_named ops -> keys_named c -> keys_named (run_ops ops c).
Proof.
  revert c. induction ops as [|o ops IH]; intros c Hops Hc; simpl; [done|].
  inversion Hops as [|? ? Ho Hops']; subst. apply IH; [done|].
  destruct o as [p|n]; simpl in *.
  - intros k Hk. apply PyFacts.keys_set in Hk as [->|Hk]; [done | by apply Hc].
  - unfold remove_bridge, Py.mem.
    destruct (Py.get n (bridges c)); simpl; [|done].
    intros k Hk. apply PyFacts.keys_del in Hk. by apply Hc.
Qed.

Lemma str_truthy_ne s : s <> "" -> Py.str_truthy s = true.
Proof. by destruct s. Qed.

(** C10 (amended). Starting from an empty [TunnelConfig], after any
    sequence of [add_bridge] and [remove_bridge] calls, [default_bridge] is
    [None] exactly when [bridges] is empty and otherwise names a profile
    present in [bridges]; and when every added profile has a non-empty
    name, [get_bridge(None)] returns a profile of the store whenever at
    least one bridge exists. *)
Theorem default_bridge_invariant (ops : list op) (dir : string) :
  let c := run_ops ops (empty_config dir) in
  (default_bridge c = None <-> bridges c = []) /\
  (forall d, default_bridge c = Some d ->
     exists p, Py.get d (bridges c) = Some p) /\
  (Forall adds_named ops -> bridges c <> [] ->
     exists p, get_bridge c None = Some p /\ In p (list_bridges c)).
Proof.
  intros c.
  destruct (run_ops_ok ops (empty_config dir) (empty_ok dir)) as [Hn Hp].
  fold c in Hn, Hp. split; [done|]. split; [done|].
  intros Hops Hne.
  assert (Hk : keys_named c) by (apply run_ops_named; [done | intros k []]).
  destruct (default_bridge c) as [d|] eqn:Ed.
  - destruct (Hp d eq_refl) as [p Hget]. exists p.
    split; [|by eapply PyFacts.get_Some_value].
    unfold get_bridge. simpl. rewrite Ed. simpl.
    rewrite str_truthy_ne; [done|].
    apply Hk. by eapply PyFacts.get_Some_key.
  - destruct Hn as [Hn _]. by specialize (Hn eq_refl).
Qed.

Lemma default_bridge_invariant_witness :
  let ops := [AddBridge (prof "a"); AddBridge (prof "b"); RemoveBridge "a"] in
  exists p, get_bridge (run_ops ops (empty_config "")) None = Some p
            /\ In p (list_bridges (run_ops ops (empty_config ""))).
Proof.
  intros ops.
  apply (default_bridge_invariant ops "").
  - repeat constructor; simpl; discriminate.
  - simpl. discriminate.
Defined.

(** C10 as stated fails for a profile whose name is the empty string:
    [add_bridge] stores [''] as the default ([is None] test), and
    [get_bridge] then treats it as no default (truthiness test). *)
Lemma get_bridge_unnamed_default :
  let c := run_ops [AddBridge (prof ""); AddBridge (prof "a")] (empty_config "") in
  ~ (bridges c <> [] -> exists p, get_bridge c None = Some p).
Proof.
  intros c H. destruct H as [p Hp]; [discriminate|]. vm_compute in Hp. discriminate.
Qed.

End TunnelSpec.

(** ** The ProxyCommand *)

Module ProxySpec.
Import Tunnel.

Lemma prefix_cons c p c' s :
  String.prefix (String c p) (String c' s) =
  if Ascii.eqb c c' then String.prefix p s else false.
Proof.
  simpl. destruct (ascii_dec c c') as [->|Hne].
  - by rewrite Ascii.eqb_refl.
  - by destruct (Ascii.eqb_spec c c').
Qed.

Lemma prefix_app (p r : string) : String.prefix p (p +:+ r) = true.
Proof.
  induction p as [|c p IH]; [by destruct r|].
  change (String c p +:+ r) with (String c (p +:+ r)).
  by rewrite prefix_cons, Ascii.eqb_refl.
Qed.

Lemma ws_url_https rest : ws_url ("https://" +:+ rest) = "wss://" +:+ rest.
Proof. unfold ws_url. by rewrite prefix_app. Qed.

Lemma ws_url_http rest : ws_url ("http://" +:+ rest) = "ws://" +:+ rest.
Proof.
  unfold ws_url. rewrite (prefix_app "http://" rest).
  change ("http://" +:+ rest)
    with (String "h" (String "t" (String "t" (String "p" (":" +:+ "//" +:+ rest))))).
  by rewrite !prefix_cons.
Qed.

Lemma ws_url_other u :
  String.prefix "https://" u = false -> String.prefix "http://" u = false ->
  ws_url u = u.
Proof. intros H1 H2. unfold ws_url. by rewrite H1, H2. Qed.

Lemma append_assoc (a b c : string) : (a +:+ b) +:+ c = a +:+ (b +:+ c).
Proof.
  induction a as [|x a IH]; [done|].
  change ((String x a +:+ b) +:+ c) with (String x ((a +:+ b) +:+ c)).
  change (String x a +:+ b +:+ c) with (String x (a +:+ b +:+ c)).
  by rewrite IH.
Qed.

Lemma forallb_app f a b :
  str_forallb f (a +:+ b) = str_forallb f a && str_forallb f b.
Proof.
  induction a as [|c a IH]; [done|].
  change (String c a +:+ b) with (String c (a +:+ b)). simpl.
  by rewrite IH, andb_assoc.
Qed.

Lemma replace_squote_id s : str_forallb no_squote s = true -> replace_squote s = s.
Proof.
  induction s as [|c s IH]; [done|]. simpl. unfold no_squote at 1.
  destruct (Ascii.eqb c squote); simpl; [done|]. intros H. by rewrite IH.
Qed.

Lemma safe_no_squote c : shlex_safe_char c = true -> no_squote c = true.
Proof.
  unfold no_squote. destruct (Ascii.eqb_spec c squote) as [->|]; [|done].
  vm_compute. done.
Qed.

Lemma forallb_impl (f g : ascii -> bool) s :
  (forall c, f c = true -> g c = true) ->
  str_forallb f s = true -> str_forallb g s = true.
Proof.
  intros Hfg. induction s as [|c s IH]; [done|]. simpl.
  intros [Hc Hs]%andb_prop. by rewrite (Hfg c Hc), IH.
Qed.

Lemma shlex_quote_safe s :
  s <> "" -> str_forallb shlex_safe_char s = true -> shlex_quote s = s.
Proof.
  intros Hne Hs. unfold shlex_quote. destruct s; [done|]. simpl (negb _).
  cbv iota. by rewrite Hs.
Qed.

Lemma forallb_app_false f a c b :
  f c = false -> str_forallb f (a +:+ String c b) = false.
Proof.
  intros Hc. rewrite forallb_app. simpl. rewrite Hc. by rewrite andb_false_r.
Qed.

Lemma app_truthy a c b : Py.str_truthy (a +:+ String c b) = true.
Proof. by destruct a. Qed.

(** Quoting of a command line: it holds a space, so it is wrapped. *)
Lemma shlex_quote_spaced a b :
  shlex_quote (a +:+ " " +:+ b) =
  String squote (replace_squote (a +:+ " " +:+ b) +:+ String squote EmptyString).
Proof.
  unfold shlex_quote.
  change (a +:+ " " +:+ b) with (a +:+ String " " b).
  rewrite app_truthy. simpl (negb true). cbv iota.
  by rewrite (forallb_app_false shlex_safe_char a " " b eq_refl).
Qed.

(** C8. [_get_proxy_command] rewrites a leading [https://] to [wss://]
    and a leading [http://] to [ws://] and leaves any other URL unchanged;
    without [quiet] the command is the helper binary, the websocket URL and
    [stdio://%h:%p], each passed through [shlex.quote]; with [quiet] that
    command line followed by [2>/dev/null] is the quoted argument of
    [sh -c]. For a binary path and URL made of shell-safe characters the
    commands are literally [<bin> <ws-url> stdio://%h:%p] and
    [sh -c '<bin> <ws-url> stdio://%h:%p 2>/dev/null']. *)
Theorem proxy_command_shape (bridge : BridgeProfile) (rtunnel_bin : string) :
  let ws := ws_url (proxy_url bridge) in
  (forall rest, proxy_url bridge = "https://" +:+ rest -> ws = "wss://" +:+ rest)
  /\ (forall rest, proxy_url bridge = "http://" +:+ rest -> ws = "ws://" +:+ rest)
  /\ (String.prefix "https://" (proxy_url bridge) = false ->
      String.prefix "http://" (proxy_url bridge) = false ->
      ws = proxy_url bridge)
  /\ _get_proxy_command bridge rtunnel_bin false =
       shlex_quote rtunnel_bin +:+ " " +:+ shlex_quote ws +:+ " stdio://%h:%p"
  /\ _get_proxy_command bridge rtunnel_bin true =
       "sh -c " +:+
       shlex_quote (rtunnel_bin +:+ " " +:+ shlex_quote ws
                      +:+ " stdio://%h:%p 2>/dev/null")
  /\ (rtunnel_bin <> "" -> ws <> "" ->
      str_forallb shlex_safe_char rtunnel_bin = true ->
      str_forallb shlex_safe_char ws = true ->
      _get_proxy_command bridge rtunnel_bin false =
        rtunnel_bin +:+ " " +:+ ws +:+ " stdio://%h:%p"
      /\ _get_proxy_command bridge rtunnel_bin true =
        "sh -c '" +:+ rtunnel_bin +:+ " " +:+ ws
          +:+ " stdio://%h:%p 2>/dev/null'").
Proof.
  intros ws. subst ws.
  split; [intros rest ->; apply ws_url_https|].
  split; [intros rest ->; apply ws_url_http|].
  split; [apply ws_url_other|].
  split; [reflexivity|]. split; [reflexivity|].
  intros Hb Hw Sb Sw. unfold _get_proxy_command.
  rewrite !(shlex_quote_safe _ Hw Sw), (shlex_quote_safe _ Hb Sb).
  split; [reflexivity|].
  rewrite shlex_quote_spaced, replace_squote_id.
  - set (w := ws_url (proxy_url bridge)). clearbody w.
    change ("sh -c '" +:+ rtunnel_bin +:+ " " +:+ w +:+ " stdio://%h:%p 2>/dev/null'")
      with ("sh -c " +:+ String squote (rtunnel_bin +:+ " " +:+ w +:+ " stdio://%h:%p 2>/dev/null'")).
    f_equal. f_equal.
    rewrite !append_assoc. reflexivity.
  - rewrite !forallb_app.
    rewrite (forallb_impl _ _ _ safe_no_squote Sb).
    rewrite (forallb_impl _ _ _ safe_no_squote Sw). reflexivity.
Qed.
Lemma proxy_command_shape_witness :
  _get_proxy_command example_bridge "/home/u/.local/bin/rtunnel" false =
    "/home/u/.local/bin/rtunnel wss://proxy.example.com/tunnel stdio://%h:%p"
  /\ _get_proxy_command example_bridge "/home/u/.local/bin/rtunnel" true =
    "sh -c '/home/u/.local/bin/rtunnel wss://proxy.example.com/tunnel stdio://%h:%p 2>/dev/null'".
Proof.
  apply (proxy_command_shape example_bridge "/home/u/.local/bin/rtunnel");
    [discriminate | discriminate | reflexivity | reflexivity].
Defined.

End ProxySpec.

(** ** The retry policy of [request_json] *)

Module HttpSpec.
Import Http.

Section Client.
Variable json_loads : string -> option Py.json.
Variable str_json : Py.json -> string.
Variable script : nat -> reply.

Abbreviation request_json := (request_json json_loads str_json script).
Abbreviation request_json_loop := (request_json_loop json_loads str_json script).

Lemma attempts_eq : seqZ 0 (max_retries + 1) = [0; 1; 2; 3].
Proof. reflexivity. Qed.

(** One step of the loop, by the reply it meets. *)
Lemma loop_step method url data attempt rest w :
  request_json_loop method url data (attempt :: rest) w =
  let w' := {| trace := trace w ++ [EvUrlopen method url data];
               calls := S (calls w) |} in
  match script (calls w) with
  | Success payload =>
      if negb (Py.str_truthy payload) then (Eff.Ok (Py.JDict []), w')
      else
        match json_loads payload with
        | Some v => (Eff.Ok v, w')
        | None => (Eff.Raised (Exc.Exn Exc.ValueError "JSONDecodeError"), w')
        end
  | HTTPError code raw =>
      if (500 <=? code) && (attempt <? max_retries) then
        request_json_loop method url data rest
          {| trace := trace w' ++ [EvSleep retry_delay]; calls := calls w' |}
      else
        (Eff.Raised (Exc.Exn Exc.ForgeError
           (api_error_msg str_json code url (error_detail json_loads raw))), w')
  | URLError reason =>
      if attempt <? max_retries then
        request_json_loop method url data rest
          {| trace := trace w' ++ [EvSleep retry_delay]; calls := calls w' |}
      else
        (Eff.Raised (Exc.Exn Exc.ForgeError
           ("API request failed for " +:+ url +:+ ": "
              +:+ str_URLError reason)), w')
  | Other e => (Eff.Raised e, w')
  end.
Proof.
  cbn [Http.request_json_loop]. unfold Eff.bind, urlopen, Eff.get_state, Eff.modify, Eff.ret at 1.
  cbn [Eff.bind fst snd].
  destruct (script (calls w)) as [payload|code raw|reason|e]; cbn.
  - destruct (Py.str_truthy payload); cbn; [|done].
    by destruct (json_loads payload).
  - by destruct ((500 <=? code) && (attempt <? max_retries)).
  - by destruct (attempt <? max_retries).
  - done.
Qed.


Lemma seqZ_cons_nat a n : seqZ a (Z.of_nat (S n)) = a :: seqZ (a + 1) (Z.of_nat n).
Proof. rewrite Nat2Z.inj_succ. rewrite seqZ_cons by lia. f_equal. f_equal; lia. Qed.

(** While the budget lasts, a run of 5xx replies is retried one by one. *)
Lemma loop_retries method url data (k : nat) : forall (a : Z) (n : nat) w,
  0 <= a -> a + Z.of_nat k <= max_retries ->
  (forall j, (j < k)%nat -> is_server_error (script (calls w + j)%nat)) ->
  request_json_loop method url data (seqZ a (Z.of_nat (k + n))) w =
  request_json_loop method url data (seqZ (a + Z.of_nat k) (Z.of_nat n))
    {| trace := trace w ++ retry_events method url data k;
       calls := (calls w + k)%nat |}.
Proof.
  induction k as [|k IH]; intros a n w Ha Hk Hs.
  - simpl. rewrite Z.add_0_r, app_nil_r, Nat.add_0_r. by destruct w.
  - change (S k + n)%nat with (S (k + n)). rewrite seqZ_cons_nat, loop_step.
    pose proof (Hs 0%nat ltac:(lia)) as H0. rewrite Nat.add_0_r in H0.
    destruct (script (calls w)) as [|code raw| |]; try done. simpl in H0.
    cbv zeta.
    replace ((500 <=? code) && (a <? max_retries)) with true
      by (symmetry; apply andb_true_iff; split; [apply Z.leb_le | apply Z.ltb_lt]; lia).
    rewrite IH; cbn [trace calls]; [|lia|lia|].
    + f_equal; [f_equal; lia|].
      f_equal; [|lia]. rewrite <- !app_assoc. reflexivity.
    + intros j Hj. specialize (Hs (S j) ltac:(lia)).
      by replace (S (calls w) + j)%nat with (calls w + S j)%nat by lia.
Qed.

(** C7 (amended). [request_json] raises [ForgeError] at once, without
    retry or pause, for an HTTP error response whose status code is below
    500, whatever its body; for status codes of 500 and above it retries up
    to 3 additional attempts, pausing a fixed 2 seconds before each, and
    raises [ForgeError] when the fourth attempt fails as well; a successful
    response is returned as decoded, whatever its JSON body carries. *)
Theorem request_json_retry_policy method url data w :
  let attempt := EvUrlopen method url data in
  (forall code raw,
     script (calls w) = HTTPError code raw -> code < 500 ->
     request_json method url data w =
       (Eff.Raised (Exc.Exn Exc.ForgeError
          (api_error_msg str_json code url (error_detail json_loads raw))),
        {| trace := trace w ++ [attempt]; calls := S (calls w) |}))
  /\ ((forall j, (j < 4)%nat -> is_server_error (script (calls w + j)%nat)) ->
      exists msg,
        request_json method url data w =
          (Eff.Raised (Exc.Exn Exc.ForgeError msg),
           {| trace := trace w ++ [attempt; EvSleep 2; attempt; EvSleep 2;
                                   attempt; EvSleep 2; attempt];
              calls := (calls w + 4)%nat |}))
  /\ (forall (k : nat) payload v,
        (k <= 3)%nat ->
        (forall j, (j < k)%nat -> is_server_error (script (calls w + j)%nat)) ->
        script (calls w + k)%nat = Success payload ->
        payload <> "" -> json_loads payload = Some v ->
        request_json method url data w =
          (Eff.Ok v,
           {| trace := trace w ++ retry_events method url data k ++ [attempt];
              calls := S (calls w + k) |})).
Proof.
  intros attempt. unfold Http.request_json. rewrite attempts_eq.
  split; [|split].
  - intros code raw Hr Hc. rewrite loop_step, Hr. cbv zeta.
    replace (500 <=? code) with false by (symmetry; apply Z.leb_gt; lia).
    reflexivity.
  - intros Hs.
    pose proof (loop_retries method url data 3 0 1 w ltac:(lia) ltac:(unfold max_retries; lia)
                  ltac:(intros j Hj; apply Hs; lia)) as H.
    change (seqZ 0 (Z.of_nat (3 + 1))) with [0; 1; 2; 3] in H.
    change (seqZ (0 + Z.of_nat 3) (Z.of_nat 1)) with [3] in H.
    rewrite H, loop_step. cbn [calls trace].
    specialize (Hs 3%nat ltac:(lia)).
    destruct (script (calls w + 3)%nat) as [|code raw| |]; try done.
    cbv zeta. change (3 <? max_retries) with false. rewrite andb_false_r.
    eexists. f_equal. f_equal; [|lia].
    rewrite <- app_assoc. reflexivity.
  - intros k payload v Hk Hs Hp Hne Hv.
    pose proof (loop_retries method url data k 0 (4 - k) w ltac:(lia)
                  ltac:(unfold max_retries; lia) Hs) as H.
    replace (k + (4 - k))%nat with 4%nat in H by lia.
    change (seqZ 0 (Z.of_nat 4)) with [0; 1; 2; 3] in H. rewrite H.
    destruct (4 - k)%nat as [|m] eqn:E; [lia|].
    rewrite seqZ_cons_nat, loop_step. cbn [calls trace]. rewrite Hp. cbv zeta.
    destruct payload; [done|]. cbn [Py.str_truthy negb]. rewrite Hv.
    by rewrite <- app_assoc.
Qed.

End Client.
Lemma request_json_retry_policy_witness :
  request_json toy_loads toy_str (fun _ => HTTPError 404 None)
    "GET" "https://forge.example/api" None w0 =
  (Eff.Raised (Exc.Exn Exc.ForgeError "API error 404 for https://forge.example/api"),
   {| trace := [EvUrlopen "GET" "https://forge.example/api" None];
      calls := 1 |}).
Proof.
  apply (proj1 (request_json_retry_policy toy_loads toy_str
                  (fun _ => HTTPError 404 None)
                  "GET" "https://forge.example/api" None w0) 404 None);
    [reflexivity | lia].
Defined.

(** C7 as stated fails: a response whose JSON body carries a non-zero
    application error code is not turned into a [ForgeError]; with status
    200 the body is returned to the caller. *)
Lemma error_code_body_is_returned :
  ~ (forall json_loads str_json script method url data w payload v,
       script (calls w) = Success payload ->
       json_loads payload = Some v ->
       carries_error_code v ->
       exists msg w',
         request_json json_loads str_json script method url data w =
           (Eff.Raised (Exc.Exn Exc.ForgeError msg), w')).
Proof.
  intros H.
  destruct (H toy_loads toy_str (fun _ => Success error_text)
              "GET" "https://forge.example/api" None w0 error_text error_body
              eq_refl eq_refl) as (msg & w' & Hr).
  - exists [("code", Py.JInt 1)], 1. repeat split; done.
  - vm_compute in Hr. discriminate.
Qed.

End HttpSpec.

(** ** The transport router of [bridge exec] *)

Module BridgeSpec.
Import Bridge.

Section Env.
Variable env : environment.
Variable config : Config.

Lemma select_hit {S A} (k : Exc.cls) (h : Exc.exn -> Eff.M S A) rest e :
  Exc.isinstance e k = true -> Eff.select ((k, h) :: rest) e = Some (h e).
Proof. intros H. simpl. by rewrite H. Qed.

Lemma select_miss {S A} (k : Exc.cls) (h : Exc.exn -> Eff.M S A) rest e :
  Exc.isinstance e k = false -> Eff.select ((k, h) :: rest) e = Eff.select rest e.
Proof. intros H. simpl. by rewrite H. Qed.

Ltac run :=
  unfold mediated_path, direct_attempt, trigger_bridge_action_workflow,
    wait_for_bridge_action_completion, fetch_bridge_output_log,
    download_bridge_artifact, is_tunnel_available, run_ssh_command, call,
    Eff.try_except, Eff.bind, Eff.sys_exit, Eff.raise, Eff.ret;
  cbn [Eff.select fst snd].

Ltac settle :=
  eexists; split; [rewrite <- ?app_assoc; simpl; reflexivity | reflexivity].

(** The mediated path dispatches the workflow first and exactly once. *)
Lemma mediated_path_trace command denylist artifact_path download wait timeout tr :
  exists raw_command request_id merged rest,
    snd (mediated_path env config command denylist artifact_path download
           wait timeout tr)
    = tr ++ EvTrigger raw_command artifact_path request_id merged :: rest
    /\ forallb is_followup rest = true.
Proof.
  do 3 eexists. run.
  destruct (trigger_result env) as [[]|e1].
  2:{ destruct (Exc.isinstance e1 Exc.GiteaError), (Exc.isinstance e1 Exc.GiteaAuthError); settle. }
  destruct wait; cbn [negb]; [|settle].
  destruct (wait_result env) as [res|e2].
  2:{ destruct (Exc.isinstance e2 Exc.TimeoutError), (Exc.isinstance e2 Exc.GiteaError); settle. }
  destruct (output_log_result env) as [out|e3].
  2:{ destruct (Exc.isinstance e3 Exc.GiteaError); [|settle].
      destruct (Py.scalar_eqb (conclusion res) (Py.SStr "success")); cbn [negb]; [|settle].
      destruct download as [dir|]; [|settle].
      destruct (Py.str_truthy dir); [|settle].
      destruct (download_result env) as [[]|e4]; [settle|].
      destruct (Exc.isinstance e4 Exc.GiteaError); settle. }
  destruct (Py.scalar_eqb (conclusion res) (Py.SStr "success")); cbn [negb]; [|settle].
  destruct download as [dir|]; [|settle].
  destruct (Py.str_truthy dir); [|settle].
  destruct (download_result env) as [[]|e4]; [settle|].
  destruct (Exc.isinstance e4 Exc.GiteaError); settle.
Qed.

(** A failed direct attempt is absorbed: one probe, at most one command,
    and control falls through to the mediated path. *)
Lemma direct_attempt_fails command timeout tr :
  direct_fails env ->
  exists direct,
    direct_attempt env config command timeout tr = (Eff.Ok tt, tr ++ direct)
    /\ (direct = [EvProbe] \/ exists c t, direct = [EvProbe; EvSsh c t]).
Proof.
  intros [H|[(e & H & He)|(H & e & Hs & He)]]; run; rewrite H.
  - exists [EvProbe]. split; [reflexivity | by left].
  - exists [EvProbe]. split; [|by left].
    rewrite He. by destruct (Exc.isinstance e Exc.TunnelNotAvailableError).
  - rewrite Hs. eexists. split; [|right; by do 2 eexists].
    rewrite He. destruct (Exc.isinstance e Exc.TunnelNotAvailableError);
      by rewrite <- app_assoc.
Qed.

(** C6. In [bridge exec], when the direct SSH path is unavailable or fails
    (the probe returns false, or raises [TunnelNotAvailableError] or any
    other [Exception], or the SSH execution raises one), the workflow is
    dispatched exactly once and neither the probe nor the SSH execution is
    repeated; and when an artifact path or a download directory is
    requested, no probe and no SSH execution happens at all and the
    workflow is dispatched exactly once. *)
Theorem exec_fallback_once command denylist artifact_path download wait
    timeout no_tunnel :
  let tr := snd (exec_command env config command denylist artifact_path
                   download wait timeout no_tunnel []) in
  (no_tunnel = false -> artifact_path = [] -> requested download = false ->
   direct_fails env ->
   exists direct raw_command request_id merged rest,
     tr = direct ++ EvTrigger raw_command artifact_path request_id merged :: rest
     /\ (direct = [EvProbe] \/ exists c t, direct = [EvProbe; EvSsh c t])
     /\ forallb is_followup rest = true)
  /\ (artifact_path <> [] \/ requested download = true ->
      exists raw_command request_id merged rest,
        tr = EvTrigger raw_command artifact_path request_id merged :: rest
        /\ forallb is_followup rest = true).
Proof.
  intros tr. subst tr. unfold exec_command. split.
  - intros -> -> Hd Hf. rewrite Hd. cbn [negb andb].
    destruct (direct_attempt_fails command timeout [] Hf) as (direct & Hrun & Hshape).
    unfold Eff.bind at 1. rewrite Hrun. cbn [app].
    destruct (mediated_path_trace command denylist [] download wait timeout direct)
      as (raw & rid & dl & rest & Ht & Hr).
    exists direct, raw, rid, dl, rest. by rewrite Ht.
  - intros Hreq.
    assert (negb no_tunnel
            && negb (match artifact_path with [] => false | _ => true end)
            && negb (requested download) = false) as ->.
    { destruct Hreq as [Ha|Hd].
      - destruct artifact_path; [done|]. cbn. by rewrite andb_false_r.
      - rewrite Hd. apply andb_false_r. }
    unfold Eff.bind at 1, Eff.ret at 1.
    destruct (mediated_path_trace command denylist artifact_path download wait timeout [])
      as (raw & rid & dl & rest & Ht & Hr).
    exists raw, rid, dl, rest. by rewrite Ht.
Qed.

End Env.
Lemma exec_fallback_once_witness :
  exists direct raw_command request_id merged rest,
    snd (exec_command env_down example_config "ls" [] [] None true None false [])
    = direct ++ EvTrigger raw_command [] request_id merged :: rest
    /\ (direct = [EvProbe] \/ exists c t, direct = [EvProbe; EvSsh c t])
    /\ forallb is_followup rest = true.
Proof.
  apply (proj1 (exec_fallback_once env_down example_config "ls" [] [] None
                  true None false));
    [reflexivity | reflexivity | reflexivity |].
  right. left. eexists. split; reflexivity.
Defined.

(** The scenario of the specification, run: the probe raises
    [TunnelNotAvailableError], the workflow is dispatched once, and the
    command ends with status 0. *)
Example exec_tunnel_down_trace :
  exec_command env_down example_config "ls" [] [] None true None false [] =
  (Eff.Raised (Exc.Exit EXIT_SUCCESS),
   [EvProbe;
    EvTrigger "ls" [] "1700000000-4242" [];
    EvWait "1700000000-4242" 300;
    EvFetchOutput "1700000000-4242"]).
Proof. vm_compute. reflexivity. Qed.

(** A command that runs over SSH and fails is not sent to the workflow:
    [sys.exit] is not an [Exception]. *)
Example exec_ssh_nonzero_exit :
  exec_command env_up_failing example_config "false" [] [] None true None false [] =
  (Eff.Raised (Exc.Exit EXIT_GENERAL_ERROR),
   [EvProbe; EvSsh ("cd " +:+ Py.dq +:+ "/shared/work" +:+ Py.dq +:+ " && false") 300]).
Proof. vm_compute. reflexivity. Qed.

End BridgeSpec.

(** ** Log retrieval over the mediated transport *)

Module LogSpec.
Import Forge.

Section Env.
Variable env : environment.
Variable config : Config.

Local Abbreviation log_dispatch := (Forge.log_dispatch config).
Local Abbreviation request_id_at := (Forge.request_id_at env).
Local Abbreviation after_fetch := (Forge.after_fetch env config).
Local Abbreviation kept := (Forge.kept env).
Local Abbreviation after_full_fetch := (Forge.after_full_fetch env config).
Local Abbreviation full_branch := (Forge.full_branch env config).
Local Abbreviation after_full_branch := (Forge.after_full_branch env config).
Local Abbreviation store_offset := (Forge.store_offset env).
Local Abbreviation cache_writable := (Forge.cache_writable env).

Ltac proj :=
  cbn [n_api n_clock n_artifact n_save tick_save files jobs trace tick_clock tick_api
       tick_artifact with_event with_files with_jobs fst snd].

Lemma new_request_id_eq w :
  new_request_id env w = (Eff.Ok (request_id_at w), tick_clock w).
Proof. reflexivity. Qed.

Lemma trigger_log_eq job_id remote_log_path request_id start_offset w r :
  api env (n_api w) = ApiOk r ->
  trigger_log_retrieval_workflow env config job_id remote_log_path request_id
    start_offset w =
  (Eff.Ok tt,
   tick_api (with_event
               (log_dispatch job_id remote_log_path request_id start_offset) w)).
Proof.
  intros Hapi.
  unfold trigger_log_retrieval_workflow, trigger_workflow_dispatch,
    Eff.try_except, Eff.bind, request_json.
  rewrite Hapi. reflexivity.
Qed.

Lemma wait_delivered_eq job_id request_id dest w data :
  artifact env (n_artifact w) = Delivered data ->
  wait_for_log_artifact env config job_id request_id dest w =
  (Eff.Ok tt,
   with_files (<[dest := data]> (files w))
     (tick_artifact (with_event (EvWaitArtifact job_id request_id dest) w))).
Proof. intros Hart. unfold wait_for_log_artifact. rewrite Hart. reflexivity. Qed.

Lemma prune_eq dir days w :
  _prune_old_logs env dir days w =
  (Eff.Ok tt,
   with_event (EvPrune dir)
     (with_files (filter (kept dir) (files w)) (tick_clock w))).
Proof. reflexivity. Qed.

Lemma bind_ok {S A B} (m : Eff.M S A) (k : A -> Eff.M S B) w a w' :
  m w = (Eff.Ok a, w') -> Eff.bind m k w = k a w'.
Proof. intros H. unfold Eff.bind. by rewrite H. Qed.

Lemma try_ok {S A} (m : Eff.M S A) clauses w a w' :
  m w = (Eff.Ok a, w') -> Eff.try_except m clauses w = (Eff.Ok a, w').
Proof. intros H. unfold Eff.try_except. by rewrite H. Qed.

Lemma path_exists_eq p w :
  path_exists p w = (Eff.Ok (bool_decide (is_Some (files w !! p))), w).
Proof. reflexivity. Qed.

Lemma world_eq f j t c a r s w :
  files w = f -> jobs w = j -> trace w = t -> n_clock w = c ->
  n_api w = a -> n_artifact w = r -> n_save w = s ->
  w = {| files := f; jobs := j; trace := t; n_clock := c; n_api := a;
         n_artifact := r; n_save := s |}.
Proof. destruct w. cbn. by intros -> -> -> -> -> -> ->. Qed.

Lemma try_finally_ok {S A} (m : Eff.M S A) (fin : Eff.M S unit) w a w1 w2 :
  m w = (Eff.Ok a, w1) -> fin w1 = (Eff.Ok tt, w2) ->
  Eff.try_finally m fin w = (Eff.Ok a, w2).
Proof. intros H1 H2. unfold Eff.try_finally. by rewrite H1, H2. Qed.

Lemma ret_eq {S A} (a : A) (w : S) : Eff.ret a w = (Eff.Ok a, w).
Proof. reflexivity. Qed.

Lemma stat_size_eq p w data :
  files w !! p = Some data ->
  stat_size p w = (Eff.Ok (Z.of_nat (length data)), w).
Proof. intros H. unfold stat_size. by rewrite H. Qed.

Lemma read_bytes_eq p w data :
  files w !! p = Some data -> read_bytes p w = (Eff.Ok data, w).
Proof. intros H. unfold read_bytes. by rewrite H. Qed.

Lemma append_bytes_eq p data w :
  append_bytes p data w =
  (Eff.Ok tt, with_files (<[p := default [] (files w !! p) ++ data]> (files w)) w).
Proof. reflexivity. Qed.

Lemma replace_eq src dst w data :
  files w !! src = Some data ->
  replace src dst w =
  (Eff.Ok tt, with_files (<[dst := data]> (delete src (files w))) w).
Proof. intros H. unfold replace. by rewrite H. Qed.

Lemma unlink_eq p w data :
  files w !! p = Some data ->
  unlink p w = (Eff.Ok tt, with_files (delete p (files w)) w).
Proof. intros H. unfold unlink. by rewrite H. Qed.

Lemma exists_none (p : path) w :
  files w !! p = None -> bool_decide (is_Some (files w !! p)) = false.
Proof. intros ->. by apply bool_decide_eq_false_2; intros [? ?]. Qed.

Lemma exists_some (p : path) w data :
  files w !! p = Some data -> bool_decide (is_Some (files w !! p)) = true.
Proof. intros ->. by apply bool_decide_eq_true_2. Qed.

Lemma ltb_pos z : 0 < z -> (0 <? z) = true.
Proof. intros. by apply Z.ltb_lt. Qed.

Lemma ltb_nonpos z : z <= 0 -> (0 <? z) = false.
Proof. intros. by apply Z.ltb_ge. Qed.

Lemma cleanup_present temp w data :
  files w !! temp = Some data ->
  cleanup temp w = (Eff.Ok tt, with_files (delete temp (files w)) w).
Proof.
  intros H. unfold cleanup.
  rewrite (bind_ok _ _ _ _ _ (path_exists_eq _ _)), (exists_some _ _ _ H).
  apply try_ok. by apply (unlink_eq _ _ data).
Qed.

Lemma cleanup_absent temp w :
  files w !! temp = None -> cleanup temp w = (Eff.Ok tt, w).
Proof.
  intros H. unfold cleanup.
  by rewrite (bind_ok _ _ _ _ _ (path_exists_eq _ _)), (exists_none _ _ H).
Qed.

(** C9. With [refresh=False] and the cache file present,
    [fetch_remote_log_via_bridge] returns the cache path at once and leaves
    the whole state as it was: no workflow is dispatched, no artifact is
    polled for, nothing is pruned and no file is touched, whatever the age
    of the cached copy and whatever the remote log holds by now. *)
Theorem cached_log_served_as_is job_id remote_log_path cache_path w :
  is_Some (files w !! cache_path) ->
  fetch_remote_log_via_bridge env config job_id remote_log_path cache_path
    false w = (Eff.Ok cache_path, w).
Proof.
  intros [data H]. unfold fetch_remote_log_via_bridge.
  by rewrite (bind_ok _ _ _ _ _ (path_exists_eq _ _)), (exists_some _ _ _ H).
Qed.

Lemma incremental_run job_id remote_log_path cache_path start_offset w r delta :
  api env (n_api w) = ApiOk r ->
  artifact env (n_artifact w) = Delivered delta ->
  cache_path <> temp_path_of env cache_path job_id ->
  fetch_remote_log_incremental env config job_id remote_log_path cache_path
    start_offset w =
  (Eff.Ok (cache_path, Z.of_nat (length delta)),
   after_fetch job_id remote_log_path cache_path start_offset w
     (match delta with
      | [] => delete (temp_path_of env cache_path job_id) (files w)
      | _ =>
          match files w !! cache_path with
          | Some old =>
              if 0 <? start_offset then
                <[cache_path := old ++ delta]>
                  (delete (temp_path_of env cache_path job_id) (files w))
              else
                <[cache_path := delta]>
                  (delete (temp_path_of env cache_path job_id) (files w))
          | None =>
              <[cache_path := delta]>
                (delete (temp_path_of env cache_path job_id) (files w))
          end
      end)).
Proof.
  intros Hapi Hart Hne.
  unfold fetch_remote_log_incremental.
  set (temp := temp_path_of env cache_path job_id) in *.
  rewrite (bind_ok _ _ _ _ _ (new_request_id_eq _)).
  rewrite (bind_ok _ _ _ _ _ (trigger_log_eq _ _ _ _ (tick_clock w) r Hapi)).
  cbv zeta. fold (cleanup temp).
  set (w2 := tick_api _).
  pose proof (wait_delivered_eq job_id (request_id_at w) temp w2 delta Hart)
    as Hwait.
  set (w3 := with_files _ _) in Hwait.
  assert (Htemp : files w3 !! temp = Some delta)
    by (subst w3; proj; apply lookup_insert_eq).
  assert (Hcache : files w3 !! cache_path = files w !! cache_path)
    by (subst w3 w2; proj; by apply lookup_insert_ne).
  assert (Hfin : forall f,
            with_files f w3 =
            after_fetch job_id remote_log_path cache_path start_offset w f).
  { intros f. apply world_eq; subst w3 w2; proj; try reflexivity.
    by rewrite <- app_assoc. }
  destruct delta as [|b delta'].
  - eapply try_finally_ok.
    + rewrite (bind_ok _ _ _ _ _ Hwait).
      rewrite (bind_ok _ _ _ _ _ (path_exists_eq _ _)), (exists_some _ _ _ Htemp).
      rewrite (bind_ok _ _ _ _ _ (stat_size_eq _ _ _ Htemp)).
      reflexivity.
    + rewrite (cleanup_present _ _ _ Htemp), Hfin. do 2 f_equal.
      subst w3. proj. apply delete_insert_eq.
  - set (delta := b :: delta') in *.
    assert (Hpos : (0 <? Z.of_nat (length delta)) = true)
      by (apply Z.ltb_lt; subst delta; cbn [length]; lia).
    destruct (files w !! cache_path) as [old|] eqn:Eold;
      [destruct (0 <? start_offset) eqn:Eoff|].
    + (* append *)
      eapply try_finally_ok.
      * rewrite (bind_ok _ _ _ _ _ Hwait).
        rewrite (bind_ok _ _ _ _ _ (path_exists_eq _ _)), (exists_some _ _ _ Htemp).
        rewrite (bind_ok _ _ _ _ _ (stat_size_eq _ _ _ Htemp)), Hpos.
        rewrite (bind_ok _ _ _ _ _ (path_exists_eq _ _)).
        rewrite (exists_some _ _ old) by (by rewrite Hcache).
        cbn [andb].
        rewrite (bind_ok _ _ _ _ _ (read_bytes_eq _ _ _ Htemp)).
        rewrite (bind_ok _ _ _ _ _ (append_bytes_eq _ _ _)).
        rewrite Hcache. reflexivity.
      * rewrite (cleanup_present _ _ delta)
          by (proj; by rewrite lookup_insert_ne).
        proj. unfold with_files at 1. unfold with_files at 1.
        proj. fold (with_files
                      (delete temp (<[cache_path:=default [] (Some old) ++ delta]> (files w3)))
                      w3).
        rewrite Hfin. do 2 f_equal. subst w3. proj.
        rewrite delete_insert_ne by done. by rewrite delete_insert_eq.
    + (* replace: offset 0 *)
      eapply try_finally_ok.
      * rewrite (bind_ok _ _ _ _ _ Hwait).
        rewrite (bind_ok _ _ _ _ _ (path_exists_eq _ _)), (exists_some _ _ _ Htemp).
        rewrite (bind_ok _ _ _ _ _ (stat_size_eq _ _ _ Htemp)), Hpos.
        rewrite (bind_ok _ _ _ _ _ (path_exists_eq _ _)).
        rewrite andb_false_r.
        rewrite (bind_ok _ _ _ _ _ (replace_eq _ _ _ _ Htemp)).
        reflexivity.
      * rewrite cleanup_absent
          by (proj; rewrite lookup_insert_ne by done; apply lookup_delete_eq).
        rewrite Hfin. do 2 f_equal. subst w3. proj.
        by rewrite delete_insert_eq.
    + (* replace: no cache file *)
      eapply try_finally_ok.
      * rewrite (bind_ok _ _ _ _ _ Hwait).
        rewrite (bind_ok _ _ _ _ _ (path_exists_eq _ _)), (exists_some _ _ _ Htemp).
        rewrite (bind_ok _ _ _ _ _ (stat_size_eq _ _ _ Htemp)), Hpos.
        rewrite (bind_ok _ _ _ _ _ (path_exists_eq _ _)).
        rewrite (exists_none cache_path w3) by (by rewrite Hcache).
        cbn [andb].
        rewrite (bind_ok _ _ _ _ _ (replace_eq _ _ _ _ Htemp)).
        reflexivity.
      * rewrite cleanup_absent
          by (proj; rewrite lookup_insert_ne by done; apply lookup_delete_eq).
        rewrite Hfin. do 2 f_equal. subst w3. proj.
        by rewrite delete_insert_eq.
Qed.

(** C2 (amended). For every [n], when the dispatch is accepted and a delta
    of [b] bytes is delivered, [fetch_remote_log_incremental] with
    [start_offset = n] returns [(cache_path, b)] and removes its temporary
    file; with [b > 0] it appends the delta to the cache file when [n > 0]
    and the file exists, leaving every byte already there in place, so that
    the size grows by [b] (and is [n + b] when the file held exactly [n]
    bytes), and it replaces the whole file by the delta when [n = 0] or
    the file does not exist; with [b = 0] the cache file is not written.
    The cache path is assumed distinct from the temporary path. *)
Theorem incremental_fetch_writes job_id remote_log_path cache_path
    (n : Z) w r (delta : list byte) :
  api env (n_api w) = ApiOk r ->
  artifact env (n_artifact w) = Delivered delta ->
  cache_path <> temp_path_of env cache_path job_id ->
  let res := fetch_remote_log_incremental env config job_id remote_log_path
               cache_path n w in
  let after := files (snd res) in
  fst res = Eff.Ok (cache_path, Z.of_nat (length delta))
  /\ after !! temp_path_of env cache_path job_id = None
  /\ (forall p, p <> cache_path -> p <> temp_path_of env cache_path job_id ->
        after !! p = files w !! p)
  /\ (delta = [] -> after !! cache_path = files w !! cache_path)
  /\ (delta <> [] ->
      forall old, 0 < n -> files w !! cache_path = Some old ->
        after !! cache_path = Some (old ++ delta)
        /\ take (length old) (old ++ delta) = old
        /\ (Z.of_nat (length old) = n ->
            Z.of_nat (length (old ++ delta)) = n + Z.of_nat (length delta)))
  /\ (delta <> [] -> n <= 0 \/ files w !! cache_path = None ->
        after !! cache_path = Some delta).
Proof.
  intros Hapi Hart Hne res after. subst after res.
  rewrite (incremental_run _ _ _ _ _ _ _ Hapi Hart Hne).
  set (temp := temp_path_of env cache_path job_id) in *.
  cbn [fst snd after_fetch files].
  split; [reflexivity|].
  split.
  { destruct delta; [apply lookup_delete_eq|].
    destruct (files w !! cache_path); [destruct (0 <? n)|];
      rewrite lookup_insert_ne by done; apply lookup_delete_eq. }
  split.
  { intros p Hp1 Hp2.
    destruct delta; [by rewrite lookup_delete_ne|].
    destruct (files w !! cache_path); [destruct (0 <? n)|];
      rewrite lookup_insert_ne by done; by rewrite lookup_delete_ne. }
  split.
  { intros ->. by rewrite lookup_delete_ne. }
  split.
  { intros Hd old Hn Hold. destruct delta as [|b delta']; [done|].
    rewrite Hold. replace (0 <? n) with true by (symmetry; apply Z.ltb_lt; lia).
    rewrite lookup_insert_eq. split; [reflexivity|].
    split; [by rewrite take_app_length|].
    intros Hlen. rewrite length_app. lia. }
  intros Hd Hcase. destruct delta as [|b delta']; [done|].
  destruct (files w !! cache_path) as [old|] eqn:Eold.
  - destruct Hcase as [Hn|]; [|done].
    replace (0 <? n) with false by (symmetry; apply Z.ltb_ge; lia).
    apply lookup_insert_eq.
  - apply lookup_insert_eq.
Qed.

Lemma full_fetch_run job_id remote_log_path cache_path refresh w r data :
  api env (n_api w) = ApiOk r ->
  artifact env (n_artifact w) = Delivered data ->
  refresh = true \/ files w !! cache_path = None ->
  fetch_remote_log_via_bridge env config job_id remote_log_path cache_path
    refresh w =
  (Eff.Ok cache_path,
   after_full_fetch job_id remote_log_path cache_path data w).
Proof.
  intros Hapi Hart Hcase.
  unfold fetch_remote_log_via_bridge.
  assert (Hgo : bool_decide (is_Some (files w !! cache_path)) && negb refresh = false).
  { destruct Hcase as [->|Hnone]; [apply andb_false_r|].
    rewrite Hnone. by rewrite bool_decide_eq_false_2 by (intros [? ?]; done). }
  rewrite (bind_ok _ _ _ _ _ (path_exists_eq _ _)), Hgo.
  rewrite (bind_ok _ _ _ _ _ (new_request_id_eq _)).
  rewrite (bind_ok _ _ _ _ _ (trigger_log_eq _ _ _ _ (tick_clock w) r Hapi)).
  erewrite (bind_ok _ _ _ _ _ (wait_delivered_eq _ _ _ _ data _)).
  rewrite (bind_ok _ _ _ _ _ (prune_eq _ _ _)).
  unfold Eff.ret. f_equal. apply world_eq; proj; try reflexivity.
  by rewrite <- !app_assoc.
  Unshelve. exact Hart.
Qed.

Lemma get_log_offset_eq job_id w :
  get_log_offset job_id w = (Eff.Ok (stored_offset w job_id), w).
Proof. unfold get_log_offset, stored_offset. by destruct (jobs w !! job_id). Qed.

Lemma set_log_offset_eq job_id offset w :
  set_log_offset env job_id offset w =
  (Eff.Ok tt, store_offset job_id offset (Some (now_iso env)) w).
Proof. reflexivity. Qed.

Lemma reset_log_offset_eq job_id w :
  reset_log_offset env job_id w = (Eff.Ok tt, store_offset job_id 0 None w).
Proof. reflexivity. Qed.

(** A write that succeeds stores the offset. *)
Lemma stored_after_store job_id offset stamp w :
  is_Some (jobs w !! job_id) ->
  cache_saved env (n_save w) = true ->
  stored_offset (store_offset job_id offset stamp w) job_id = offset.
Proof.
  intros [j Hj] Hs. unfold Forge.store_offset, stored_offset, _save.
  rewrite Hj, Hs.
  unfold with_jobs. cbn [jobs]. by rewrite lookup_insert_eq.
Qed.

(** A write that fails leaves the job cache as it was. *)
Lemma jobs_after_failed_store job_id offset stamp w :
  cache_saved env (n_save w) = false ->
  jobs (store_offset job_id offset stamp w) = jobs w.
Proof.
  intros Hs. unfold Forge.store_offset, _save. rewrite Hs.
  by destruct (jobs w !! job_id).
Qed.

Ltac store_field :=
  unfold Forge.store_offset, _save;
  destruct (jobs _ !! _); [destruct (cache_saved env _)|]; reflexivity.

Lemma files_store job_id offset stamp w :
  files (store_offset job_id offset stamp w) = files w.
Proof. store_field. Qed.

Lemma trace_store job_id offset stamp w :
  trace (store_offset job_id offset stamp w) = trace w.
Proof. store_field. Qed.

Lemma n_api_store job_id offset stamp w :
  n_api (store_offset job_id offset stamp w) = n_api w.
Proof. store_field. Qed.

Lemma n_artifact_store job_id offset stamp w :
  n_artifact (store_offset job_id offset stamp w) = n_artifact w.
Proof. store_field. Qed.

Lemma n_clock_store job_id offset stamp w :
  n_clock (store_offset job_id offset stamp w) = n_clock w.
Proof. store_field. Qed.

Lemma n_save_store job_id offset stamp w :
  (n_save w <= n_save (store_offset job_id offset stamp w))%nat.
Proof.
  unfold Forge.store_offset, _save.
  destruct (jobs _ !! _); [destruct (cache_saved env _)|]; cbn; lia.
Qed.

Lemma writable_store job_id offset stamp w :
  cache_writable w -> cache_writable (store_offset job_id offset stamp w).
Proof.
  intros Hw k Hk. apply Hw.
  pose proof (n_save_store job_id offset stamp w). lia.
Qed.

Lemma jobs_store_is_Some job_id offset stamp w :
  is_Some (jobs w !! job_id) ->
  is_Some (jobs (store_offset job_id offset stamp w) !! job_id).
Proof.
  intros [j Hj]. unfold Forge.store_offset, _save. rewrite Hj.
  destruct (cache_saved env (n_save w)); [|cbn [tick_save jobs]; eauto].
  unfold with_jobs. cbn [jobs]. rewrite lookup_insert_eq. eauto.
Qed.

Lemma full_branch_run job_id remote_log_path cache_path refresh w r data :
  api env (n_api w) = ApiOk r ->
  artifact env (n_artifact w) = Delivered data ->
  refresh = true \/ files w !! cache_path = None ->
  full_branch job_id remote_log_path cache_path refresh w =
  (Eff.Ok tt, after_full_branch job_id remote_log_path cache_path data w).
Proof.
  intros Hapi Hart Hcase. unfold full_branch. apply try_ok.
  rewrite (bind_ok _ _ _ _ _ (full_fetch_run _ _ _ _ _ _ _ Hapi Hart Hcase)).
  rewrite (bind_ok _ _ _ _ _ (path_exists_eq _ _)).
  unfold after_full_branch.
  set (w1 := after_full_fetch job_id remote_log_path cache_path data w).
  cbv zeta.
  destruct (files w1 !! cache_path) as [bytes|] eqn:E.
  - rewrite bool_decide_eq_true_2 by eauto.
    rewrite (bind_ok _ _ _ _ _ (stat_size_eq _ _ _ E)).
    apply set_log_offset_eq.
  - rewrite bool_decide_eq_false_2 by (intros [? ?]; done). reflexivity.
Qed.

Lemma logs_fetch_full_branch job_id remote_log_path cache_path refresh w :
  refresh = true \/
  (files w !! cache_path = None /\ stored_offset w job_id <= 0) ->
  logs_fetch env config job_id remote_log_path cache_path refresh w =
  full_branch job_id remote_log_path cache_path refresh w.
Proof.
  intros Hcase. unfold logs_fetch.
  destruct refresh.
  - rewrite (bind_ok _ _ _ _ _ (ret_eq _ _)).
    rewrite (bind_ok _ _ _ _ _ (path_exists_eq _ _)).
    change (0 <? 0) with false. cbn [andb].
    rewrite (bind_ok _ _ _ _ _ (ret_eq _ _)).
    rewrite (bind_ok _ _ _ _ _ (path_exists_eq _ _)).
    change (0 <? 0) with false. cbn [andb orb]. reflexivity.
  - destruct Hcase as [|[Hnone Hle]]; [done|].
    rewrite (bind_ok _ _ _ _ _ (get_log_offset_eq _ _)).
    rewrite (bind_ok _ _ _ _ _ (path_exists_eq _ _)).
    rewrite (exists_none _ _ Hnone), (ltb_nonpos _ Hle). cbn [andb].
    rewrite (bind_ok _ _ _ _ _ (ret_eq _ _)).
    rewrite (bind_ok _ _ _ _ _ (path_exists_eq _ _)).
    rewrite (exists_none _ _ Hnone), (ltb_nonpos _ Hle).
    cbn [andb orb negb]. reflexivity.
Qed.

(** The missing-file case: the offset is reset, then the full branch runs. *)
Lemma logs_fetch_reset job_id remote_log_path cache_path w :
  files w !! cache_path = None -> 0 < stored_offset w job_id ->
  logs_fetch env config job_id remote_log_path cache_path false w =
  full_branch job_id remote_log_path cache_path false
    (store_offset job_id 0 None w).
Proof.
  intros Hnone Hpos. unfold logs_fetch.
  rewrite (bind_ok _ _ _ _ _ (get_log_offset_eq _ _)).
  rewrite (bind_ok _ _ _ _ _ (path_exists_eq _ _)).
  rewrite (exists_none _ _ Hnone), (ltb_pos _ Hpos). cbn [andb negb].
  rewrite (bind_ok _ _ _ _ _
             (bind_ok _ _ _ _ _ (reset_log_offset_eq _ _))).
  rewrite (bind_ok _ _ _ _ _ (path_exists_eq _ _)).
  rewrite files_store, (exists_none _ _ Hnone).
  change (0 <? 0) with false. cbn [andb orb negb]. reflexivity.
Qed.

(** The no-fetch case: offset 0 and a cache file. *)
Lemma logs_fetch_idle job_id remote_log_path cache_path w old :
  files w !! cache_path = Some old -> stored_offset w job_id <= 0 ->
  logs_fetch env config job_id remote_log_path cache_path false w =
  (Eff.Ok tt, w).
Proof.
  intros Hold Hle. unfold logs_fetch.
  rewrite (bind_ok _ _ _ _ _ (get_log_offset_eq _ _)).
  rewrite (bind_ok _ _ _ _ _ (path_exists_eq _ _)).
  rewrite (exists_some _ _ _ Hold), (ltb_nonpos _ Hle). cbn [andb].
  rewrite (bind_ok _ _ _ _ _ (ret_eq _ _)).
  rewrite (bind_ok _ _ _ _ _ (path_exists_eq _ _)).
  rewrite (exists_some _ _ _ Hold), (ltb_nonpos _ Hle).
  cbn [andb orb negb]. reflexivity.
Qed.

(** The incremental case. *)
Lemma logs_fetch_incremental job_id remote_log_path cache_path w old r delta :
  files w !! cache_path = Some old -> 0 < stored_offset w job_id ->
  api env (n_api w) = ApiOk r ->
  artifact env (n_artifact w) = Delivered delta ->
  cache_path <> temp_path_of env cache_path job_id ->
  exists w1,
    logs_fetch env config job_id remote_log_path cache_path false w =
    (Eff.Ok tt,
     store_offset job_id (stored_offset w job_id + Z.of_nat (length delta))
       (Some (now_iso env)) w1)
    /\ jobs w1 = jobs w
    /\ n_save w1 = n_save w
    /\ files w1 !! cache_path = Some (old ++ delta).
Proof.
  intros Hold Hpos Hapi Hart Hne.
  eexists. split; [|split; [|split]].
  - unfold logs_fetch.
    rewrite (bind_ok _ _ _ _ _ (get_log_offset_eq _ _)).
    rewrite (bind_ok _ _ _ _ _ (path_exists_eq _ _)).
    rewrite (exists_some _ _ _ Hold), (ltb_pos _ Hpos). cbn [andb negb].
    rewrite (bind_ok _ _ _ _ _ (ret_eq _ _)).
    rewrite (bind_ok _ _ _ _ _ (path_exists_eq _ _)).
    rewrite (exists_some _ _ _ Hold), (ltb_pos _ Hpos). cbn [andb].
    apply try_ok.
    rewrite (bind_ok _ _ _ _ _
               (incremental_run _ _ _ _ _ _ _ Hapi Hart Hne)).
    cbn [snd]. apply set_log_offset_eq.
  - reflexivity.
  - reflexivity.
  - unfold Forge.after_fetch. cbn [files]. rewrite Hold, (ltb_pos _ Hpos).
    destruct delta.
    + rewrite lookup_delete_ne by done. by rewrite app_nil_r.
    + apply lookup_insert_eq.
Qed.

Lemma log_cache_not_temp job_id :
  log_cache_path config job_id
  <> temp_path_of env (log_cache_path config job_id) job_id.
Proof.
  unfold log_cache_path, temp_path_of. cbn [fst]. intros [= H].
  apply String.app_inj in H. discriminate H.
Qed.

Lemma offset_matches_full job_id remote_log_path cache_path data w :
  is_Some (jobs w !! job_id) ->
  cache_saved env (n_save w) = true ->
  offset_matches cache_path job_id
    (after_full_branch job_id remote_log_path cache_path data w).
Proof.
  intros Hjob Hs. unfold Forge.after_full_branch. cbv zeta.
  set (w1 := after_full_fetch job_id remote_log_path cache_path data w).
  assert (Hjob1 : is_Some (jobs w1 !! job_id)) by exact Hjob.
  assert (Hs1 : cache_saved env (n_save w1) = true) by exact Hs.
  destruct (files w1 !! cache_path) as [bytes|] eqn:E; intros b' Hb'.
  - rewrite files_store, E in Hb'. injection Hb' as <-.
    by apply stored_after_store.
  - congruence.
Qed.


Lemma stored_pos_is_Some job_id w :
  0 < stored_offset w job_id -> is_Some (jobs w !! job_id).
Proof.
  unfold stored_offset. destruct (jobs w !! job_id); [eauto | lia].
Qed.

(** The handlers around a fetch leave the state as the fetch left it. *)
Lemma fetch_handlers_state (m : M unit) w :
  snd (Eff.try_except m fetch_handlers w) = snd (m w).
Proof.
  unfold Eff.try_except. destruct (m w) as [[a|e|] w']; [done| |done].
  unfold fetch_handlers. cbn [Eff.select].
  destruct (Exc.isinstance e Exc.GiteaAuthError); [done|].
  destruct (Exc.isinstance e Exc.TimeoutError); [done|].
  by destruct (Exc.isinstance e Exc.GiteaError).
Qed.

Lemma dispatch_eq workflow_file inputs ref w :
  trigger_workflow_dispatch env config workflow_file inputs ref w =
  (match api env (n_api w) with
   | ApiOk r => Eff.Ok r
   | ApiForgeError msg =>
       Eff.Raised (Exc.Exn Exc.ForgeError
                     ("Failed to trigger workflow: " +:+ msg))
   | ApiRaises e => Eff.Raised (rewrapped "Failed to trigger workflow: " e)
   end,
   tick_api
     (with_event
        (EvRequest "POST"
           (get_api_base (client config) (repo config) +:+ "/workflows/"
              +:+ workflow_file +:+ "/dispatches")
           (Some (ref, inputs))) w)).
Proof.
  unfold trigger_workflow_dispatch, Eff.try_except, request_json, rewrapped.
  destruct (api env (n_api w)) as [r|msg|e]; [reflexivity|reflexivity|].
  cbn [Eff.select]. by destruct (Exc.isinstance e Exc.ForgeError).
Qed.

Lemma trigger_log_trace job_id remote_log_path request_id start_offset w :
  trace (snd (trigger_log_retrieval_workflow env config job_id remote_log_path
                request_id start_offset w))
  = trace w ++ [log_dispatch job_id remote_log_path request_id start_offset].
Proof.
  unfold trigger_log_retrieval_workflow, Eff.bind. rewrite dispatch_eq.
  destruct (api env (n_api w)); reflexivity.
Qed.

Lemma trigger_log_cases job_id remote_log_path request_id start_offset w :
  (exists r, api env (n_api w) = ApiOk r)
  \/ (exists e,
        trigger_log_retrieval_workflow env config job_id remote_log_path
          request_id start_offset w
        = (Eff.Raised e,
           tick_api (with_event
             (log_dispatch job_id remote_log_path request_id start_offset) w))).
Proof.
  unfold trigger_log_retrieval_workflow, Eff.bind. rewrite dispatch_eq.
  destruct (api env (n_api w)) as [r|msg|e] eqn:E; [left; eauto|right|right];
    eexists; reflexivity.
Qed.

Lemma bind_raised {S A B} (m : Eff.M S A) (k : A -> Eff.M S B) w e w' :
  m w = (Eff.Raised e, w') -> Eff.bind m k w = (Eff.Raised e, w').
Proof. intros H. unfold Eff.bind. by rewrite H. Qed.

(** A full fetch from a state without the cache file dispatches once, with
    [start_offset] 0, whatever the forge and the poller answer. *)
Lemma full_fetch_trace job_id remote_log_path cache_path w :
  files w !! cache_path = None ->
  exists rest,
    trace (snd (fetch_remote_log_via_bridge env config job_id remote_log_path
                  cache_path false w))
    = trace w ++ log_dispatch job_id remote_log_path (request_id_at w) 0 :: rest
    /\ forallb (fun e => negb (is_request e)) rest = true.
Proof.
  intros Hnone. unfold fetch_remote_log_via_bridge.
  rewrite (bind_ok _ _ _ _ _ (path_exists_eq _ _)), (exists_none _ _ Hnone).
  cbn [andb].
  rewrite (bind_ok _ _ _ _ _ (new_request_id_eq _)).
  destruct (trigger_log_cases job_id remote_log_path (request_id_at w) 0
              (tick_clock w)) as [[r Hapi]|[e Hraise]].
  2:{ rewrite (bind_raised _ _ _ _ _ Hraise). exists []. split; [|done].
      reflexivity. }
  rewrite (bind_ok _ _ _ _ _ (trigger_log_eq _ _ _ _ (tick_clock w) r Hapi)).
  set (w2 := tick_api _).
  destruct (artifact env (n_artifact w2)) as [data|e leftover] eqn:Hart.
  - rewrite (bind_ok _ _ _ _ _ (wait_delivered_eq _ _ _ w2 data Hart)).
    rewrite (bind_ok _ _ _ _ _ (prune_eq _ _ _)).
    eexists. split; [|shelve]. unfold Eff.ret. cbn [snd].
    unfold with_event at 1. cbn [trace]. unfold with_files at 1.
    unfold tick_clock at 1. cbn [trace]. unfold with_files at 1.
    unfold tick_artifact at 1. cbn [trace]. unfold with_event at 1.
    subst w2. proj. rewrite <- !app_assoc. reflexivity.
    Unshelve. reflexivity.
  - assert (Hw : exists w3,
      wait_for_log_artifact env config job_id (request_id_at w) cache_path w2
        = (Eff.Raised e, w3)
      /\ trace w3 = trace w2 ++ [EvWaitArtifact job_id (request_id_at w) cache_path]).
    { unfold wait_for_log_artifact. rewrite Hart.
      destruct leftover; eexists; split; reflexivity. }
    destruct Hw as (w3 & Hw3 & Ht3).
    rewrite (bind_raised _ _ _ _ _ Hw3). cbn [snd]. rewrite Ht3.
    subst w2. proj. eexists. split; [rewrite <- !app_assoc; reflexivity|].
    reflexivity.
Qed.

Lemma full_branch_trace job_id remote_log_path cache_path w :
  files w !! cache_path = None ->
  exists rest,
    trace (snd (full_branch job_id remote_log_path cache_path false w))
    = trace w ++ log_dispatch job_id remote_log_path (request_id_at w) 0 :: rest
    /\ forallb (fun e => negb (is_request e)) rest = true.
Proof.
  intros Hnone. unfold full_branch. rewrite fetch_handlers_state.
  destruct (full_fetch_trace job_id remote_log_path cache_path w Hnone)
    as (rest & Ht & Hr).
  exists rest. split; [|done]. unfold Eff.bind.
  destruct (fetch_remote_log_via_bridge env config job_id remote_log_path
              cache_path false w) as [[p|e|] w1] eqn:E; cbn [snd] in Ht |- *;
    [|done|done].
  unfold path_exists.
  destruct (bool_decide (is_Some (files w1 !! cache_path))); [|done].
  unfold stat_size. destruct (files w1 !! cache_path); [|done].
  unfold set_log_offset, Eff.modify, _save. cbn [snd].
  destruct (jobs w1 !! job_id); [|done].
  by destruct (cache_saved env (n_save w1)).
Qed.


End Env.

Lemma example_cache_not_temp delta :
  example_cache <> temp_path_of (env_log delta) example_cache "job-1".
Proof. exact (log_cache_not_temp (env_log delta) example_config "job-1"). Qed.

Lemma cached_log_served_as_is_witness :
  let w := world_with {[ example_cache := abc ]} ∅ in
  fetch_remote_log_via_bridge (env_log de) example_config "job-1"
    "/shared/work/logs/job-1.log" example_cache false w
  = (Eff.Ok example_cache, w).
Proof.
  intros w.
  apply (cached_log_served_as_is (env_log de) example_config "job-1"
           "/shared/work/logs/job-1.log" example_cache w).
  exists abc. apply lookup_singleton_eq.
Defined.

Lemma incremental_fetch_writes_witness :
  let w := world_with {[ example_cache := abc ]} ∅ in
  let res := fetch_remote_log_incremental (env_log de) example_config "job-1"
               "/shared/work/logs/job-1.log" example_cache 3 w in
  fst res = Eff.Ok (example_cache, 2)
  /\ files (snd res) !! example_cache = Some (abc ++ de).
Proof.
  intros w res.
  destruct (incremental_fetch_writes (env_log de) example_config "job-1"
              "/shared/work/logs/job-1.log" example_cache 3 w empty_response de
              eq_refl eq_refl (example_cache_not_temp de))
    as (Hret & _ & _ & _ & Happ & _).
  split; [exact Hret|].
  apply (Happ ltac:(discriminate) abc ltac:(lia)).
  apply lookup_singleton_eq.
Defined.

(** C2 as stated fails when the cache file does not hold exactly
    [start_offset] bytes: with a 3-byte file, [start_offset = 5] and a
    2-byte delta, the file ends with 5 bytes, not 7. *)
Lemma append_size_is_not_offset_plus_delta :
  let w := world_with {[ example_cache := abc ]} ∅ in
  let res := fetch_remote_log_incremental (env_log de) example_config "job-1"
               "/shared/work/logs/job-1.log" example_cache 5 w in
  ~ (exists bytes, files (snd res) !! example_cache = Some bytes
                   /\ Z.of_nat (length bytes) = 5 + Z.of_nat (length de)).
Proof.
  intros w res (bytes & Hb & Hlen).
  destruct (incremental_fetch_writes (env_log de) example_config "job-1"
              "/shared/work/logs/job-1.log" example_cache 5 w empty_response de
              eq_refl eq_refl (example_cache_not_temp de))
    as (_ & _ & _ & _ & Happ & _).
  destruct (Happ ltac:(discriminate) abc ltac:(lia) (lookup_singleton_eq _ _))
    as (Hfile & _).
  fold res in Hfile. rewrite Hfile in Hb. injection Hb as <-.
  vm_compute in Hlen. discriminate.
Qed.

Lemma example_stored offset f :
  stored_offset (world_with f (example_jobs offset)) "job-1" = default 0 offset.
Proof.
  unfold stored_offset, world_with, example_jobs. cbn [jobs].
  by rewrite lookup_singleton_eq.
Qed.

Lemma example_matches (f : list byte) :
  offset_matches (log_cache_path example_config "job-1") "job-1"
    (world_with {[ log_cache_path example_config "job-1" := f ]}
       (example_jobs (Some (Z.of_nat (length f))))).
Proof.
  intros bytes Hb. rewrite example_stored.
  unfold world_with in Hb. cbn [files] in Hb.
  rewrite lookup_singleton_eq in Hb. by injection Hb as <-.
Qed.





End LogSpec.

(** ** Waiting for a workflow run *)

Module PollSpec.
Import Forge.

(** [a > b] holds exactly when [b < a]. *)
Lemma Qgtb_true a b : Qgtb a b = true <-> (b < a)%Q.
Proof.
  unfold Qgtb. rewrite negb_true_iff. split.
  - intros H. apply Qnot_le_lt. intros Hle.
    apply Qle_bool_iff in Hle. congruence.
  - intros H. destruct (Qle_bool a b) eqn:E; [|done].
    apply Qle_bool_iff in E. exfalso. by apply (Qlt_not_le b a).
Qed.

Lemma Qgtb_false a b : Qgtb a b = false <-> (a <= b)%Q.
Proof.
  unfold Qgtb. rewrite negb_false_iff. apply Qle_bool_iff.
Qed.

Section Env.
Variable env : environment.
Variable config : Config.
Variable run_id : string.

Local Abbreviation run_url := (Forge.run_url config run_id).
Local Abbreviation poll := (Forge.poll config run_id).
Local Abbreviation poll_reply := (Forge.poll_reply env).
Local Abbreviation check_time := (Forge.check_time env).
Local Abbreviation deadline := (Forge.deadline env config).
Local Abbreviation quiet := (Forge.quiet env config).
Local Abbreviation poll_events := (Forge.poll_events config run_id).
Local Abbreviation completion_of := (Forge.completion_of run_id).
Local Abbreviation after_polls := (Forge.after_polls config run_id).

Lemma get_workflow_run_eq w :
  get_workflow_run env config run_id w =
  (match api env (n_api w) with
   | ApiOk r => Eff.Ok (as_run r)
   | ApiForgeError msg =>
       Eff.Raised (Exc.Exn Exc.ForgeError
                     ("Failed to get workflow run: " +:+ msg))
   | ApiRaises e => Eff.Raised (rewrapped "Failed to get workflow run: " e)
   end,
   tick_api (with_event poll w)).
Proof.
  unfold get_workflow_run, Eff.try_except, Eff.bind, request_json, rewrapped.
  destruct (api env (n_api w)) as [r|msg|e]; [reflexivity|reflexivity|].
  cbn [Eff.select]. by destruct (Exc.isinstance e Exc.ForgeError).
Qed.

(** One iteration of the loop. *)
Lemma wait_loop_step fuel seconds dl w :
  wait_loop env (S fuel) config run_id seconds dl w =
  if Qgtb (clock env (n_clock w)) dl then
    (Eff.Raised (Exc.Exn Exc.TimeoutError (timeout_message seconds)),
     tick_clock w)
  else
    match api env (n_api w) with
    | ApiOk r =>
        if is_terminal (Py.get_or (r_status (as_run r)) Py.SNone) then
          (Eff.Ok (completion_of r), tick_api (with_event poll (tick_clock w)))
        else
          wait_loop env fuel config run_id seconds dl
            (with_event (EvSleep 3)
               (tick_api (with_event poll (tick_clock w))))
    | ApiForgeError msg =>
        (Eff.Raised (Exc.Exn Exc.ForgeError
                       ("Failed to get workflow run: " +:+ msg)),
         tick_api (with_event poll (tick_clock w)))
    | ApiRaises e =>
        (Eff.Raised (rewrapped "Failed to get workflow run: " e),
         tick_api (with_event poll (tick_clock w)))
    end.
Proof.
  cbn [wait_loop]. unfold Eff.bind at 1, time_time at 1.
  destruct (Qgtb (clock env (n_clock w)) dl); [reflexivity|].
  unfold Eff.bind at 1. rewrite get_workflow_run_eq.
  cbn [n_api tick_clock].
  destruct (api env (n_api w)) as [r|msg|e]; [|reflexivity|reflexivity].
  destruct (is_terminal (Py.get_or (r_status (as_run r)) Py.SNone));
    reflexivity.
Qed.

(** Only what is not a [ForgeError] can leave a rewrapping function as a
    [TimeoutError]. *)
Lemma rewrapped_timeout prefix e msg :
  rewrapped prefix e = Exc.Exn Exc.TimeoutError msg ->
  e = Exc.Exn Exc.TimeoutError msg.
Proof.
  unfold rewrapped. by destruct (Exc.isinstance e Exc.ForgeError).
Qed.

Ltac proj :=
  cbn [n_api n_clock n_artifact n_save tick_save files jobs trace tick_clock tick_api
       tick_artifact with_event with_files with_jobs fst snd Forge.after_polls].

Ltac proj_in H :=
  cbn [n_api n_clock n_artifact n_save tick_save files jobs trace tick_clock tick_api
       tick_artifact with_event with_files with_jobs fst snd Forge.after_polls] in H.

(** Iterations that neither time out nor see a terminal status go round. *)
Lemma wait_loop_quiet seconds dl (k : nat) : forall fuel w,
  (forall j, (j < k)%nat ->
     Qgtb (clock env (n_clock w + j)%nat) dl = false
     /\ pending (api env (n_api w + j)%nat)) ->
  wait_loop env (k + fuel) config run_id seconds dl w =
  wait_loop env fuel config run_id seconds dl (after_polls w k).
Proof.
  induction k as [|k IH]; intros fuel w Hq.
  - cbn [Nat.add]. f_equal. unfold Forge.after_polls.
    apply LogSpec.world_eq; proj; try reflexivity; try lia.
    cbn [Forge.poll_events]. by rewrite app_nil_r.
  - destruct (Hq 0%nat ltac:(lia)) as [Ht (r & Hr & Hp)].
    rewrite Nat.add_0_r in Ht, Hr.
    change (S k + fuel)%nat with (S (k + fuel)).
    rewrite wait_loop_step, Ht, Hr, Hp.
    rewrite IH.
    + f_equal. unfold Forge.after_polls.
      apply LogSpec.world_eq; proj; try reflexivity; try lia.
      cbn [Forge.poll_events]. by rewrite <- !app_assoc.
    + intros j Hj. proj. specialize (Hq (S j) ltac:(lia)).
      by rewrite <- !Nat.add_succ_comm in Hq.
Qed.

Lemma wait_unfold fuel timeout w :
  wait_for_workflow_completion env fuel config run_id timeout w =
  wait_loop env fuel config run_id (timeout_seconds config timeout)
    (deadline timeout w) (tick_clock w).
Proof. reflexivity. Qed.

Lemma quiet_loop timeout w k :
  quiet timeout w k ->
  forall j, (j < k)%nat ->
    Qgtb (clock env (n_clock (tick_clock w) + j)%nat) (deadline timeout w) = false
    /\ pending (api env (n_api (tick_clock w) + j)%nat).
Proof.
  intros Hq j Hj. destruct (Hq j Hj) as [Ht Hp]. split; [|exact Hp].
  by apply Qgtb_false.
Qed.

(** When the loop raises [TimeoutError], a deadline check fired or a
    poll raised it. *)
Lemma wait_loop_timeout seconds dl fuel : forall w msg w',
  wait_loop env fuel config run_id seconds dl w
    = (Eff.Raised (Exc.Exn Exc.TimeoutError msg), w') ->
  exists k, (k < fuel)%nat
    /\ ((Qgtb (clock env (n_clock w + k)%nat) dl = true
         /\ msg = timeout_message seconds)
        \/ (Qgtb (clock env (n_clock w + k)%nat) dl = false
            /\ api env (n_api w + k)%nat
               = ApiRaises (Exc.Exn Exc.TimeoutError msg)))
    /\ forall j, (j < k)%nat ->
         Qgtb (clock env (n_clock w + j)%nat) dl = false
         /\ pending (api env (n_api w + j)%nat).
Proof.
  induction fuel as [|fuel IH]; intros w msg w' H; [discriminate H|].
  rewrite wait_loop_step in H.
  destruct (Qgtb (clock env (n_clock w)) dl) eqn:Et.
  { exists 0%nat. rewrite Nat.add_0_r. split; [lia|]. split; [|lia].
    left. split; [done|]. by injection H as <- _. }
  destruct (api env (n_api w)) as [r|m|e] eqn:Er; [|discriminate H|].
  2:{ exists 0%nat. rewrite !Nat.add_0_r. split; [lia|]. split; [|lia].
      right. split; [done|]. injection H as H _.
      by rewrite (rewrapped_timeout _ _ _ H) in Er. }
  destruct (is_terminal (Py.get_or (r_status (as_run r)) Py.SNone)) eqn:Es;
    [discriminate H|].
  destruct (IH _ _ _ H) as (k & Hk & Hfire & Hq). proj_in Hfire.
  exists (S k). split; [lia|]. split.
  { by rewrite <- !Nat.add_succ_comm. }
  intros [|j] Hj.
  - rewrite !Nat.add_0_r. split; [done|]. exists r. by split.
  - specialize (Hq j ltac:(lia)). proj_in Hq.
    by rewrite <- !Nat.add_succ_comm.
Qed.

(** C3 (amended). [wait_for_workflow_completion] raises its own
    [TimeoutError] when, at the top of an iteration reached with every
    earlier poll pending, the clock shows more than [max(5, t)] seconds
    after the start, [t] being [timeout or config.remote_timeout or 90];
    on the first poll that shows a status among [completed], [success] and
    [failure] it returns the dict built from that run at once: the state
    it ends in has that poll as its last event, with no pause and no
    further poll after it; an exception of a poll that is not a
    [ForgeError], such as the [TimeoutError] of a socket, ends the wait as
    it is, whatever the clock shows; and a [TimeoutError] is raised in
    these two ways only: by the deadline check, or by a poll that raised
    it. Fuel counts iterations. *)
Theorem wait_completion_outcomes (timeout : option Z) (w : world) :
  (forall k fuel,
     (k < fuel)%nat -> quiet timeout w k ->
     (deadline timeout w < check_time w k)%Q ->
     wait_for_workflow_completion env fuel config run_id timeout w =
       (Eff.Raised (Exc.Exn Exc.TimeoutError
                      (timeout_message (timeout_seconds config timeout))),
        tick_clock (after_polls (tick_clock w) k)))
  /\ (forall k fuel r,
        (k < fuel)%nat -> quiet timeout w k ->
        (check_time w k <= deadline timeout w)%Q ->
        poll_reply w k = ApiOk r ->
        is_terminal (Py.get_or (r_status (as_run r)) Py.SNone) = true ->
        wait_for_workflow_completion env fuel config run_id timeout w =
          (Eff.Ok (completion_of r),
           tick_api (with_event poll
                       (tick_clock (after_polls (tick_clock w) k)))))
  /\ (forall k fuel e,
        (k < fuel)%nat -> quiet timeout w k ->
        (check_time w k <= deadline timeout w)%Q ->
        poll_reply w k = ApiRaises e ->
        Exc.isinstance e Exc.ForgeError = false ->
        wait_for_workflow_completion env fuel config run_id timeout w =
          (Eff.Raised e,
           tick_api (with_event poll
                       (tick_clock (after_polls (tick_clock w) k)))))
  /\ (forall fuel msg w',
        wait_for_workflow_completion env fuel config run_id timeout w =
          (Eff.Raised (Exc.Exn Exc.TimeoutError msg), w') ->
        exists k, (k < fuel)%nat /\ quiet timeout w k
          /\ (((deadline timeout w < check_time w k)%Q
               /\ msg = timeout_message (timeout_seconds config timeout))
              \/ ((check_time w k <= deadline timeout w)%Q
                  /\ poll_reply w k
                     = ApiRaises (Exc.Exn Exc.TimeoutError msg)))).
Proof.
  split; [|split; [|split]].
  - intros k fuel Hk Hq Hfire. rewrite wait_unfold.
    replace fuel with (k + S (fuel - S k))%nat by lia.
    rewrite (wait_loop_quiet _ _ k _ _ (quiet_loop _ _ _ Hq)).
    rewrite wait_loop_step.
    replace (Qgtb (clock env (n_clock (after_polls (tick_clock w) k)))
               (deadline timeout w)) with true; [reflexivity|].
    symmetry. apply Qgtb_true. exact Hfire.
  - intros k fuel r Hk Hq Hin Hr Ht. rewrite wait_unfold.
    replace fuel with (k + S (fuel - S k))%nat by lia.
    rewrite (wait_loop_quiet _ _ k _ _ (quiet_loop _ _ _ Hq)).
    rewrite wait_loop_step.
    replace (Qgtb (clock env (n_clock (after_polls (tick_clock w) k)))
               (deadline timeout w)) with false
      by (symmetry; apply Qgtb_false; exact Hin).
    proj. unfold Forge.poll_reply in Hr. rewrite Hr, Ht. reflexivity.
  - intros k fuel e Hk Hq Hin Hr He. rewrite wait_unfold.
    replace fuel with (k + S (fuel - S k))%nat by lia.
    rewrite (wait_loop_quiet _ _ k _ _ (quiet_loop _ _ _ Hq)).
    rewrite wait_loop_step.
    replace (Qgtb (clock env (n_clock (after_polls (tick_clock w) k)))
               (deadline timeout w)) with false
      by (symmetry; apply Qgtb_false; exact Hin).
    proj. unfold Forge.poll_reply in Hr. rewrite Hr.
    unfold rewrapped. rewrite He. reflexivity.
  - intros fuel msg w' H. rewrite wait_unfold in H.
    destruct (wait_loop_timeout _ _ _ _ _ _ H) as (k & Hk & Hfire & Hq).
    exists k. split; [done|]. split.
    + intros j Hj. destruct (Hq j Hj) as [Ht Hp]. split; [|exact Hp].
      by apply Qgtb_false.
    + destruct Hfire as [[Hfire Hmsg]|[Hin Hr]].
      * left. split; [by apply Qgtb_true | exact Hmsg].
      * right. split; [by apply Qgtb_false | exact Hr].
Qed.

End Env.
Lemma wait_completion_outcomes_witness :
  wait_for_workflow_completion (env_poll 0 6) 1 example_config "42" (Some 2)
    (world_with ∅ ∅)
  = (Eff.Raised (Exc.Exn Exc.TimeoutError
                   (timeout_message (timeout_seconds example_config (Some 2)))),
     tick_clock (after_polls example_config "42"
                   (tick_clock (world_with ∅ ∅)) 0)).
Proof.
  apply (proj1 (wait_completion_outcomes (env_poll 0 6) example_config "42"
                  (Some 2) (world_with ∅ ∅)) 0%nat 1%nat).
  - lia.
  - intros j Hj. lia.
  - reflexivity.
Defined.

(** C3 as stated fails in both directions. For a timeout below five
    seconds: with [timeout = 2] and a first check 3 seconds after the
    start, the elapsed time exceeds the given timeout, yet no
    [TimeoutError] is raised; the run is polled and its result returned.
    And before the timeout has elapsed: with [timeout = 90], a poll sent 3
    seconds after the start whose socket times out ends the wait with that
    [TimeoutError]. *)
Lemma timeout_error_is_not_exactly_elapsed :
  let w := world_with ∅ ∅ in
  let elapsed := (clock (env_poll 0 3) 1 - clock (env_poll 0 3) 0)%Q in
  let elapsed' :=
    (clock (env_poll_timeout 0 3) 1 - clock (env_poll_timeout 0 3) 0)%Q in
  ((inject_Z 2 < elapsed)%Q
   /\ ~ (exists msg w',
           wait_for_workflow_completion (env_poll 0 3) 1 example_config "42"
             (Some 2) w
           = (Eff.Raised (Exc.Exn Exc.TimeoutError msg), w')))
  /\ ((elapsed' <= inject_Z 90)%Q
      /\ fst (wait_for_workflow_completion (env_poll_timeout 0 3) 1
                example_config "42" (Some 90) w)
         = Eff.Raised (Exc.Exn Exc.TimeoutError "timed out")).
Proof.
  intros w elapsed elapsed'. split; [split; [reflexivity|]|].
  - intros (msg & w' & H).
    rewrite wait_unfold, wait_loop_step in H.
    change (Qgtb _ _) with false in H. cbv iota in H.
    change (api (env_poll 0 3) _) with (ApiOk done_response) in H.
    cbv iota in H. change (is_terminal _) with true in H.
    discriminate H.
  - split; [by vm_compute|].
    rewrite wait_unfold, wait_loop_step.
    change (Qgtb _ _) with false. cbv iota.
    change (api (env_poll_timeout 0 3) _)
      with (ApiRaises (Exc.Exn Exc.TimeoutError "timed out")).
    reflexivity.
Qed.

End PollSpec.

(** * The search for the dispatched run *)

Module SyncSpec.
Import Forge.

Lemma matches_iff inputs expected :
  _matches_inputs inputs expected = true <-> matches_spec inputs expected.
Proof.
  unfold matches_spec. induction expected as [|[k v] rest IH]; cbn [_matches_inputs].
  - split; [intros _ ? ? [] | done].
  - destruct (Py.truthy v) eqn:Ev; cbn [negb].
    + destruct (String.eqb_spec
                  (Py.str (Py.get_or (Py.get k inputs) (Py.SStr ""))) (Py.str v))
        as [Heq|Hne]; cbn [negb].
      * rewrite IH. split.
        -- intros H key value [[= <- <-]|Hin] Ht; [done | by apply H].
        -- intros H key value Hin Ht. apply H; [by right | done].
      * split; [done|]. intros H. exfalso. apply Hne. apply H; [by left | done].
    + rewrite IH. split.
      * intros H key value [[= <- <-]|Hin] Ht; [congruence | by apply H].
      * intros H key value Hin Ht. apply H; [by right | done].
Qed.

Lemma matches_needs_inputs expected key s :
  In (key, Py.SStr s) expected -> s <> "" -> ~ matches_spec [] expected.
Proof.
  intros Hin Hs H. specialize (H key (Py.SStr s) Hin).
  cbn in H. destruct s; [done|]. by specialize (H eq_refl).
Qed.

Section Env.
Variable env : environment.
Variable config : Config.

Local Abbreviation run_matches := (Forge.run_matches env).
Local Abbreviation decodes := (Forge.decodes env).
Local Abbreviation passed_over := (Forge.passed_over env).
Local Abbreviation payload_not_object := (Forge.payload_not_object env).
Local Abbreviation reports_total := (Forge.reports_total).
Local Abbreviation list_page := (Forge.list_page config).
Local Abbreviation listed := (Forge.listed config).
Local Abbreviation last_page_of := (Forge.last_page_of env).
Local Abbreviation found_in := (Forge.found_in env).
Local Abbreviation round := (Forge.round env config).
Local Abbreviation no_match := (Forge.no_match env).
Local Abbreviation fails_as_ForgeError := (Forge.fails_as_ForgeError env).

(** Decoding raises exactly for a payload that is JSON but not an
    object. *)
Lemma parse_raises run e :
  _parse_event_inputs env run = inl e <-> payload_not_object run e.
Proof.
  unfold _parse_event_inputs, Forge.payload_not_object. split.
  - destruct (r_event_payload run) as [[|b|z|text]|]; cbn [Py.get_or];
      try discriminate.
    + destruct (Py.truthy (Py.SBool b)); discriminate.
    + destruct (Py.truthy (Py.SInt z)); discriminate.
    + destruct text as [|c text]; [discriminate|].
      cbn [Py.truthy Py.str_truthy negb].
      destruct (json_loads env (String c text)) as [payload|type_name|] eqn:Ej;
        [|intros [= <-]; by exists (String c text), type_name|discriminate].
      destruct (Py.get "inputs" payload) as [m|]; [|discriminate].
      destruct (member_truthy m); [|discriminate].
      destruct m; discriminate.
  - intros (text & type_name & Hp & Hne & Hj & ->). rewrite Hp.
    cbn [Py.get_or]. destruct text as [|c text]; [done|].
    cbn [Py.truthy Py.str_truthy negb]. by rewrite Hj.
Qed.

Lemma skipped_iff run expected inputs :
  has_nonempty expected ->
  _parse_event_inputs env run = inr inputs ->
  (inputs = [] \/ _matches_inputs inputs expected = false)
  <-> ~ run_matches run expected.
Proof.
  intros (key & s & Hin & Hs) Hp. unfold Forge.run_matches. split.
  - intros [Hnil|Hf] (i & Hi & Hm); rewrite Hp in Hi; injection Hi as <-.
    + subst inputs. by apply (matches_needs_inputs _ _ _ Hin Hs).
    + apply matches_iff in Hm. congruence.
  - intros Hn. right.
    destruct (_matches_inputs inputs expected) eqn:E; [|done].
    exfalso. apply Hn. exists inputs. split; [done|]. by apply matches_iff.
Qed.

(** What [_find_run_by_inputs] returns, in terms of the listed runs. *)
Lemma find_first runs expected :
  has_nonempty expected ->
  match _find_run_by_inputs env runs expected with
  | inr (Some run) =>
      exists before after,
        runs = before ++ run :: after
        /\ run_matches run expected
        /\ forall x, In x before -> passed_over x expected
  | inr None => forall x, In x runs -> passed_over x expected
  | inl e =>
      exists before run after,
        runs = before ++ run :: after
        /\ payload_not_object run e
        /\ forall x, In x before -> passed_over x expected
  end.
Proof.
  intros Hne.
  induction runs as [|run rest IH]; cbn [_find_run_by_inputs]; [by intros ? []|].
  destruct (_parse_event_inputs env run) as [e|inputs] eqn:Ep.
  { exists [], run, rest. split; [done|]. split; [by apply parse_raises|].
    by intros ? []. }
  assert (Hskip : inputs = [] \/ _matches_inputs inputs expected = false ->
                  passed_over run expected).
  { intros H. split; [by exists inputs|].
    by apply (skipped_iff run expected inputs Hne Ep). }
  assert (Hcons : passed_over run expected ->
            match _find_run_by_inputs env rest expected with
            | inr (Some hit) =>
                exists before after,
                  run :: rest = before ++ hit :: after
                  /\ run_matches hit expected
                  /\ forall x, In x before -> passed_over x expected
            | inr None => forall x, In x (run :: rest) -> passed_over x expected
            | inl e =>
                exists before r after,
                  run :: rest = before ++ r :: after
                  /\ payload_not_object r e
                  /\ forall x, In x before -> passed_over x expected
            end).
  { intros Hp.
    destruct (_find_run_by_inputs env rest expected) as [e|[hit|]].
    - destruct IH as (before & r & after & -> & Hr & Hb).
      exists (run :: before), r, after. split; [done|]. split; [done|].
      intros x [<-|Hx]; [done | by apply Hb].
    - destruct IH as (before & after & -> & Hm & Hb).
      exists (run :: before), after. split; [done|]. split; [done|].
      intros x [<-|Hx]; [done | by apply Hb].
    - intros x [<-|Hx]; [done | by apply IH]. }
  destruct inputs as [|kv inputs].
  - apply Hcons, Hskip. by left.
  - destruct (_matches_inputs (kv :: inputs) expected) eqn:Em.
    + exists [], rest. split; [done|]. split; [|by intros ? []].
      exists (kv :: inputs). split; [done|]. by apply matches_iff.
    + apply Hcons, Hskip. by right.
Qed.

Lemma find_none runs expected :
  has_nonempty expected ->
  (forall x, In x runs -> passed_over x expected) ->
  _find_run_by_inputs env runs expected = inr None.
Proof.
  intros Hne. induction runs as [|run rest IH]; intros H; [done|].
  cbn [_find_run_by_inputs].
  destruct (H run (or_introl eq_refl)) as [[inputs Hp] Hn]. rewrite Hp.
  apply (skipped_iff run expected inputs Hne Hp) in Hn.
  assert (Hrest : _find_run_by_inputs env rest expected = inr None).
  { apply IH. intros x Hx. apply H. by right. }
  destruct inputs as [|kv inputs]; [exact Hrest|].
  destruct Hn as [Hn|Hn]; [done|]. by rewrite Hn.
Qed.

Lemma find_raises before run after expected e :
  has_nonempty expected ->
  (forall x, In x before -> passed_over x expected) ->
  payload_not_object run e ->
  _find_run_by_inputs env (before ++ run :: after) expected = inl e.
Proof.
  intros Hne Hb Hr. induction before as [|b before IH].
  - cbn [app _find_run_by_inputs].
    by rewrite (proj2 (parse_raises run e) Hr).
  - cbn [app _find_run_by_inputs].
    destruct (Hb b (or_introl eq_refl)) as [[inputs Hp] Hn]. rewrite Hp.
    apply (skipped_iff b expected inputs Hne Hp) in Hn.
    assert (Hrest : _find_run_by_inputs env (before ++ run :: after) expected
                    = inl e).
    { apply IH. intros x Hx. apply Hb. by right. }
    destruct inputs as [|kv inputs]; [exact Hrest|].
    destruct Hn as [Hn|Hn]; [done|]. by rewrite Hn.
Qed.

Lemma find_hit before run after expected :
  has_nonempty expected ->
  (forall x, In x before -> passed_over x expected) ->
  run_matches run expected ->
  _find_run_by_inputs env (before ++ run :: after) expected = inr (Some run).
Proof.
  intros Hne Hb Hr. induction before as [|b before IH].
  - cbn [app _find_run_by_inputs].
    destruct Hr as (inputs & Hp & Hm). rewrite Hp.
    destruct inputs as [|kv inputs].
    + destruct Hne as (key & s & Hin & Hs).
      by destruct (matches_needs_inputs _ _ _ Hin Hs).
    + by rewrite (proj2 (matches_iff _ _) Hm).
  - cbn [app _find_run_by_inputs].
    destruct (Hb b (or_introl eq_refl)) as [[inputs Hp] Hn]. rewrite Hp.
    apply (skipped_iff b expected inputs Hne Hp) in Hn.
    assert (Hrest : _find_run_by_inputs env (before ++ run :: after) expected
                    = inr (Some run)).
    { apply IH. intros x Hx. apply Hb. by right. }
    destruct inputs as [|kv inputs]; [exact Hrest|].
    destruct Hn as [Hn|Hn]; [done|]. by rewrite Hn.
Qed.

(** The error raised for a payload that is not an object is not a
    [ForgeError]. *)
Lemma not_object_uncaught run e :
  payload_not_object run e -> Exc.isinstance e Exc.ForgeError = false.
Proof. by intros (text & type_name & _ & _ & _ & ->). Qed.

(** The three fields are read in the order [total_count], [total],
    [count]. *)
Lemma reports_total_extract r t :
  reports_total r t -> _extract_total_count env r = Some t.
Proof.
  intros [Ht H]. unfold _extract_total_count, Py.or_else.
  assert (Htruthy : Py.truthy (Py.SInt t) = true).
  { cbn [Py.truthy]. apply negb_true_iff. by apply Z.eqb_neq. }
  destruct H as [H|[[H1 H]|(H1 & H2 & H)]]; unfold Forge.falsy in *.
  - rewrite H. cbn [Py.get_or]. by rewrite !Htruthy.
  - rewrite H1, H. cbn [Py.get_or]. by rewrite Htruthy.
  - rewrite H1. cbv iota. rewrite H2, H. reflexivity.
Qed.

Lemma request_json_eq method url data w :
  request_json env method url data w =
  (match api env (n_api w) with
   | ApiOk r => Eff.Ok r
   | ApiForgeError msg => Eff.Raised (Exc.Exn Exc.ForgeError msg)
   | ApiRaises e => Eff.Raised e
   end, tick_api (with_event (EvRequest method url data) w)).
Proof. unfold request_json. by destruct (api env (n_api w)). Qed.

Lemma round_eq expected w :
  round expected w =
  match api env (n_api w) with
  | ApiForgeError _ => (Eff.Ok None, listed 1 w)
  | ApiRaises e => (caught e, listed 1 w)
  | ApiOk r1 =>
      match found_in r1 expected with
      | inl e => (caught e, listed 1 w)
      | inr (Some s) => (Eff.Ok (Some s), listed 1 w)
      | inr None =>
          match last_page_of r1 with
          | None => (Eff.Ok None, listed 1 w)
          | Some p =>
              match api env (S (n_api w)) with
              | ApiForgeError _ => (Eff.Ok None, listed p (listed 1 w))
              | ApiRaises e => (caught e, listed p (listed 1 w))
              | ApiOk r2 =>
                  (match found_in r2 expected with
                   | inl e => caught e
                   | inr found => Eff.Ok found
                   end, listed p (listed 1 w))
              end
          end
      end
  end.
Proof.
  unfold Forge.round, sync_search_round, Eff.try_except, Forge.found_in,
    Forge.last_page_of, Forge.caught.
  unfold Eff.bind at 1. rewrite request_json_eq.
  destruct (api env (n_api w)) as [r1|msg|e]; [|reflexivity|].
  2:{ cbn [Eff.select]. by destruct (Exc.isinstance e Exc.ForgeError). }
  unfold Eff.bind at 1.
  destruct (_find_run_by_inputs env (runs_of r1) expected) as [e|[run|]];
    cbn [Eff.lift]; unfold Eff.raise, Eff.ret.
  - cbn [Eff.select]. by destruct (Exc.isinstance e Exc.ForgeError).
  - reflexivity.
  - destruct (_extract_total_count env r1) as [t|]; [|reflexivity].
    destruct (negb (t =? 0) && (20 <? t)); [|reflexivity].
    unfold Eff.bind at 1. rewrite request_json_eq.
    change (n_api (tick_api (with_event (EvRequest "GET" (runs_url config 20 1) None) w)))
      with (S (n_api w)).
    destruct (api env (S (n_api w))) as [r2|msg|e]; [|reflexivity|].
    2:{ cbn [Eff.select]. by destruct (Exc.isinstance e Exc.ForgeError). }
    unfold Eff.bind.
    destruct (_find_run_by_inputs env (runs_of r2) expected) as [e|[run|]];
      cbn [Eff.lift]; unfold Eff.raise, Eff.ret; [|reflexivity|reflexivity].
    cbn [Eff.select]. by destruct (Exc.isinstance e Exc.ForgeError).
Qed.

Lemma sync_search_step rounds expected w :
  sync_search env (S rounds) config expected 20 w =
  match round expected w with
  | (Eff.Ok (Some s), w') => (Eff.Ok s, w')
  | (Eff.Ok None, w') =>
      sync_search env rounds config expected 20 (with_event (EvSleep 1) w')
  | (Eff.Raised e, w') => (Eff.Raised e, w')
  | (Eff.OutOfFuel, w') => (Eff.OutOfFuel, w')
  end.
Proof.
  cbn [sync_search]. fold (round expected). unfold Eff.bind at 1.
  destruct (round expected w) as [[[s|]|e|] w']; reflexivity.
Qed.

Lemma found_none expected k r :
  has_nonempty expected -> no_match expected ->
  api env k = ApiOk r -> found_in r expected = inr None.
Proof.
  intros Hne Hno Hk. unfold Forge.found_in.
  by rewrite (find_none _ _ Hne (Hno k r Hk)).
Qed.

Lemma caught_ForgeError k e :
  fails_as_ForgeError -> api env k = ApiRaises e -> caught e = Eff.Ok None.
Proof. intros Hf Hk. unfold caught. by rewrite (Hf k e Hk). Qed.

(** What a round leaves behind when it finds nothing. *)
Lemma round_none expected w :
  has_nonempty expected -> no_match expected -> fails_as_ForgeError ->
  exists w' added,
    round expected w = (Eff.Ok None, w')
    /\ trace w' = trace w ++ list_page 1 :: added
    /\ forallb is_request added = true /\ (length added <= 1)%nat.
Proof.
  intros Hne Hno Hf. rewrite round_eq.
  assert (Htwo : forall p,
            trace (listed p (listed 1 w)) = trace w ++ [list_page 1; list_page p]).
  { intros p. unfold Forge.listed, tick_api, with_event. cbn [trace].
    by rewrite <- app_assoc. }
  assert (Hone : exists w' added,
            (Eff.Ok None, listed 1 w) = (@Eff.Ok (option string) None, w')
            /\ trace w' = trace w ++ list_page 1 :: added
            /\ forallb is_request added = true /\ (length added <= 1)%nat).
  { exists (listed 1 w), []. split; [reflexivity|]. split; [reflexivity|].
    split; [reflexivity | cbn; lia]. }
  destruct (api env (n_api w)) as [r1|msg|e] eqn:E1; [|exact Hone|].
  2:{ by rewrite (caught_ForgeError _ _ Hf E1). }
  rewrite (found_none _ _ _ Hne Hno E1).
  destruct (last_page_of r1) as [p|]; [|exact Hone].
  exists (listed p (listed 1 w)), [list_page p].
  split; [|split; [apply Htwo | split; [reflexivity | cbn; lia]]].
  destruct (api env (S (n_api w))) as [r2|msg|e] eqn:E2.
  - by rewrite (found_none _ _ _ Hne Hno E2).
  - reflexivity.
  - by rewrite (caught_ForgeError _ _ Hf E2).
Qed.

Lemma filter_app_length {A} (f : A -> bool) (l1 l2 : list A) :
  length (List.filter f (l1 ++ l2))
  = (length (List.filter f l1) + length (List.filter f l2))%nat.
Proof. by rewrite List.filter_app, length_app. Qed.

Lemma pauses_app l1 l2 : pauses (l1 ++ l2) = (pauses l1 + pauses l2)%nat.
Proof. apply filter_app_length. Qed.

Lemma requests_app l1 l2 :
  requests (l1 ++ l2) = (requests l1 + requests l2)%nat.
Proof. apply filter_app_length. Qed.

Lemma pauses_requests_only added :
  forallb is_request added = true -> pauses added = 0%nat.
Proof.
  unfold pauses. induction added as [|e added IH]; [done|].
  cbn [forallb]. intros [He Hr]%andb_prop. destruct e; try done.
  cbn [List.filter is_pause]. by apply IH.
Qed.

Lemma requests_le_length added : (requests added <= length added)%nat.
Proof. apply List.filter_length_le. Qed.

(** The search that finds nothing: [rounds] pauses of one second, at most
    two listings a round, and the empty string. *)
Lemma sync_search_none expected (rounds : nat) : forall w,
  has_nonempty expected -> no_match expected -> fails_as_ForgeError ->
  exists w',
    sync_search env rounds config expected 20 w = (Eff.Ok "", w')
    /\ pauses (trace w') = (pauses (trace w) + rounds)%nat
    /\ (requests (trace w') <= requests (trace w) + 2 * rounds)%nat.
Proof.
  induction rounds as [|rounds IH]; intros w Hne Hno Hf.
  - exists w. repeat split; [lia | lia].
  - rewrite sync_search_step.
    destruct (round_none expected w Hne Hno Hf)
      as (w1 & added & Hr & Ht & Ha & Hl).
    rewrite Hr.
    destruct (IH (with_event (EvSleep 1) w1) Hne Hno Hf) as (w' & Hs & Hp & Hq).
    exists w'. split; [exact Hs|].
    unfold with_event in Hp, Hq. cbn [trace] in Hp, Hq. rewrite Ht in Hp, Hq.
    rewrite !pauses_app in Hp. rewrite !requests_app in Hq.
    change (pauses (list_page 1 :: added)) with (pauses added) in Hp.
    change (pauses [EvSleep 1]) with 1%nat in Hp.
    change (requests (list_page 1 :: added)) with (S (requests added)) in Hq.
    change (requests [EvSleep 1]) with 0%nat in Hq.
    rewrite (pauses_requests_only added Ha) in Hp.
    pose proof (requests_le_length added).
    split; lia.
Qed.

(** A round ends the search with an exception that [except ForgeError]
    does not accept, raised by the first listing or by the decoding of a
    run listed on the first page. *)
Lemma round_raises expected w e :
  has_nonempty expected ->
  (api env (n_api w) = ApiRaises e /\ Exc.isinstance e Exc.ForgeError = false)
  \/ (exists r1 before run after,
        api env (n_api w) = ApiOk r1
        /\ runs_of r1 = before ++ run :: after
        /\ (forall x, In x before -> passed_over x expected)
        /\ payload_not_object run e) ->
  round expected w = (Eff.Raised e, listed 1 w).
Proof.
  intros Hne H. rewrite round_eq.
  destruct H as [[Hr He]|(r1 & before & run & after & Hr & Hruns & Hb & Hp)];
    rewrite Hr.
  - unfold caught. by rewrite He.
  - unfold Forge.found_in. rewrite Hruns, (find_raises _ _ _ _ _ Hne Hb Hp).
    unfold caught. by rewrite (not_object_uncaught _ _ Hp).
Qed.

Variable branch commit_sha : string.
Variable force : bool.

Local Abbreviation expected_inputs :=
  (sync_inputs config branch commit_sha force).
Local Abbreviation sync_dispatch := (Forge.sync_dispatch config expected_inputs).
Local Abbreviation dispatched := (Forge.dispatched config expected_inputs).

Lemma expected_has_nonempty : has_nonempty expected_inputs.
Proof.
  exists "force", (lower_bool force). split.
  - unfold sync_inputs. cbn. tauto.
  - by destruct force.
Qed.

Lemma trigger_sync_eq w r0 :
  api env (n_api w) = ApiOk r0 ->
  trigger_sync_workflow env config branch commit_sha force w =
  sync_search env 3 config expected_inputs 20 (dispatched w).
Proof.
  intros Hapi. unfold trigger_sync_workflow.
  unfold Eff.bind at 1. unfold trigger_workflow_dispatch, Eff.try_except.
  rewrite request_json_eq, Hapi. reflexivity.
Qed.

(** An exception that the first round lets through ends the search. *)
Lemma first_listing_raises w r0 e :
  api env (n_api w) = ApiOk r0 ->
  (api env (S (n_api w)) = ApiRaises e
   /\ Exc.isinstance e Exc.ForgeError = false)
  \/ (exists r1 before run after,
        api env (S (n_api w)) = ApiOk r1
        /\ runs_of r1 = before ++ run :: after
        /\ (forall x, In x before -> passed_over x expected_inputs)
        /\ payload_not_object run e) ->
  trigger_sync_workflow env config branch commit_sha force w
  = (Eff.Raised e, listed 1 (dispatched w)).
Proof.
  intros H0 H. rewrite (trigger_sync_eq _ _ H0), sync_search_step.
  by rewrite (round_raises expected_inputs (dispatched w) e
                expected_has_nonempty H).
Qed.

Lemma round_trace expected w :
  exists added, trace (snd (round expected w)) = trace w ++ list_page 1 :: added.
Proof.
  rewrite round_eq.
  assert (Htwo : forall p,
            trace (listed p (listed 1 w)) = trace w ++ [list_page 1; list_page p]).
  { intros p. unfold Forge.listed, tick_api, with_event. cbn [trace].
    by rewrite <- app_assoc. }
  destruct (api env (n_api w)) as [r1|msg|e]; [|by exists []|by exists []].
  destruct (found_in r1 expected) as [e|[s|]]; [by exists []|by exists []|].
  destruct (last_page_of r1) as [p|]; [|by exists []].
  destruct (api env (S (n_api w))) as [r2|msg|e]; exists [list_page p];
    apply Htwo.
Qed.

Lemma sync_search_trace expected (rounds : nat) : forall w,
  exists rest,
    trace (snd (sync_search env rounds config expected 20 w)) = trace w ++ rest.
Proof.
  induction rounds as [|rounds IH]; intros w.
  - exists []. cbn. by rewrite app_nil_r.
  - rewrite sync_search_step.
    destruct (round_trace expected w) as (added & Ht).
    destruct (round expected w) as [[[s|]|e|] w1]; cbn [snd] in Ht |- *;
      try (eexists; exact Ht).
    destruct (IH (with_event (EvSleep 1) w1)) as (rest & Hr).
    rewrite Hr. unfold with_event. cbn [trace]. rewrite Ht.
    eexists. rewrite <- !app_assoc. reflexivity.
Qed.


End Env.



End SyncSpec.
(** * The profile store: lookups after updates *)

Module TunnelStoreSpec.
Import Tunnel TunnelStore.

Lemma keys_set_new {V} k (v : V) d :
  Py.get k d = None -> Py.keys (Py.set k v d) = Py.keys d ++ [k].
Proof.
  induction d as [|[k' v'] d IH]; cbn; [done|].
  destruct (String.eqb_spec k k') as [->|Hne]; [done|].
  intros H. cbn. f_equal. by apply IH.
Qed.

Lemma keys_set_old {V} k (v v0 : V) d :
  Py.get k d = Some v0 -> Py.keys (Py.set k v d) = Py.keys d.
Proof.
  induction d as [|[k' v'] d IH]; cbn; [done|].
  destruct (String.eqb_spec k k') as [->|Hne]; [done|].
  intros H. cbn. f_equal. by apply IH.
Qed.

Lemma get_None_keys {V} k (d : Py.dict V) :
  Py.get k d = None <-> ~ In k (Py.keys d).
Proof.
  induction d as [|[k' v'] d IH]; cbn; [tauto|].
  destruct (String.eqb_spec k k') as [->|Hne].
  - split; [done|]. intros H. exfalso. apply H. by left.
  - rewrite IH. split.
    + intros H [Heq|Hin]; [congruence | done].
    + intros H Hin. apply H. by right.
Qed.


Lemma In_del {V} k (d : Py.dict V) x : In x (Py.del k d) -> In x d.
Proof.
  induction d as [|[k' v'] d IH]; cbn; [done|].
  destruct (String.eqb_spec k k') as [->|Hne]; cbn.
  - by right.
  - intros [<-|Hin]; [by left | right; by apply IH].
Qed.

Lemma In_set_unique {V} k (v : V) d x :
  List.NoDup (Py.keys d) ->
  In x (Py.set k v d) -> x = (k, v) \/ (In x d /\ fst x <> k).
Proof.
  induction d as [|[k' v'] d IH]; cbn.
  - intros _ [<-|[]]. by left.
  - intros Hnd. apply List.NoDup_cons_iff in Hnd as [Hnotin Hnd].
    destruct (String.eqb_spec k k') as [->|Hne]; cbn.
    + intros [<-|Hin]; [by left|]. right. split; [by right|].
      intros Heq. apply Hnotin. rewrite <- Heq. by apply in_map.
    + intros [<-|Hin]; [right; split; [by left | cbn; congruence]|].
      destruct (IH Hnd Hin) as [->|[Hd Hk]]; [by left|].
      right. split; [by right | done].
Qed.

Lemma keys_del_unique {V} k (d : Py.dict V) :
  List.NoDup (Py.keys d) ->
  List.NoDup (Py.keys (Py.del k d)) /\ ~ In k (Py.keys (Py.del k d)).
Proof.
  induction d as [|[k' v'] d IH]; cbn.
  - intros _. split; [constructor | tauto].
  - intros Hnd. apply List.NoDup_cons_iff in Hnd as [Hnotin Hnd].
    destruct (String.eqb_spec k k') as [->|Hne]; cbn.
    + done.
    + destruct (IH Hnd) as [Hnd' Hk]. split.
      * apply List.NoDup_cons_iff. split; [|done].
        intros Hin. apply Hnotin. by apply (PyFacts.keys_del k).
      * intros [Heq|Hin]; [congruence | done].
Qed.

Lemma mem_true {V} k (d : Py.dict V) :
  Py.mem k d = true <-> In k (Py.keys d).
Proof.
  unfold Py.mem. destruct (Py.get k d) eqn:E.
  - split; [intros _; by apply (PyFacts.get_Some_key _ _ _ E) | done].
  - split; [done|]. intros Hin. by apply get_None_keys in E.
Qed.

Lemma empty_keyed dir : well_keyed (empty_config dir).
Proof. split; [constructor | intros ? ? []]. Qed.

Lemma add_bridge_keyed c p : well_keyed c -> well_keyed (add_bridge c p).
Proof.
  intros [Hu Hn]. split.
  - unfold names, add_bridge. cbn [bridges].
    destruct (Py.get (name p) (bridges c)) as [v0|] eqn:E.
    + by rewrite (keys_set_old _ _ _ _ E).
    + rewrite (keys_set_new _ _ _ E). apply List.NoDup_app; [done | |].
      * apply List.NoDup_cons; [by intros [] | constructor].
      * intros x Hx [<-|[]]. by apply get_None_keys in E.
  - intros k q Hin. cbn in Hin.
    destruct (In_set_unique _ _ _ _ Hu Hin) as [[= -> ->]|[Hd _]]; [done|].
    by apply Hn.
Qed.

Lemma remove_bridge_keyed c n :
  well_keyed c -> well_keyed (fst (remove_bridge c n)).
Proof.
  intros [Hu Hn]. unfold remove_bridge.
  destruct (Py.mem n (bridges c)); cbn; [|done]. split.
  - unfold names. cbn. by apply keys_del_unique.
  - intros k q Hin. cbn in Hin. apply Hn. by apply (In_del n).
Qed.

Lemma run_ops_keyed ops : forall c, well_keyed c -> well_keyed (run_ops ops c).
Proof.
  induction ops as [|o ops IH]; intros c Hc; [done|].
  cbn. apply IH. destruct o; [by apply add_bridge_keyed|].
  by apply remove_bridge_keyed.
Qed.

(** X1. After any sequence of [add_bridge] and [remove_bridge] calls on an
    empty [TunnelConfig], no name is stored twice and every profile is
    stored under its own name, so that [list_bridges] lists each name
    once. *)
Theorem store_well_keyed (ops : list op) (dir : string) :
  let c := run_ops ops (empty_config dir) in
  List.NoDup (map name (list_bridges c))
  /\ forall k p, In (k, p) (bridges c) -> name p = k.
Proof.
  intros c. destruct (run_ops_keyed ops _ (empty_keyed dir)) as [Hu Hn].
  fold c in Hu, Hn. split; [|exact Hn].
  unfold list_bridges, Py.values. unfold names, Py.keys in Hu.
  replace (map name (map snd (bridges c))) with (map fst (bridges c)); [done|].
  rewrite map_map. apply map_ext_in. intros [k p] Hin. cbn.
  symmetry. by apply Hn.
Qed.

(** X2. [add_bridge] followed by a lookup: the added profile is returned
    under its (non-empty) name, every other name resolves as before, and
    the order of [list_bridges] is kept: a new name goes last, an existing
    name keeps its place. *)
Theorem add_bridge_lookup (c : TunnelConfig) (p : BridgeProfile) :
  name p <> "" ->
  get_bridge (add_bridge c p) (Some (name p)) = Some p
  /\ (forall n, n <> "" -> n <> name p ->
        get_bridge (add_bridge c p) (Some n) = get_bridge c (Some n))
  /\ names (add_bridge c p)
     = (if Py.mem (name p) (bridges c) then names c
        else names c ++ [name p]).
Proof.
  intros Hname. split; [|split].
  - unfold get_bridge. cbn [opt_truthy].
    rewrite (TunnelSpec.str_truthy_ne _ Hname). cbn.
    apply PyFacts.get_set_eq.
  - intros n Hn Hne. unfold get_bridge. cbn [opt_truthy].
    rewrite (TunnelSpec.str_truthy_ne _ Hn). cbn.
    apply PyFacts.get_set_ne. congruence.
  - unfold names, Py.mem, add_bridge. cbn [bridges].
    destruct (Py.get (name p) (bridges c)) eqn:E.
    + by rewrite (keys_set_old _ _ _ _ E).
    + by rewrite (keys_set_new _ _ _ E).
Qed.

Lemma add_bridge_lookup_witness :
  get_bridge (add_bridge (empty_config "/home/u/.inspire") example_bridge)
    (Some "gpu") = Some example_bridge.
Proof.
  apply (add_bridge_lookup (empty_config "/home/u/.inspire") example_bridge).
  discriminate.
Defined.

(** X3. [remove_bridge] on a store built by the operations: it returns
    [False] exactly when the name is not stored, and then changes nothing;
    otherwise the name no longer resolves, every other name resolves as
    before, and the default moves only if the removed profile was the
    default, in which case it becomes the oldest remaining name (or [None]
    when nothing remains). *)
Theorem remove_bridge_lookup (ops : list op) (dir : string) (n : string) :
  let c := run_ops ops (empty_config dir) in
  let c' := fst (remove_bridge c n) in
  (snd (remove_bridge c n) = false <-> ~ In n (names c))
  /\ (snd (remove_bridge c n) = false -> c' = c)
  /\ ~ In n (names c')
  /\ (forall m, m <> n -> Py.get m (bridges c') = Py.get m (bridges c))
  /\ (default_bridge c <> Some n -> default_bridge c' = default_bridge c)
  /\ (In n (names c) -> default_bridge c = Some n ->
      default_bridge c' = hd_error (names c')).
Proof.
  intros c c'. subst c'.
  destruct (run_ops_keyed ops _ (empty_keyed dir)) as [Hu Hn]. fold c in Hu, Hn.
  unfold remove_bridge.
  destruct (Py.mem n (bridges c)) eqn:Em; cbn [fst snd].
  - apply mem_true in Em.
    split; [split; [done | intros H; by destruct H]|].
    split; [done|].
    split; [unfold names; cbn; by apply keys_del_unique|].
    split; [intros m Hm; cbn; apply PyFacts.get_del_ne; congruence|].
    split.
    + intros Hd. cbn. unfold default_is.
      destruct (default_bridge c) as [d|]; [|done].
      destruct (String.eqb_spec d n) as [->|]; [by destruct Hd | done].
    + intros _ Hd. cbn. unfold default_is. rewrite Hd, String.eqb_refl. done.
  - assert (Hnot : ~ In n (names c)).
    { intros Hin. apply mem_true in Hin. congruence. }
    split; [done|]. split; [done|]. split; [done|]. split; [done|].
    split; [done|]. intros Hin. by destruct Hnot.
Qed.

(** X4. The default is sticky: once a default is set, an operation changes
    it only by removing the default profile itself. *)
Theorem default_is_sticky (c : TunnelConfig) (o : op) (d : string) :
  default_bridge c = Some d ->
  o <> RemoveBridge d ->
  default_bridge (apply_op c o) = Some d.
Proof.
  intros Hd Ho. destruct o as [p|n]; cbn.
  - by rewrite Hd.
  - unfold remove_bridge. destruct (Py.mem n (bridges c)); cbn; [|done].
    unfold default_is. rewrite Hd.
    destruct (String.eqb_spec d n) as [->|]; [by destruct Ho | done].
Qed.

Lemma default_is_sticky_witness :
  default_bridge
    (apply_op (add_bridge (empty_config "/home/u/.inspire") (prof "a"))
       (AddBridge (prof "b")))
  = Some "a".
Proof.
  apply (default_is_sticky
           (add_bridge (empty_config "/home/u/.inspire") (prof "a"))
           (AddBridge (prof "b")) "a").
  - reflexivity.
  - discriminate.
Defined.

End TunnelStoreSpec.

(** * The log cache: what a fetch may touch *)

Module LogFrameSpec.
Import Forge LogFrame.

Section Env.
Variable env : environment.
Variable config : Config.

Section Rules.
Variable F : path -> Prop.
Variable J : string -> Prop.

Lemma confined_ret {A} (a : A) : confined F J (Eff.ret a).
Proof. intros w. by cbn. Qed.

Lemma confined_raise {A} e : confined F J (@Eff.raise world A e).
Proof. intros w. by cbn. Qed.

Lemma confined_bind {A B} (m : M A) (k : A -> M B) :
  confined F J m -> (forall a, confined F J (k a)) ->
  confined F J (Eff.bind m k).
Proof.
  intros Hm Hk w. unfold Eff.bind.
  destruct (Hm w) as (Hf & Hp & Hj).
  destruct (m w) as [[a|e|] w1]; cbn [fst snd] in *; [|done|done].
  destruct (Hk a w1) as (Hf' & Hp' & Hj').
  split; [done|]. split.
  - intros p Hn. by rewrite Hp', Hp.
  - intros j Hn. by rewrite Hj', Hj.
Qed.

Lemma confined_try_except {A} (m : M A) clauses :
  confined F J m ->
  Forall (fun kh => forall e, confined F J (snd kh e)) clauses ->
  confined F J (Eff.try_except m clauses).
Proof.
  intros Hm Hc w. unfold Eff.try_except.
  destruct (Hm w) as (Hf & Hp & Hj).
  destruct (m w) as [[a|e|] w1]; cbn [fst snd] in *; [done| |done].
  assert (Hsel : forall h, Eff.select clauses e = Some h -> confined F J h).
  { clear -Hc. induction Hc as [|[k h0] rest Hh _ IH]; cbn [Eff.select]; [done|].
    intros h. destruct (Exc.isinstance e k); [|by apply IH].
    intros [= <-]. apply Hh. }
  destruct (Eff.select clauses e) as [h|]; [|done].
  destruct (Hsel h eq_refl w1) as (Hf' & Hp' & Hj').
  split; [done|]. split.
  - intros p Hn. by rewrite Hp', Hp.
  - intros j Hn. by rewrite Hj', Hj.
Qed.

Lemma confined_try_finally {A} (m : M A) (fin : M unit) :
  confined F J m -> confined F J fin -> confined F J (Eff.try_finally m fin).
Proof.
  intros Hm Hfin w. unfold Eff.try_finally.
  destruct (Hm w) as (Hf & Hp & Hj).
  destruct (m w) as [[a|e|] w1]; cbn [fst snd] in *; [| |done].
  all: destruct (Hfin w1) as (Hf' & Hp' & Hj');
    destruct (fin w1) as [[[]|e'|] w2]; cbn [fst snd] in *; [| |done];
    (split; [done|]; split;
     [intros p Hn; by rewrite Hp', Hp | intros j Hn; by rewrite Hj', Hj]).
Qed.

Lemma confined_if {A} (b : bool) (m1 m2 : M A) :
  confined F J m1 -> confined F J m2 -> confined F J (if b then m1 else m2).
Proof. by destruct b. Qed.

(** Computations that change neither files nor job records. *)
Lemma confined_pure {A} (m : M A) :
  (forall w, fst (m w) <> Eff.OutOfFuel
             /\ files (snd (m w)) = files w /\ jobs (snd (m w)) = jobs w) ->
  confined F J m.
Proof.
  intros H w. destruct (H w) as (Hf & Hp & Hj).
  split; [done|]. by rewrite Hp, Hj.
Qed.

Lemma confined_time_time : confined F J (time_time env).
Proof. by apply confined_pure. Qed.

Lemma confined_sleep q : confined F J (sleep q).
Proof. by apply confined_pure. Qed.

Lemma confined_request_json method url data :
  confined F J (request_json env method url data).
Proof.
  apply confined_pure. intros w. unfold request_json.
  by destruct (api env (n_api w)).
Qed.

Lemma confined_path_exists p : confined F J (path_exists p).
Proof. by apply confined_pure. Qed.

Lemma confined_stat_size p : confined F J (stat_size p).
Proof.
  apply confined_pure. intros w. unfold stat_size.
  by destruct (files w !! p).
Qed.

Lemma confined_read_bytes p : confined F J (read_bytes p).
Proof.
  apply confined_pure. intros w. unfold read_bytes.
  by destruct (files w !! p).
Qed.

Lemma confined_get_job job_id : confined F J (get_job job_id).
Proof. by apply confined_pure. Qed.

Lemma confined_get_log_offset job_id : confined F J (get_log_offset job_id).
Proof.
  apply confined_pure. intros w. unfold get_log_offset.
  by destruct (jobs w !! job_id).
Qed.

Lemma confined_write_bytes p data : F p -> confined F J (write_bytes p data).
Proof.
  intros HF w. split; [done|]. split; [|done].
  intros q Hq. cbn. apply lookup_insert_ne. by intros ->.
Qed.

Lemma confined_append_bytes p data : F p -> confined F J (append_bytes p data).
Proof.
  intros HF w. split; [done|]. split; [|done].
  intros q Hq. cbn. apply lookup_insert_ne. by intros ->.
Qed.

Lemma confined_unlink p : F p -> confined F J (unlink p).
Proof.
  intros HF w. unfold unlink. destruct (files w !! p); [|done].
  split; [done|]. split; [|done].
  intros q Hq. cbn. apply lookup_delete_ne. by intros ->.
Qed.

Lemma confined_replace src dst : F src -> F dst -> confined F J (replace src dst).
Proof.
  intros Hs Hd w. unfold replace. destruct (files w !! src); [|done].
  split; [done|]. split; [|done].
  intros q Hq. cbn. rewrite lookup_insert_ne by (by intros ->).
  apply lookup_delete_ne. by intros ->.
Qed.

Lemma confined_wait job_id request_id dest :
  F dest -> confined F J (wait_for_log_artifact env config job_id request_id dest).
Proof.
  intros HF w. unfold wait_for_log_artifact.
  destruct (artifact env (n_artifact w)) as [data|e [data|]];
    (split; [done|]; split; [|done]); intros q Hq; cbn; try done;
    apply lookup_insert_ne; by intros ->.
Qed.

Lemma confined_prune dir days :
  (forall p, log_file_of dir p -> F p) ->
  confined F J (_prune_old_logs env dir days).
Proof.
  intros HF w. rewrite LogSpec.prune_eq. cbn [fst snd].
  split; [done|]. split; [|done].
  intros q Hq. cbn [files with_event with_files tick_clock].
  destruct (files w !! q) as [v|] eqn:E.
  - apply map_lookup_filter_Some. split; [done|].
    intros (Hdir & Hlog & _). apply Hq, HF. by split.
  - apply map_lookup_filter_None. by left.
Qed.

Lemma confined_set_log_offset job_id offset :
  J job_id -> confined F J (set_log_offset env job_id offset).
Proof.
  intros HJ w. unfold set_log_offset, Eff.modify, _save. cbn [fst snd].
  destruct (jobs w !! job_id) as [entry|]; [|done].
  destruct (cache_saved env (n_save w)); [|done].
  split; [done|]. split; [done|].
  intros k Hk. cbn. apply lookup_insert_ne. by intros ->.
Qed.

Lemma confined_reset_log_offset job_id :
  J job_id -> confined F J (reset_log_offset env job_id).
Proof.
  intros HJ w. unfold reset_log_offset, Eff.modify, _save. cbn [fst snd].
  destruct (jobs w !! job_id) as [entry|]; [|done].
  destruct (cache_saved env (n_save w)); [|done].
  split; [done|]. split; [done|].
  intros k Hk. cbn. apply lookup_insert_ne. by intros ->.
Qed.

Lemma confined_trigger_log job_id remote_log_path request_id start_offset :
  confined F J
    (trigger_log_retrieval_workflow env config job_id remote_log_path
       request_id start_offset).
Proof.
  unfold trigger_log_retrieval_workflow, trigger_workflow_dispatch.
  apply confined_bind; [|intros; apply confined_ret].
  apply confined_try_except; [apply confined_request_json|].
  repeat (apply List.Forall_cons;
    [intros ?; cbn [snd]; first [apply confined_raise | apply confined_ret]|]);
  apply List.Forall_nil.
Qed.

Lemma confined_new_request_id : confined F J (new_request_id env).
Proof. by apply confined_pure. Qed.

Lemma confined_incremental job_id remote_log_path cache_path start_offset :
  F cache_path -> F (temp_path_of env cache_path job_id) ->
  confined F J
    (fetch_remote_log_incremental env config job_id remote_log_path
       cache_path start_offset).
Proof.
  intros Hc Ht. unfold fetch_remote_log_incremental.
  apply confined_bind; [apply confined_new_request_id | intros request_id].
  apply confined_bind; [apply confined_trigger_log | intros _].
  apply confined_try_finally.
  - apply confined_bind; [by apply confined_wait | intros _].
    apply confined_bind; [apply confined_path_exists | intros present].
    apply confined_bind;
      [apply confined_if; [apply confined_stat_size | apply confined_ret]|].
    intros n. apply confined_if; [|apply confined_ret].
    apply confined_bind; [apply confined_path_exists | intros cp].
    apply confined_if.
    + apply confined_bind; [apply confined_read_bytes | intros data].
      apply confined_bind; [by apply confined_append_bytes | intros _].
      apply confined_ret.
    + apply confined_bind; [by apply confined_replace | intros _].
      apply confined_ret.
  - apply confined_bind; [apply confined_path_exists | intros present].
    apply confined_if; [|apply confined_ret].
    apply confined_try_except; [by apply confined_unlink|].
    repeat (apply List.Forall_cons;
      [intros ?; cbn [snd]; first [apply confined_raise | apply confined_ret]|]);
    apply List.Forall_nil.
Qed.

Lemma confined_full job_id remote_log_path cache_path refresh :
  F cache_path -> (forall p, log_file_of (fst cache_path) p -> F p) ->
  confined F J
    (fetch_remote_log_via_bridge env config job_id remote_log_path cache_path
       refresh).
Proof.
  intros Hc Hl. unfold fetch_remote_log_via_bridge.
  apply confined_bind; [apply confined_path_exists | intros present].
  apply confined_if; [apply confined_ret|].
  apply confined_bind; [apply confined_new_request_id | intros request_id].
  apply confined_bind; [apply confined_trigger_log | intros _].
  apply confined_bind; [by apply confined_wait | intros _].
  apply confined_bind; [by apply confined_prune | intros _].
  apply confined_ret.
Qed.

Lemma confined_handlers :
  Forall (fun kh : Exc.cls * (Exc.exn -> M unit) =>
            forall e, confined F J (snd kh e)) fetch_handlers.
Proof.
  unfold fetch_handlers, _handle_error, Eff.sys_exit.
  repeat (apply List.Forall_cons;
    [intros ?; cbn [snd]; first [apply confined_raise | apply confined_ret]|]);
  apply List.Forall_nil.
Qed.

Lemma confined_logs_fetch job_id remote_log_path cache_path refresh :
  F cache_path -> F (temp_path_of env cache_path job_id) ->
  (forall p, log_file_of (fst cache_path) p -> F p) -> J job_id ->
  confined F J
    (logs_fetch env config job_id remote_log_path cache_path refresh).
Proof.
  intros Hc Ht Hl HJ. unfold logs_fetch.
  apply confined_bind;
    [apply confined_if; [apply confined_ret | apply confined_get_log_offset]|].
  intros stored.
  apply confined_bind; [apply confined_path_exists | intros present].
  apply confined_bind.
  { apply confined_if; [|apply confined_ret].
    apply confined_bind; [by apply confined_reset_log_offset | intros _].
    apply confined_ret. }
  intros current_offset.
  apply confined_bind; [apply confined_path_exists | intros present'].
  apply confined_if; [|apply confined_if; [|apply confined_ret]].
  - apply confined_try_except; [|apply confined_handlers].
    apply confined_bind; [by apply confined_incremental | intros r].
    by apply confined_set_log_offset.
  - apply confined_try_except; [|apply confined_handlers].
    apply confined_bind; [by apply confined_full | intros _].
    apply confined_bind; [apply confined_path_exists | intros p].
    apply confined_if; [|apply confined_ret].
    apply confined_bind; [apply confined_stat_size | intros n].
    by apply confined_set_log_offset.
Qed.

End Rules.

(** X5. [fetch_remote_log_incremental], whatever the forge and the poller
    answer and whether it returns or raises, changes no file other than
    the cache file and its temporary download, and no job record; once the
    dispatch has been accepted the temporary download does not exist when
    it ends; and when the dispatch is refused no file is changed at all. *)
Theorem incremental_fetch_confined job_id remote_log_path cache_path
    start_offset (w : world) :
  let temp := temp_path_of env cache_path job_id in
  let res := fetch_remote_log_incremental env config job_id remote_log_path
               cache_path start_offset w in
  confined (fun p => p = cache_path \/ p = temp) (fun _ => False)
    (fetch_remote_log_incremental env config job_id remote_log_path
       cache_path start_offset)
  /\ (forall r, api env (n_api w) = ApiOk r -> files (snd res) !! temp = None)
  /\ (forall msg, api env (n_api w) = ApiForgeError msg ->
        files (snd res) = files w).
Proof.
  intros temp res. split; [apply confined_incremental; [by left | by right]|].
  subst res. unfold fetch_remote_log_incremental. split.
  - intros r Hapi.
    rewrite (LogSpec.bind_ok _ _ _ _ _ (LogSpec.new_request_id_eq env _)).
    rewrite (LogSpec.bind_ok _ _ _ _ _
               (LogSpec.trigger_log_eq env config _ _ _ _ (tick_clock w) _ Hapi)).
    fold temp. unfold Eff.try_finally.
    match goal with |- context [match ?m ?s with _ => _ end] =>
      destruct (m s) as [[a|e|] w1] eqn:Ebody end.
    3:{ exfalso.
        match type of Ebody with ?m ?s = _ =>
          assert (Hc : confined (fun _ => True) (fun _ => True) m) end.
        { apply confined_bind; [by apply confined_wait | intros _].
          apply confined_bind; [apply confined_path_exists | intros present].
          apply confined_bind;
            [apply confined_if; [apply confined_stat_size | apply confined_ret]|].
          intros n. apply confined_if; [|apply confined_ret].
          apply confined_bind; [apply confined_path_exists | intros cp].
          apply confined_if.
          + apply confined_bind; [apply confined_read_bytes | intros data].
            apply confined_bind; [by apply confined_append_bytes | intros _].
            apply confined_ret.
          + apply confined_bind; [by apply confined_replace | intros _].
            apply confined_ret. }
        match type of Ebody with ?m ?s = _ =>
          destruct (Hc s) as (Hf & _) end.
        rewrite Ebody in Hf. by apply Hf. }
    all: fold (cleanup temp);
      destruct (files w1 !! temp) as [data|] eqn:Et;
      [rewrite (LogSpec.cleanup_present _ _ _ Et); cbn [snd files with_files];
       apply lookup_delete_eq
      |rewrite (LogSpec.cleanup_absent _ _ Et); cbn [snd]; exact Et].
  - intros msg Hapi.
    rewrite (LogSpec.bind_ok _ _ _ _ _ (LogSpec.new_request_id_eq env _)).
    destruct (LogSpec.trigger_log_cases env config job_id remote_log_path
                (Forge.request_id_at env w) start_offset (tick_clock w))
      as [[r Hr]|[e He]].
    + cbn [n_api tick_clock] in Hr. congruence.
    + rewrite (LogSpec.bind_raised _ _ _ _ _ He). reflexivity.
Qed.

(** X6. [fetch_remote_log_via_bridge], whatever the forge and the poller
    answer and whether it returns or raises, changes no file other than
    the cache file and the [*.log] files of the cache file's directory
    (which the pruning step may delete), and no job record. *)
Theorem full_fetch_confined job_id remote_log_path cache_path refresh :
  confined
    (fun p => p = cache_path \/ log_file_of (fst cache_path) p)
    (fun _ => False)
    (fetch_remote_log_via_bridge env config job_id remote_log_path cache_path
       refresh).
Proof. apply confined_full; [by left | intros p Hp; by right]. Qed.


End Env.
End LogFrameSpec.

(** * [inspire job logs]: how a fetch fails *)

Module LogExitSpec.
Import Forge LogExit.

Section Env.
Variable env : environment.
Variable config : Config.

Lemma trigger_log_refused job_id remote_log_path request_id start_offset w msg :
  api env (n_api w) = ApiForgeError msg ->
  trigger_log_retrieval_workflow env config job_id remote_log_path request_id
    start_offset w =
  (Eff.Raised (refused msg),
   tick_api (with_event
               (Forge.log_dispatch config job_id remote_log_path request_id
                  start_offset) w)).
Proof.
  intros Hapi.
  unfold trigger_log_retrieval_workflow, trigger_workflow_dispatch,
    Eff.try_except, Eff.bind, request_json.
  rewrite Hapi. reflexivity.
Qed.

(** A request that times out while the response is read: the
    [TimeoutError] is not rewrapped. *)
Lemma trigger_log_timed_out job_id remote_log_path request_id start_offset w
    msg :
  api env (n_api w) = ApiRaises (Exc.Exn Exc.TimeoutError msg) ->
  trigger_log_retrieval_workflow env config job_id remote_log_path request_id
    start_offset w =
  (Eff.Raised (Exc.Exn Exc.TimeoutError msg),
   tick_api (with_event
               (Forge.log_dispatch config job_id remote_log_path request_id
                  start_offset) w)).
Proof.
  intros Hapi.
  unfold trigger_log_retrieval_workflow, trigger_workflow_dispatch,
    Eff.try_except, Eff.bind, request_json.
  rewrite Hapi. reflexivity.
Qed.

Lemma try_raised {S A} (m : Eff.M S A) clauses w e w' :
  m w = (Eff.Raised e, w') ->
  Eff.try_except m clauses w =
  match Eff.select clauses e with
  | Some h => h w'
  | None => (Eff.Raised e, w')
  end.
Proof. intros H. unfold Eff.try_except. by rewrite H. Qed.

(** The fetch of a first retrieval is the full-fetch branch, run from a
    state with the same files and the same counters. *)
Lemma first_fetch job_id remote cache_path refresh w :
  files w !! cache_path = None ->
  exists w0,
    logs_fetch env config job_id remote cache_path refresh w
    = Forge.full_branch env config job_id remote cache_path refresh w0
    /\ files w0 = files w /\ n_api w0 = n_api w
    /\ n_clock w0 = n_clock w /\ n_artifact w0 = n_artifact w
    /\ trace w0 = trace w.
Proof.
  intros Hnone.
  destruct refresh.
  { exists w. split; [|done]. apply LogSpec.logs_fetch_full_branch. by left. }
  destruct (Z.lt_ge_cases 0 (stored_offset w job_id)) as [Hpos|Hle].
  - exists (store_offset env job_id 0 None w).
    split; [by apply LogSpec.logs_fetch_reset|].
    by rewrite LogSpec.files_store, LogSpec.n_api_store,
      LogSpec.n_clock_store, LogSpec.n_artifact_store, LogSpec.trace_store.
  - exists w. split; [|done]. apply LogSpec.logs_fetch_full_branch. by right.
Qed.

(** The full-fetch branch when the dispatch raises [e]. *)
Lemma full_branch_dispatch_raised job_id remote cache_path refresh w e :
  files w !! cache_path = None ->
  trigger_log_retrieval_workflow env config job_id remote
    (Forge.request_id_at env w) 0 (tick_clock w)
  = (Eff.Raised e,
     tick_api (with_event
                 (Forge.log_dispatch config job_id remote
                    (Forge.request_id_at env w) 0) (tick_clock w))) ->
  exists w',
    Forge.full_branch env config job_id remote cache_path refresh w
    = match Eff.select fetch_handlers e with
      | Some h => h w'
      | None => (Eff.Raised e, w')
      end
    /\ files w' = files w /\ jobs w' = jobs w.
Proof.
  intros Hnone Hraise. eexists. split.
  - unfold Forge.full_branch.
    erewrite try_raised.
    2:{ apply LogSpec.bind_raised. unfold fetch_remote_log_via_bridge.
        rewrite (LogSpec.bind_ok _ _ _ _ _ (LogSpec.path_exists_eq _ _)).
        rewrite (LogSpec.exists_none _ _ Hnone). cbn [andb].
        rewrite (LogSpec.bind_ok _ _ _ _ _ (LogSpec.new_request_id_eq env _)).
        apply LogSpec.bind_raised. exact Hraise. }
    reflexivity.
  - done.
Qed.

Lemma full_branch_failed job_id remote cache_path refresh w r e leftover :
  files w !! cache_path = None ->
  api env (n_api w) = ApiOk r ->
  artifact env (n_artifact w) = Failed e leftover ->
  exists w',
    Forge.full_branch env config job_id remote cache_path refresh w
    = match Eff.select fetch_handlers e with
      | Some h => h w'
      | None => (Eff.Raised e, w')
      end.
Proof.
  intros Hnone Hapi Hart. destruct leftover as [data|]; eexists.
  all: unfold Forge.full_branch.
  all: erewrite try_raised; [reflexivity|].
  all:
  apply LogSpec.bind_raised; unfold fetch_remote_log_via_bridge;
  rewrite (LogSpec.bind_ok _ _ _ _ _ (LogSpec.path_exists_eq _ _));
  rewrite (LogSpec.exists_none _ _ Hnone); cbn [andb];
  rewrite (LogSpec.bind_ok _ _ _ _ _ (LogSpec.new_request_id_eq env _));
  rewrite (LogSpec.bind_ok _ _ _ _ _
             (LogSpec.trigger_log_eq env config _ _ _ _ (tick_clock w) _ Hapi));
  apply LogSpec.bind_raised; unfold wait_for_log_artifact;
  cbn [n_artifact tick_api with_event tick_clock]; rewrite Hart;
  reflexivity.
Qed.


(** X9. In the fetch of [inspire job logs JOB_ID] (source lines 952 to
    1025 of [job.py]) without [--refresh]: with the cache file present and
    no positive offset recorded for the job (none has been stored, or it
    is 0), nothing is requested and nothing is changed; the fetch ends
    normally in the state it started in, so the cached copy is what is
    shown, whatever the remote log holds by now. *)
Theorem fetch_without_offset_is_idle job_id remote cache_path w old :
  files w !! cache_path = Some old ->
  stored_offset w job_id <= 0 ->
  logs_fetch env config job_id remote cache_path false w = (Eff.Ok tt, w).
Proof.
  intros Hold Hle.
  exact (LogSpec.logs_fetch_idle env config job_id remote cache_path w old
           Hold Hle).
Qed.

End Env.

Lemma fetch_without_offset_is_idle_witness :
  let w := world_with {[ example_cache := abc ]} (example_jobs None) in
  logs_fetch (env_log de) example_config "job-1" "/shared/work/logs/job-1.log"
    example_cache false w
  = (Eff.Ok tt, w).
Proof.
  intros w.
  apply (fetch_without_offset_is_idle (env_log de) example_config "job-1"
           "/shared/work/logs/job-1.log" example_cache w abc).
  - apply lookup_singleton_eq.
  - unfold stored_offset, w, world_with, example_jobs. cbn [jobs].
    rewrite lookup_singleton_eq. cbn. lia.
Defined.


End LogExitSpec.

(** * The attempts of [request_json] and [request_bytes] *)

Module HttpBoundSpec.
Import Http HttpBytes.

Lemma seqZ_S a (n : nat) :
  seqZ a (Z.of_nat (S n)) = a :: seqZ (a + 1) (Z.of_nat n).
Proof.
  rewrite Nat2Z.inj_succ. rewrite seqZ_cons by lia. f_equal. f_equal; lia.
Qed.

Lemma retry_events_snoc method url data k :
  retry_events method url data (S k)
  = [EvUrlopen method url data; EvSleep retry_delay]
    ++ retry_events method url data k.
Proof. reflexivity. Qed.

Section Json.
Variable json_loads : string -> option Py.json.
Variable str_json : Py.json -> string.
Variable script : nat -> Http.reply.

Lemma json_loop_any method url data (n : nat) : forall (a : Z) w,
  0 <= a -> a + Z.of_nat (S n) = max_retries + 1 ->
  exists k : nat,
    (k <= n)%nat
    /\ (forall j, (j < k)%nat -> json_retried (script (calls w + j)%nat))
    /\ (k = n \/ ~ json_retried (script (calls w + k)%nat))
    /\ Http.request_json_loop json_loads str_json script method url data
         (seqZ a (Z.of_nat (S n))) w
       = (json_outcome json_loads str_json url (script (calls w + k)%nat),
          {| trace := trace w ++ retry_events method url data k
                        ++ [EvUrlopen method url data];
             calls := S (calls w + k) |}).
Proof.
  induction n as [|n IH]; intros a w Ha Hn;
    rewrite seqZ_S, HttpSpec.loop_step; cbv zeta.
  - exists 0%nat. rewrite Nat.add_0_r.
    split; [lia|]. split; [intros j Hj; lia|]. split; [by left|].
    unfold max_retries in *.
    replace (a <? 3) with false by (symmetry; apply Z.ltb_ge; lia).
    destruct (script (calls w)) as [payload|code raw|reason|e];
      cbn [json_outcome].
    + destruct (negb (Py.str_truthy payload)); [done|].
      by destruct (json_loads payload).
    + by rewrite andb_false_r.
    + done.
    + done.
  - unfold max_retries in *.
    replace (a <? 3) with true by (symmetry; apply Z.ltb_lt; lia).
    assert (Hstop : ~ json_retried (script (calls w)) ->
      exists k : nat,
        (k <= S n)%nat
        /\ (forall j, (j < k)%nat -> json_retried (script (calls w + j)%nat))
        /\ (k = S n \/ ~ json_retried (script (calls w + k)%nat))
        /\ (json_outcome json_loads str_json url (script (calls w)),
            {| trace := trace w ++ [EvUrlopen method url data];
               calls := S (calls w) |})
           = (json_outcome json_loads str_json url (script (calls w + k)%nat),
              {| trace := trace w ++ retry_events method url data k
                            ++ [EvUrlopen method url data];
                 calls := S (calls w + k) |})).
    { intros Hno. exists 0%nat. rewrite Nat.add_0_r.
      split; [lia|]. split; [intros j Hj; lia|]. split; [by right|]. done. }
    assert (Hgo : json_retried (script (calls w)) ->
      exists k : nat,
        (k <= S n)%nat
        /\ (forall j, (j < k)%nat -> json_retried (script (calls w + j)%nat))
        /\ (k = S n \/ ~ json_retried (script (calls w + k)%nat))
        /\ Http.request_json_loop json_loads str_json script method url data
             (seqZ (a + 1) (Z.of_nat (S n)))
             {| trace := (trace w ++ [EvUrlopen method url data])
                           ++ [EvSleep retry_delay];
                calls := S (calls w) |}
           = (json_outcome json_loads str_json url (script (calls w + k)%nat),
              {| trace := trace w ++ retry_events method url data k
                            ++ [EvUrlopen method url data];
                 calls := S (calls w + k) |})).
    { intros Hre.
      destruct (IH (a + 1)
                  {| trace := (trace w ++ [EvUrlopen method url data])
                                ++ [EvSleep retry_delay];
                     calls := S (calls w) |} ltac:(lia) ltac:(lia))
        as (k & Hk & Hall & Hlast & Hrun).
      cbn [calls trace] in *.
      exists (S k). split; [lia|]. split.
      { intros [|j] Hj; [by rewrite Nat.add_0_r|].
        replace (calls w + S j)%nat with (S (calls w) + j)%nat by lia.
        apply Hall. lia. }
      split.
      { destruct Hlast as [->|Hlast]; [by left|right].
        by replace (calls w + S k)%nat with (S (calls w) + k)%nat by lia. }
      rewrite Hrun.
      replace (calls w + S k)%nat with (S (calls w) + k)%nat by lia.
      f_equal. f_equal. rewrite retry_events_snoc, <- !app_assoc.
      reflexivity. }
    destruct (script (calls w)) as [payload|code raw|reason|e] eqn:Es.
    + destruct (Hstop (fun H : False => H)) as (k & H1 & H2 & H3 & H4).
      exists k. repeat split; try done. rewrite <- H4. cbn [json_outcome].
      destruct (negb (Py.str_truthy payload)); [done|].
      by destruct (json_loads payload).
    + rewrite andb_true_r. destruct (Z.leb_spec 500 code) as [Hc|Hc].
      * by apply Hgo.
      * destruct (Hstop ltac:(cbn; lia)) as (k & H1 & H2 & H3 & H4).
        exists k. repeat split; try done.
    + by apply Hgo.
    + destruct (Hstop (fun H : False => H)) as (k & H1 & H2 & H3 & H4).
      exists k. repeat split; try done.
Qed.

(** X10. Whether an attempt gets a response, an [HTTPError], a
    [URLError] or any other exception from [urlopen], [read] or [decode],
    [request_json] ends, by returning or raising, right after an attempt:
    it makes between one and four attempts, pauses exactly 2 seconds
    between consecutive attempts and never after the last one, retries a
    [URLError] as it retries a 5xx status, stops at the first attempt that
    meets neither (or at the fourth attempt), and ends with what that
    attempt gives: the decoded body, [ForgeError], the [JSONDecodeError]
    of an undecodable body, or the other exception as it was raised, which
    is thus never retried and never turned into a [ForgeError]. The
    [return {}] after the loop is never reached. *)
Theorem request_json_attempts method url data w :
  exists k : nat,
    (k <= 3)%nat
    /\ (forall j, (j < k)%nat -> json_retried (script (calls w + j)%nat))
    /\ (k = 3%nat \/ ~ json_retried (script (calls w + k)%nat))
    /\ Http.request_json json_loads str_json script method url data w
       = (json_outcome json_loads str_json url (script (calls w + k)%nat),
          {| trace := trace w ++ retry_events method url data k
                        ++ [EvUrlopen method url data];
             calls := S (calls w + k) |}).
Proof.
  unfold Http.request_json.
  change (seqZ 0 (max_retries + 1)) with (seqZ 0 (Z.of_nat 4)).
  apply json_loop_any; [lia | reflexivity].
Qed.

End Json.

Section Bytes.
Variable script : nat -> reply.

Lemma bytes_loop_step method url attempt rest w :
  request_bytes_loop script method url (attempt :: rest) w =
  let w' := {| trace := trace w ++ [EvUrlopen method url None];
               calls := S (calls w) |} in
  match script (calls w) with
  | Body data => (Eff.Ok data, w')
  | HTTPError code =>
      if (500 <=? code) && (attempt <? max_retries) then
        request_bytes_loop script method url rest
          {| trace := trace w' ++ [EvSleep retry_delay]; calls := calls w' |}
      else (bytes_outcome url (HTTPError code), w')
  | URLError reason =>
      if attempt <? max_retries then
        request_bytes_loop script method url rest
          {| trace := trace w' ++ [EvSleep retry_delay]; calls := calls w' |}
      else (bytes_outcome url (URLError reason), w')
  | Other e => (Eff.Raised e, w')
  end.
Proof.
  cbn [request_bytes_loop].
  unfold Eff.bind, urlopen, Eff.get_state, Eff.modify, Eff.ret at 1.
  cbn [Eff.bind fst snd].
  destruct (script (calls w)) as [data|code|reason|e]; cbn.
  - done.
  - by destruct ((500 <=? code) && (attempt <? max_retries)).
  - by destruct (attempt <? max_retries).
  - done.
Qed.

Lemma bytes_loop_any method url (n : nat) : forall (a : Z) w,
  0 <= a -> a + Z.of_nat (S n) = max_retries + 1 ->
  exists k : nat,
    (k <= n)%nat
    /\ (forall j, (j < k)%nat -> retried (script (calls w + j)%nat))
    /\ (k = n \/ ~ retried (script (calls w + k)%nat))
    /\ request_bytes_loop script method url (seqZ a (Z.of_nat (S n))) w
       = (bytes_outcome url (script (calls w + k)%nat),
          {| trace := trace w ++ retry_events method url None k
                        ++ [EvUrlopen method url None];
             calls := S (calls w + k) |}).
Proof.
  induction n as [|n IH]; intros a w Ha Hn;
    rewrite seqZ_S, bytes_loop_step; cbv zeta.
  - exists 0%nat. rewrite Nat.add_0_r.
    split; [lia|]. split; [intros j Hj; lia|]. split; [by left|].
    unfold max_retries in *.
    replace (a <? 3) with false by (symmetry; apply Z.ltb_ge; lia).
    destruct (script (calls w)) as [data|code|reason|e];
      rewrite ?andb_false_r; done.
  - unfold max_retries in *.
    replace (a <? 3) with true by (symmetry; apply Z.ltb_lt; lia).
    assert (Hstop : ~ retried (script (calls w)) ->
      exists k : nat,
        (k <= S n)%nat
        /\ (forall j, (j < k)%nat -> retried (script (calls w + j)%nat))
        /\ (k = S n \/ ~ retried (script (calls w + k)%nat))
        /\ (bytes_outcome url (script (calls w)),
            {| trace := trace w ++ [EvUrlopen method url None];
               calls := S (calls w) |})
           = (bytes_outcome url (script (calls w + k)%nat),
              {| trace := trace w ++ retry_events method url None k
                            ++ [EvUrlopen method url None];
                 calls := S (calls w + k) |})).
    { intros Hno. exists 0%nat. rewrite Nat.add_0_r.
      split; [lia|]. split; [intros j Hj; lia|]. split; [by right|]. done. }
    assert (Hgo : retried (script (calls w)) ->
      exists k : nat,
        (k <= S n)%nat
        /\ (forall j, (j < k)%nat -> retried (script (calls w + j)%nat))
        /\ (k = S n \/ ~ retried (script (calls w + k)%nat))
        /\ request_bytes_loop script method url
             (seqZ (a + 1) (Z.of_nat (S n)))
             {| trace := (trace w ++ [EvUrlopen method url None])
                           ++ [EvSleep retry_delay];
                calls := S (calls w) |}
           = (bytes_outcome url (script (calls w + k)%nat),
              {| trace := trace w ++ retry_events method url None k
                            ++ [EvUrlopen method url None];
                 calls := S (calls w + k) |})).
    { intros Hre.
      destruct (IH (a + 1)
                  {| trace := (trace w ++ [EvUrlopen method url None])
                                ++ [EvSleep retry_delay];
                     calls := S (calls w) |} ltac:(lia) ltac:(lia))
        as (k & Hk & Hall & Hlast & Hrun).
      cbn [calls trace] in *.
      exists (S k). split; [lia|]. split.
      { intros [|j] Hj; [by rewrite Nat.add_0_r|].
        replace (calls w + S j)%nat with (S (calls w) + j)%nat by lia.
        apply Hall. lia. }
      split.
      { destruct Hlast as [->|Hlast]; [by left|right].
        by replace (calls w + S k)%nat with (S (calls w) + k)%nat by lia. }
      rewrite Hrun.
      replace (calls w + S k)%nat with (S (calls w) + k)%nat by lia.
      f_equal. f_equal. rewrite retry_events_snoc, <- !app_assoc.
      reflexivity. }
    destruct (script (calls w)) as [data|code|reason|e] eqn:Es.
    + destruct (Hstop (fun H : False => H)) as (k & H1 & H2 & H3 & H4).
      exists k. repeat split; try done.
    + rewrite andb_true_r. destruct (Z.leb_spec 500 code) as [Hc|Hc].
      * by apply Hgo.
      * destruct (Hstop ltac:(cbn; lia)) as (k & H1 & H2 & H3 & H4).
        exists k. repeat split; try done.
    + by apply Hgo.
    + destruct (Hstop (fun H : False => H)) as (k & H1 & H2 & H3 & H4).
      exists k. repeat split; try done.
Qed.

(** X11. Whether an attempt gets a response, an [HTTPError], a
    [URLError] or any other exception from [urlopen] or [read],
    [request_bytes] makes between one and four attempts, pauses exactly 2
    seconds between consecutive attempts and never after the last one,
    retries a [URLError] as it retries a 5xx status, and ends with what
    the first other attempt (or the fourth attempt) gives: the body as
    read, an empty one included, [ForgeError], or the other exception as
    it was raised, which is thus never retried and never turned into a
    [ForgeError]. The [return b''] after the loop is never reached. *)
Theorem request_bytes_attempts method url w :
  exists k : nat,
    (k <= 3)%nat
    /\ (forall j, (j < k)%nat -> retried (script (calls w + j)%nat))
    /\ (k = 3%nat \/ ~ retried (script (calls w + k)%nat))
    /\ request_bytes script method url w
       = (bytes_outcome url (script (calls w + k)%nat),
          {| trace := trace w ++ retry_events method url None k
                        ++ [EvUrlopen method url None];
             calls := S (calls w + k) |}).
Proof.
  unfold request_bytes.
  change (seqZ 0 (max_retries + 1)) with (seqZ 0 (Z.of_nat 4)).
  apply bytes_loop_any; [lia | reflexivity].
Qed.

End Bytes.
End HttpBoundSpec.

(** * Facts on [strip] and [split] *)

Module StrFacts.
Import Bridge StrNotions.

Lemma split_on_cons sep s : exists h t, split_on sep s = h :: t.
Proof.
  destruct s as [|c s]; cbn; [by eauto|].
  destruct (Ascii.eqb c sep); [by eauto|].
  destruct (split_on sep s); by eauto.
Qed.

Lemma eqb_code c (n : nat) :
  (n < 256)%nat -> Ascii.eqb c (ascii_of_nat n) = Nat.eqb (nat_of_ascii c) n.
Proof.
  intros Hn. destruct (Ascii.eqb_spec c (ascii_of_nat n)) as [->|Hne].
  - rewrite nat_ascii_embedding by done. symmetry. apply Nat.eqb_refl.
  - symmetry. apply Nat.eqb_neq. intros Heq. apply Hne.
    rewrite <- Heq. symmetry. apply ascii_nat_embedding.
Qed.

(** Characters of the parts of a split. *)
Lemma occurs_split sep c s x :
  In x (split_on sep s) -> occurs c x = true -> occurs c s = true.
Proof.
  revert x. induction s as [|a s IH]; intros x; cbn [split_on].
  - by intros [<-|[]].
  - destruct (Ascii.eqb a sep).
    + intros [<-|Hin]; [done|]. intros Hc. cbn. rewrite (IH x Hin Hc).
      apply orb_true_r.
    + destruct (split_on_cons sep s) as (h & t & Hs). rewrite Hs in IH |- *.
      intros [<-|Hin] Hc; cbn in Hc |- *.
      * apply orb_true_iff in Hc as [Hc|Hc]; [by rewrite Hc|].
        rewrite (IH h (or_introl eq_refl) Hc). apply orb_true_r.
      * rewrite (IH x (or_intror Hin) Hc). apply orb_true_r.
Qed.

Lemma no_sep_in_split sep s x :
  In x (split_on sep s) -> occurs sep x = false.
Proof.
  revert x. induction s as [|a s IH]; intros x; cbn [split_on].
  - by intros [<-|[]].
  - destruct (Ascii.eqb a sep) eqn:Ea.
    + intros [<-|Hin]; [done | by apply IH].
    + destruct (split_on_cons sep s) as (h & t & Hs). rewrite Hs in IH |- *.
      intros [<-|Hin].
      * cbn. rewrite (IH h (or_introl eq_refl)), orb_false_r.
        rewrite Ascii.eqb_sym. exact Ea.
      * apply IH. by right.
Qed.

Lemma occurs_lstrip c s : occurs c (lstrip s) = true -> occurs c s = true.
Proof.
  induction s as [|a s IH]; [done|]. cbn [lstrip].
  destruct (is_space a); [|done].
  intros H. cbn. rewrite (IH H). apply orb_true_r.
Qed.

Lemma occurs_rstrip c s : occurs c (rstrip s) = true -> occurs c s = true.
Proof.
  induction s as [|a s IH]; [done|]. cbn [rstrip].
  destruct (rstrip s) as [|b r] eqn:Er.
  - destruct (is_space a); [done|]. cbn. rewrite orb_false_r.
    intros ->. done.
  - cbn [occurs] in IH |- *. intros H.
    apply orb_true_iff in H as [H|H]; [by rewrite H|].
    rewrite (IH H). apply orb_true_r.
Qed.

Lemma occurs_strip c s : occurs c (strip s) = true -> occurs c s = true.
Proof. intros H. by apply occurs_lstrip, occurs_rstrip. Qed.

Lemma occurs_false_strip c s : occurs c s = false -> occurs c (strip s) = false.
Proof.
  intros H. destruct (occurs c (strip s)) eqn:E; [|done].
  apply occurs_strip in E. congruence.
Qed.

Lemma lstrip_clean s : starts_clean (lstrip s).
Proof.
  induction s as [|c s IH]; [done|]. cbn [lstrip].
  destruct (is_space c) eqn:E; [done|]. exact E.
Qed.

Lemma lstrip_id s : starts_clean s -> lstrip s = s.
Proof. destruct s as [|c s]; [done|]. cbn. by intros ->. Qed.

Lemma rstrip_clean s : starts_clean s -> starts_clean (rstrip s).
Proof.
  destruct s as [|c s]; [done|]. intros Hc. cbn [starts_clean] in Hc.
  cbn [rstrip]. destruct (rstrip s); [|exact Hc].
  rewrite Hc. exact Hc.
Qed.

Lemma rstrip_cons c s :
  rstrip (String c s)
  = match rstrip s with
    | EmptyString => if is_space c then EmptyString else String c EmptyString
    | r => String c r
    end.
Proof. reflexivity. Qed.

Lemma rstrip_idem s : rstrip (rstrip s) = rstrip s.
Proof.
  induction s as [|c s IH]; [done|]. rewrite rstrip_cons.
  destruct (rstrip s) as [|b r] eqn:Er.
  - destruct (is_space c) eqn:Ec; [done|]. rewrite rstrip_cons. cbn [rstrip].
    by rewrite Ec.
  - rewrite rstrip_cons, IH. reflexivity.
Qed.

Lemma strip_idem s : strip (strip s) = strip s.
Proof.
  unfold strip.
  rewrite (lstrip_id (rstrip (lstrip s))) by apply rstrip_clean, lstrip_clean.
  apply rstrip_idem.
Qed.

Lemma rstrip_snoc s c :
  is_space c = false -> rstrip (s +:+ String c "") = s +:+ String c "".
Proof.
  intros Hc. induction s as [|a s IH].
  - change ("" +:+ String c "") with (String c "").
    rewrite rstrip_cons. cbn [rstrip]. by rewrite Hc.
  - change (String a s +:+ String c "") with (String a (s +:+ String c "")).
    rewrite rstrip_cons, IH.
    destruct s; reflexivity.
Qed.

End StrFacts.

(** * Denylists: the two parsers *)

Module DenylistSpec.
Import Bridge StrNotions ConfigParse StrFacts.

(** Splitting at line breaks and then at commas is splitting at commas
    once the line breaks have been turned into commas. *)
Lemma split_breaks v :
  split_on "," (normalise_breaks v)
  = flat_map (split_on ",") (split_on newline (remove_cr v)).
Proof.
  induction v as [|c v IH]; [done|].
  cbn [normalise_breaks remove_cr].
  destruct (Nat.eqb (nat_of_ascii c) 13) eqn:E13; [exact IH|].
  cbn [split_on]. unfold newline at 1. rewrite (eqb_code c 10) by lia.
  destruct (Nat.eqb (nat_of_ascii c) 10) eqn:E10.
  - cbn [split_on flat_map]. change (Ascii.eqb "," ",") with true. cbv iota.
    cbn [app]. by rewrite IH.
  - destruct (split_on_cons newline (remove_cr v)) as (h & t & Hs).
    fold newline. rewrite Hs in IH |- *. cbn [flat_map] in IH |- *.
    cbn [split_on].
    destruct (Ascii.eqb c ",") eqn:Ec.
    + cbn [app]. by rewrite IH.
    + rewrite IH.
      destruct (split_on_cons "," h) as (hh & tt & Hh). rewrite Hh.
      reflexivity.
Qed.

Lemma filter_map_flat_map {A B} (f : B -> bool) (g : A -> B)
    (h : string -> list A) (l : list string) :
  List.filter f (map g (flat_map h l))
  = flat_map (fun x => List.filter f (map g (h x))) l.
Proof.
  induction l as [|x l IH]; [done|].
  cbn [flat_map]. by rewrite map_app, List.filter_app, IH.
Qed.

(** X12. The denylist parser of the environment variable
    ([_parse_denylist] in [config.py]) and the parser of the [--denylist]
    option ([_split_denylist] in [bridge.py]) agree: a value given through
    either yields the same list of patterns. *)
Theorem denylist_parsers_agree (v : string) :
  _parse_denylist (Some v) = _split_denylist [v].
Proof.
  unfold _parse_denylist, _split_denylist. cbn [flat_map].
  rewrite app_nil_r, split_breaks, filter_map_flat_map.
  destruct v as [|c v]; [reflexivity|]. reflexivity.
Qed.

Lemma occurs_normalised c v :
  (nat_of_ascii c = 10 \/ nat_of_ascii c = 13)%nat ->
  occurs c (normalise_breaks v) = false.
Proof.
  intros Hc. induction v as [|a v IH]; [done|]. cbn [normalise_breaks].
  destruct (Nat.eqb (nat_of_ascii a) 13) eqn:E13; [done|].
  destruct (Nat.eqb (nat_of_ascii a) 10) eqn:E10; cbn [occurs]; rewrite IH.
  - rewrite orb_false_r. apply Ascii.eqb_neq. intros ->.
    destruct Hc as [Hc|Hc]; vm_compute in Hc; lia.
  - rewrite orb_false_r. apply Ascii.eqb_neq. intros ->.
    apply Nat.eqb_neq in E13, E10. lia.
Qed.

(** X13. Every pattern [_split_denylist] returns is non-empty, carries no
    white space at either end, and contains no comma, line feed or
    carriage return, whatever the option values were. *)
Theorem split_denylist_items (items : list string) (x : string) :
  In x (_split_denylist items) -> clean_item x.
Proof.
  unfold _split_denylist. intros Hin.
  apply in_flat_map in Hin as (raw & _ & Hin).
  apply List.filter_In in Hin as [Hin Hne].
  apply in_map_iff in Hin as (chunk & <- & Hchunk).
  split.
  - intros Heq. by rewrite Heq in Hne.
  - apply strip_idem.
  - apply occurs_false_strip. by apply (no_sep_in_split _ _ _ Hchunk).
  - apply occurs_false_strip.
    destruct (occurs newline chunk) eqn:E; [|done].
    apply (occurs_split _ _ _ _ Hchunk) in E.
    rewrite occurs_normalised in E; [done | by left].
  - apply occurs_false_strip.
    destruct (occurs (ascii_of_nat 13) chunk) eqn:E; [|done].
    apply (occurs_split _ _ _ _ Hchunk) in E.
    rewrite occurs_normalised in E; [done | by right].
Qed.

Lemma split_denylist_items_witness : clean_item "*.pyc".
Proof.
  apply (split_denylist_items [" *.pyc , __pycache__ "] "*.pyc").
  vm_compute. by left.
Defined.

Lemma normalise_app a b :
  normalise_breaks (a +:+ b) = normalise_breaks a +:+ normalise_breaks b.
Proof.
  induction a as [|c a IH]; [done|].
  change (String c a +:+ b) with (String c (a +:+ b)).
  cbn [normalise_breaks].
  destruct (Nat.eqb (nat_of_ascii c) 13); [exact IH|].
  destruct (Nat.eqb (nat_of_ascii c) 10); rewrite IH; reflexivity.
Qed.

Lemma split_app_sep sep a b :
  split_on sep (a +:+ String sep b) = split_on sep a ++ split_on sep b.
Proof.
  induction a as [|c a IH].
  - change ("" +:+ String sep b) with (String sep b). cbn [split_on app].
    by rewrite Ascii.eqb_refl.
  - change (String c a +:+ String sep b) with (String c (a +:+ String sep b)).
    cbn [split_on]. rewrite IH.
    destruct (Ascii.eqb c sep); [reflexivity|].
    destruct (split_on_cons sep a) as (h & t & ->). reflexivity.
Qed.

(** X14. [--denylist] is "repeatable or comma-separated": giving two
    values in one option, separated by a comma, yields the same patterns
    as giving them in two options, and the patterns of several options
    are those of each, in order. *)
Theorem denylist_comma_is_repeat (a b : string) (xs ys : list string) :
  _split_denylist [a +:+ "," +:+ b] = _split_denylist [a; b]
  /\ _split_denylist (xs ++ ys) = _split_denylist xs ++ _split_denylist ys.
Proof.
  split.
  - unfold _split_denylist. cbn [flat_map]. rewrite !app_nil_r.
    rewrite normalise_app.
    change (normalise_breaks ("," +:+ b)) with (String "," (normalise_breaks b)).
    by rewrite split_app_sep, map_app, List.filter_app.
  - unfold _split_denylist. apply flat_map_app.
Qed.

End DenylistSpec.

(** * [_wrap_in_bash]: wrapping once, and what the shell reads back *)

Module WrapSpec.
Import Bridge JobCommand StrFacts.

Lemma wrapped_form command :
  already_wrapped
    ("bash -c " +:+ String squote (escape_squotes command
                                     +:+ String squote EmptyString))
  = true.
Proof.
  unfold already_wrapped, strip.
  set (body := escape_squotes command).
  change ("bash -c " +:+ String squote (body +:+ String squote ""))
    with (String "b" ("ash -c " +:+ String squote body +:+ String squote "")).
  assert (Hl : forall t, lstrip (String "b" t) = String "b" t) by done.
  rewrite Hl.
  change (String "b" ("ash -c " +:+ String squote body +:+ String squote ""))
    with (("bash -c " +:+ String squote body) +:+ String squote "").
  rewrite rstrip_snoc by done.
  reflexivity.
Qed.

(** X15. [_wrap_in_bash] wraps at most once: its result is always a
    wrapped command, so applying it again changes nothing. *)
Theorem wrap_in_bash_idempotent (command : string) :
  already_wrapped (_wrap_in_bash command) = true
  /\ _wrap_in_bash (_wrap_in_bash command) = _wrap_in_bash command.
Proof.
  assert (H : already_wrapped (_wrap_in_bash command) = true).
  { unfold _wrap_in_bash.
    destruct (already_wrapped command) eqn:E; [exact E|].
    apply wrapped_form. }
  split; [exact H|].
  unfold _wrap_in_bash at 1. by rewrite H.
Qed.

Lemma sh_word_nil fuel : (1 <= fuel)%nat -> sh_word fuel "" = Some "".
Proof. destruct fuel; [lia | done]. Qed.

(** Reading the escaped text up to the quote that closes it, and then the
    rest of the word, gives the text. *)
Lemma sh_read_escaped (s : string) : forall fuel,
  (2 * String.length s + 1 <= fuel)%nat ->
  exists body rest w,
    sh_quoted (escape_squotes s +:+ String squote "") = Some (body, rest)
    /\ sh_word fuel rest = Some w
    /\ body +:+ w = s.
Proof.
  induction s as [|c s IH]; intros fuel Hfuel.
  - exists "", "", "". split; [|split; [by apply sh_word_nil | done]].
    change (escape_squotes "" +:+ String squote "") with (String squote "").
    cbn [sh_quoted]. by rewrite Ascii.eqb_refl.
  - cbn [String.length] in Hfuel. cbn [escape_squotes].
    destruct (Ascii.eqb_spec c squote) as [->|Hne].
    + destruct fuel as [|[|fuel]]; [lia | lia |].
      destruct (IH fuel ltac:(lia)) as (body & rest & w & Hq & Hw & Hs).
      exists "", (String backslash (String squote (String squote
                    (escape_squotes s +:+ String squote "")))), (String squote s).
      split; [|split; [|done]].
      * change ((squote_escape +:+ escape_squotes s) +:+ String squote "")
          with (String squote (String backslash (String squote (String squote
                  (escape_squotes s +:+ String squote ""))))).
        cbn [sh_quoted]. by rewrite Ascii.eqb_refl.
      * cbn [sh_word].
        change (Ascii.eqb backslash squote) with false.
        change (Ascii.eqb backslash backslash) with true.
        cbv iota. rewrite Ascii.eqb_refl, Hq, Hw. by rewrite Hs.
    + destruct (IH fuel ltac:(lia)) as (body & rest & w & Hq & Hw & Hs).
      exists (String c body), rest, w. split; [|split; [done|]].
      * change (String c (escape_squotes s) +:+ String squote "")
          with (String c (escape_squotes s +:+ String squote "")).
        cbn [sh_quoted].
        replace (Ascii.eqb c squote) with false
          by (symmetry; by apply Ascii.eqb_neq).
        by rewrite Hq.
      * change (String c body +:+ w) with (String c (body +:+ w)).
        by rewrite Hs.
Qed.

(** X16. What [_wrap_in_bash] hands to [bash -c] is the command itself:
    for a command that is not wrapped already the result is [bash -c]
    followed by one single-quoted word, and a POSIX shell reads that word
    back as the command, character for character, whatever quotes the
    command contains. *)
Theorem wrap_in_bash_round_trip (command : string) :
  already_wrapped command = false ->
  exists word,
    _wrap_in_bash command = "bash -c " +:+ word
    /\ sh_word (2 * String.length command + 2) word = Some command.
Proof.
  intros Hw. unfold _wrap_in_bash. rewrite Hw.
  eexists. split; [reflexivity|].
  replace (2 * String.length command + 2)%nat
    with (S (2 * String.length command + 1)) by lia.
  cbn [sh_word]. rewrite Ascii.eqb_refl.
  destruct (sh_read_escaped command (2 * String.length command + 1)
              ltac:(lia)) as (body & rest & w & Hq & Hword & Hs).
  by rewrite Hq, Hword, Hs.
Qed.

Lemma wrap_in_bash_round_trip_witness :
  exists word,
    _wrap_in_bash "echo 'hi'" = "bash -c " +:+ word
    /\ sh_word (2 * String.length "echo 'hi'" + 2) word = Some "echo 'hi'".
Proof.
  apply (wrap_in_bash_round_trip "echo 'hi'"). reflexivity.
Defined.

End WrapSpec.

(** * [forge.py]: what the resolved client looks like *)

Module ForgeConfigSpec.
Import Bridge StrNotions StrFacts ForgeConfig.

Lemma lower_app a b : lower (a +:+ b) = lower a +:+ lower b.
Proof.
  induction a as [|c a IH]; [done|].
  change (String c a +:+ b) with (String c (a +:+ b)). cbn [lower].
  by rewrite IH.
Qed.

Lemma rstrip_app_nonempty p t :
  rstrip t = t -> t <> "" -> rstrip (p +:+ t) = p +:+ t.
Proof.
  intros Ht Hne. induction p as [|c p IH]; [done|].
  change (String c p +:+ t) with (String c (p +:+ t)).
  rewrite rstrip_cons, IH.
  destruct (p +:+ t) eqn:E; [|done].
  destruct p as [|d p]; [change ("" +:+ t) with t in E; congruence|].
  change (String d p +:+ t) with (String d (p +:+ t)) in E. discriminate E.
Qed.

Lemma lstrip_starts s : starts_clean s -> lstrip s = s.
Proof. apply lstrip_id. Qed.

Lemma stripped_rstrip t : strip t = t -> rstrip t = t.
Proof.
  intros Ht. rewrite <- Ht at 1. unfold strip. rewrite rstrip_idem.
  exact Ht.
Qed.

Lemma slice_app p t : Py.slice_from (String.length p) (p +:+ t) = t.
Proof. induction p as [|c p IH]; [by destruct t | exact IH]. Qed.

Lemma sanitize_stripped token : strip (_sanitize_token token) = _sanitize_token token.
Proof.
  unfold _sanitize_token.
  destruct (String.prefix "bearer " (lower (strip token)));
    [apply strip_idem|].
  destruct (String.prefix "token " (lower (strip token))); apply strip_idem.
Qed.

(** X17. [_sanitize_token] returns a token without white space at either
    end, and it undoes [get_auth_header]: from the header value of either
    client ([token <t>] for Gitea, [Bearer <t>] for GitHub) it gives back
    the token [t], for every non-empty token without white space at its
    ends. *)
Theorem sanitize_token_undoes_header (client : Forge.ForgeClient) :
  (forall token, strip (_sanitize_token token) = _sanitize_token token)
  /\ (strip (Forge.token client) = Forge.token client ->
      Forge.token client <> "" ->
      _sanitize_token (Forge.get_auth_header client) = Forge.token client).
Proof.
  split; [apply sanitize_stripped|].
  intros Hs Hne. set (t := Forge.token client) in *.
  assert (Hr : rstrip t = t) by (by apply stripped_rstrip).
  unfold Forge.get_auth_header. fold t.
  destruct (Forge.kind client); unfold _sanitize_token.
  - assert (Hst : strip ("token " +:+ t) = "token " +:+ t).
    { unfold strip.
      change (lstrip ("token " +:+ t)) with ("token " +:+ t).
      by apply rstrip_app_nonempty. }
    rewrite Hst, lower_app.
    change (lower "token ") with "token ".
    change (String.prefix "bearer " ("token " +:+ lower t)) with false.
    cbv iota.
    rewrite (ProxySpec.prefix_app "token " (lower t)).
    change 6%nat with (String.length "token ").
    by rewrite slice_app.
  - assert (Hst : strip ("Bearer " +:+ t) = "Bearer " +:+ t).
    { unfold strip.
      change (lstrip ("Bearer " +:+ t)) with ("Bearer " +:+ t).
      by apply rstrip_app_nonempty. }
    rewrite Hst, lower_app.
    change (lower "Bearer ") with "bearer ".
    rewrite (ProxySpec.prefix_app "bearer " (lower t)).
    change 7%nat with (String.length "Bearer ").
    by rewrite slice_app.
Qed.

Lemma sanitize_token_undoes_header_witness :
  _sanitize_token (Forge.get_auth_header (Forge.client Forge.example_config))
  = "secret".
Proof.
  apply (proj2 (sanitize_token_undoes_header
                  (Forge.client Forge.example_config))).
  - reflexivity.
  - discriminate.
Defined.

Lemma truthy_nonempty s : Py.str_truthy s = true -> s <> "".
Proof. by destruct s. Qed.

(** X18. [_get_active_repo] never returns a repository that is empty,
    padded with white space or without a slash: it returns the configured
    repository of the resolved platform, stripped, when that contains a
    slash, and raises [ForgeAuthError] (a [ConfigError]) otherwise. *)
Theorem active_repo_is_owner_slash_name (platform_env : option string)
    (config : Config) :
  match _get_active_repo platform_env config with
  | Val repo =>
      repo <> "" /\ strip repo = repo /\ occurs "/" repo = true
      /\ repo = strip (or_empty
                         (match _resolve_platform platform_env config with
                          | Forge.GITHUB => github_repo config
                          | Forge.GITEA => gitea_repo config
                          end))
  | Err e =>
      Exc.class_of e = Exc.ForgeAuthError
      /\ Exc.isinstance e Exc.ConfigError = true
  end.
Proof.
  unfold _get_active_repo.
  destruct (_resolve_platform platform_env config).
  - destruct (Py.str_truthy (strip (or_empty (gitea_repo config)))) eqn:Et;
      cbn [negb]; [|done].
    destruct (occurs "/" (strip (or_empty (gitea_repo config)))) eqn:Eo;
      cbn [negb]; [|done].
    split; [by apply truthy_nonempty|]. split; [apply strip_idem|]. done.
  - destruct (Py.str_truthy (strip (or_empty (github_repo config)))) eqn:Et;
      cbn [negb]; [|done].
    destruct (occurs "/" (strip (or_empty (github_repo config)))) eqn:Eo;
      cbn [negb]; [|done].
    split; [by apply truthy_nonempty|]. split; [apply strip_idem|]. done.
Qed.

Lemma rstrip_slash_cons c s :
  rstrip_slash (String c s)
  = match rstrip_slash s with
    | EmptyString => if Ascii.eqb c "/" then EmptyString else String c EmptyString
    | r => String c r
    end.
Proof. reflexivity. Qed.

Lemma rstrip_slash_clean s : ends_with_slash (rstrip_slash s) = false.
Proof.
  induction s as [|c s IH]; [done|]. rewrite rstrip_slash_cons.
  destruct (rstrip_slash s) as [|b r] eqn:Er.
  - destruct (Ascii.eqb c "/") eqn:Ec; [done|]. cbn. exact Ec.
  - exact IH.
Qed.

Lemma rstrip_slash_slashes n : rstrip_slash (slashes n) = "".
Proof.
  induction n as [|n IH]; [done|]. cbn [slashes].
  by rewrite rstrip_slash_cons, IH.
Qed.

Lemma rstrip_slash_app p n :
  ends_with_slash p = false -> p <> "" ->
  rstrip_slash (p +:+ slashes n) = p.
Proof.
  induction p as [|c p IH]; [done|]. intros He _.
  change (String c p +:+ slashes n) with (String c (p +:+ slashes n)).
  rewrite rstrip_slash_cons.
  destruct p as [|d p].
  - change ("" +:+ slashes n) with (slashes n). rewrite rstrip_slash_slashes.
    cbn in He. by rewrite He.
  - rewrite IH; [done | exact He | done].
Qed.

(** X19. [create_forge_client] fails with [ForgeAuthError] exactly when
    the token of the resolved platform is missing or empty; otherwise the
    client is of the resolved platform, its token is the configured one
    without scheme prefix and padding, and its server URL does not end
    with a slash. For GitHub with the server [https://github.com],
    however many slashes follow it in the setting, the API base is
    [https://api.github.com/repos/<repo>/actions]. *)
Theorem forge_client_is_normalised (platform_env : option string)
    (config : Config) :
  let platform := _resolve_platform platform_env config in
  let configured :=
    match platform with
    | Forge.GITHUB => github_token config
    | Forge.GITEA => gitea_token config
    end in
  match create_forge_client platform_env config with
  | Err e =>
      Tunnel.opt_truthy configured = false
      /\ Exc.class_of e = Exc.ForgeAuthError
  | Val client =>
      Tunnel.opt_truthy configured = true
      /\ Forge.kind client = platform
      /\ Forge.token client = _sanitize_token (or_empty configured)
      /\ ends_with_slash (Forge.server_url client) = false
      /\ (forall n repo,
            platform = Forge.GITHUB ->
            github_server config = "https://github.com" +:+ slashes n ->
            Forge.get_api_base client repo
            = "https://api.github.com/repos/" +:+ repo +:+ "/actions")
  end.
Proof.
  intros platform configured.
  unfold create_forge_client, _get_active_token, _get_active_server.
  fold platform. subst configured.
  destruct platform eqn:Ep.
  - destruct (Tunnel.opt_truthy (gitea_token config)) eqn:Et; cbn [negb];
      [|done].
    split; [done|]. split; [done|]. split; [done|].
    split; [apply rstrip_slash_clean | done].
  - destruct (Tunnel.opt_truthy (github_token config)) eqn:Et; cbn [negb];
      [|done].
    split; [done|]. split; [done|]. split; [done|].
    split; [apply rstrip_slash_clean|].
    intros n repo _ Hs. unfold Forge.get_api_base. cbn [Forge.kind Forge.server_url].
    rewrite Hs.
    assert (Hurl : str_or ("https://github.com" +:+ slashes n)
                     "https://github.com"
                   = "https://github.com" +:+ slashes n) by reflexivity.
    rewrite Hurl, rstrip_slash_app by done.
    reflexivity.
Qed.

Example client_of_github_settings :
  create_forge_client None github_settings
  = Val {| Forge.kind := Forge.GITHUB; Forge.token := "ghp_abc";
           Forge.server_url := "https://github.com" |}.
Proof. reflexivity. Qed.

End ForgeConfigSpec.

(** * [wait_for_bridge_action_completion]: what it can end with *)

Module BridgeActionSpec.
Import Forge BridgeAction.

Section Env.
Variable env : environment.
Variable config : Config.
Variable bridge_action_timeout : Z.

Local Abbreviation _find_matching_run := (BridgeAction._find_matching_run env).
Local Abbreviation action_round := (BridgeAction.action_round env config).
Local Abbreviation action_loop := (BridgeAction.action_loop env config).
Local Abbreviation from_finished_run := (BridgeAction.from_finished_run env).
Local Abbreviation let_through := (BridgeAction.let_through env).
Local Abbreviation forge_errors_only := (BridgeAction.forge_errors_only env).

Lemma expected_nonempty request_id :
  request_id <> "" -> has_nonempty (expected_of request_id).
Proof. intros H. exists "request_id", request_id. split; [by left | done]. Qed.

(** What [_find_run_by_inputs] returns is a listed run that matches, and
    what it raises is raised for a listed run. *)
Lemma find_sound runs expected :
  match _find_run_by_inputs env runs expected with
  | inr (Some run) => In run runs /\ run_matches env run expected
  | inr None => True
  | inl e => exists run, In run runs /\ payload_not_object env run e
  end.
Proof.
  induction runs as [|run rest IH]; cbn [_find_run_by_inputs]; [done|].
  destruct (_parse_event_inputs env run) as [e|inputs] eqn:Ep.
  { exists run. split; [by left|]. by apply SyncSpec.parse_raises. }
  assert (Hrest :
            match _find_run_by_inputs env rest expected with
            | inr (Some hit) =>
                In hit (run :: rest) /\ run_matches env hit expected
            | inr None => True
            | inl e =>
                exists r, In r (run :: rest) /\ payload_not_object env r e
            end).
  { destruct (_find_run_by_inputs env rest expected) as [e|[hit|]]; [| |done].
    - destruct IH as (r & Hin & Hp). exists r. split; [by right | done].
    - destruct IH as [Hin Hm]. split; [by right | done]. }
  destruct inputs as [|kv inputs]; [exact Hrest|].
  destruct (_matches_inputs (kv :: inputs) expected) eqn:Em; [|exact Hrest].
  split; [by left|]. exists (kv :: inputs). split; [done|].
  by apply SyncSpec.matches_iff.
Qed.

Lemma find_matching_cases request_id runs :
  match _find_matching_run request_id runs with
  | inr (Some m) =>
      exists run,
        In run runs
        /\ run_matches env run (expected_of request_id)
        /\ is_terminal (Py.get_or (r_status run) Py.SNone) = true
        /\ m = result_of run
  | inr None => True
  | inl e => exists run, In run runs /\ payload_not_object env run e
  end.
Proof.
  unfold BridgeAction._find_matching_run.
  pose proof (find_sound runs (expected_of request_id)) as Hf.
  destruct (_find_run_by_inputs env runs (expected_of request_id))
    as [e|[run|]]; [exact Hf| |done].
  destruct (is_terminal (Py.get_or (r_status run) Py.SNone)) eqn:Et; [|done].
  exists run. by destruct Hf.
Qed.

(** One iteration's [try] statement: it gives a result from a finished
    run, or nothing, or it raises an exception that is let through. *)
Lemma round_cases request_id w :
  exists out w',
    Eff.try_except (action_round request_id 20)
      [(Exc.ForgeError, fun _ => Eff.ret None)] w = (out, w')
    /\ match out with
       | Eff.Ok (Some m) => from_finished_run request_id m
       | Eff.Ok None => True
       | Eff.Raised e => let_through e
       | Eff.OutOfFuel => False
       end.
Proof.
  assert (Hreq : forall k e,
            api env k = ApiRaises e ->
            forall w' : world,
            exists out w'',
              match Eff.select
                      [(Exc.ForgeError,
                        fun _ : Exc.exn =>
                          @Eff.ret world (option action_result) None)] e with
              | Some h => h w'
              | None => (Eff.Raised e, w')
              end = (out, w'')
              /\ match out with
                 | Eff.Ok (Some m) => from_finished_run request_id m
                 | Eff.Ok None => True
                 | Eff.Raised e => let_through e
                 | Eff.OutOfFuel => False
                 end).
  { intros k e Hk w'. cbn [Eff.select].
    destruct (Exc.isinstance e Exc.ForgeError) eqn:Ei.
    - eexists (Eff.Ok None), _. split; [reflexivity | done].
    - eexists (Eff.Raised e), _. split; [reflexivity|].
      split; [done|]. left. by exists k. }
  assert (Hfind : forall k r,
            api env k = ApiOk r ->
            forall w' : world,
            exists out w'',
              match Eff.lift (_find_matching_run request_id (runs_of r)) w'
              with
              | (Eff.Raised e, s') =>
                  match Eff.select
                          [(Exc.ForgeError,
                            fun _ : Exc.exn =>
                              @Eff.ret world (option action_result) None)] e
                  with
                  | Some h => h s'
                  | None => (Eff.Raised e, s')
                  end
              | other => other
              end = (out, w'')
              /\ out <> Eff.Ok None
              /\ match out with
                 | Eff.Ok (Some m) => from_finished_run request_id m
                 | Eff.Ok None => True
                 | Eff.Raised e => let_through e
                 | Eff.OutOfFuel => False
                 end
            \/ _find_matching_run request_id (runs_of r) = inr None).
  { intros k r Hk w'.
    pose proof (find_matching_cases request_id (runs_of r)) as H.
    destruct (_find_matching_run request_id (runs_of r)) as [e|[m|]];
      cbn [Eff.lift]; unfold Eff.raise, Eff.ret.
    - destruct H as (run & Hin & Hp). cbn [Eff.select].
      rewrite (SyncSpec.not_object_uncaught env _ _ Hp).
      eexists (Eff.Raised e), _. left. split; [reflexivity|].
      split; [done|].
      split; [exact (SyncSpec.not_object_uncaught env _ _ Hp)|].
      right. by exists k, r, run.
    - destruct H as (run & Hin & Hm & Ht & ->).
      eexists (Eff.Ok (Some (result_of run))), _. left.
      split; [reflexivity|]. split; [done|]. by exists run, k, r.
    - eexists (Eff.Ok None), w'. by right. }
  unfold BridgeAction.action_round, Eff.try_except.
  unfold Eff.bind at 1. rewrite SyncSpec.request_json_eq.
  destruct (api env (n_api w)) as [r1|msg|e] eqn:E1.
  2:{ eexists (Eff.Ok None), _. split; [reflexivity | done]. }
  2:{ destruct (Hreq _ _ E1 (tick_api (with_event
                  (EvRequest "GET" (runs_url config 20 1) None) w)))
        as (out & w'' & Ho & Hc). by exists out, w''. }
  unfold Eff.bind at 1.
  destruct (Hfind _ _ E1 (tick_api (with_event
              (EvRequest "GET" (runs_url config 20 1) None) w)))
    as (out & w'' & [(Ho & Hne & Hc)|Hnone]).
  { exists out, w''. split; [|exact Hc].
    destruct (_find_matching_run request_id (runs_of r1)) as [e|[m|]];
      cbn [Eff.lift] in Ho |- *; unfold Eff.raise, Eff.ret in Ho |- *;
      [exact Ho | exact Ho | by injection Ho as <- _]. }
  rewrite Hnone. cbn [Eff.lift]. unfold Eff.ret at 1.
  destruct (_extract_total_count env r1) as [t|].
  2:{ eexists (Eff.Ok None), _. split; [reflexivity | done]. }
  destruct (negb (t =? 0) && (20 <? t)).
  2:{ eexists (Eff.Ok None), _. split; [reflexivity | done]. }
  unfold Eff.bind at 1. rewrite SyncSpec.request_json_eq.
  match goal with |- context [api env ?k] =>
    destruct (api env k) as [r2|msg|e] eqn:E2 end.
  2:{ eexists (Eff.Ok None), _. split; [reflexivity | done]. }
  2:{ match goal with |- context [(Eff.Raised e, ?s)] =>
        destruct (Hreq _ _ E2 s) as (out2 & w2 & Ho & Hc) end.
      by exists out2, w2. }
  match goal with |- context [Eff.lift _ ?s] =>
    destruct (Hfind _ _ E2 s) as (out2 & w2 & [(Ho & Hne & Hc)|Hnone2]) end.
  - by exists out2, w2.
  - rewrite Hnone2. cbn [Eff.lift]. unfold Eff.ret.
    eexists (Eff.Ok None), _. split; [reflexivity | done].
Qed.

Lemma action_loop_outcomes request_id seconds deadline (fuel : nat) :
  forall w,
    match fst (action_loop fuel request_id seconds deadline w) with
    | Eff.Ok m => from_finished_run request_id m
    | Eff.Raised e => e = timed_out seconds \/ let_through e
    | Eff.OutOfFuel => True
    end.
Proof.
  induction fuel as [|fuel IH]; intros w; [done|].
  cbn [BridgeAction.action_loop].
  unfold Eff.bind at 1, time_time.
  destruct (Qgtb (clock env (n_clock w)) deadline); [by left|].
  destruct (round_cases request_id (tick_clock w)) as (out & w' & Hr & Hf).
  unfold Eff.bind at 1. rewrite Hr.
  destruct out as [[m|]|e|]; [exact Hf| |by right|done].
  unfold Eff.bind at 1, sleep, Eff.modify. apply IH.
Qed.

(** When every failing request fails with a [ForgeError] and every listed
    payload decodes, nothing is let through. *)
Lemma nothing_let_through e : forge_errors_only -> ~ let_through e.
Proof.
  intros [Hf Hd] [He [[k Hk]|(k & r & run & Hk & Hin & Hp)]].
  - specialize (Hf k e Hk). congruence.
  - destruct (Hd k r run Hk Hin) as [inputs Hi].
    apply SyncSpec.parse_raises in Hp. congruence.
Qed.


End Env.
End BridgeActionSpec.

(** * Artifacts: what the poll for a log can end with *)

Module ArtifactSpec.
Import Forge Artifact.

Lemma find_first_such {A} (f : A -> bool) (l : list A) :
  match List.find f l with
  | Some x =>
      exists before after,
        l = before ++ x :: after /\ f x = true
        /\ Forall (fun y => f y = false) before
  | None => Forall (fun y => f y = false) l
  end.
Proof.
  induction l as [|x l IH]; cbn [List.find]; [constructor|].
  destruct (f x) eqn:Ex.
  - exists [], l. split; [done|]. split; [done | constructor].
  - destruct (List.find f l) as [y|].
    + destruct IH as (before & after & -> & Hu & Hb).
      exists (x :: before), after. split; [done|]. split; [done|].
      by constructor.
    + by constructor.
Qed.

Section Env.
Variable env : environment.
Variable config : Config.

Local Abbreviation usable := Artifact.usable.
Local Abbreviation uncaught := (Artifact.uncaught env).
Local Abbreviation step_end := (Artifact.step_end env).
Local Abbreviation poll_failure := (Artifact.poll_failure env config).

Lemma listing_request_eq url w :
  request_json env url w =
  (match listing env (n_list w) with
   | Listing a => Eff.Ok a
   | ListingError msg => Eff.Raised (Exc.Exn Exc.ForgeError msg)
   | ListingRaises e => Eff.Raised e
   end,
   {| files := files w; trace := trace w ++ [EvList url];
      n_clock := n_clock w; n_list := S (n_list w); n_bytes := n_bytes w |}).
Proof. unfold request_json. by destruct (listing env (n_list w)). Qed.

Lemma download_request_eq url w :
  request_bytes env url w =
  (match download env (n_bytes w) with
   | Bytes data => Eff.Ok data
   | BytesError msg => Eff.Raised (Exc.Exn Exc.ForgeError msg)
   | BytesRaises e => Eff.Raised e
   end,
   {| files := files w; trace := trace w ++ [EvBytes url];
      n_clock := n_clock w; n_list := n_list w; n_bytes := S (n_bytes w) |}).
Proof. unfold request_bytes. by destruct (download env (n_bytes w)). Qed.

Lemma find_artifact_eq artifact_name w :
  _find_artifact_by_name env config artifact_name w =
  (match listing env (n_list w) with
   | Listing a => Eff.Ok (List.find (usable artifact_name) (default [] a))
   | ListingError _ => Eff.Ok None
   | ListingRaises e => handled e (Eff.Ok None)
   end,
   {| files := files w; trace := trace w ++ [EvList (artifacts_url config)];
      n_clock := n_clock w; n_list := S (n_list w); n_bytes := n_bytes w |}).
Proof.
  unfold _find_artifact_by_name, Eff.try_except, Eff.bind, handled.
  rewrite listing_request_eq.
  destruct (listing env (n_list w)) as [a|msg|e]; [reflexivity|reflexivity|].
  cbn [Eff.select]. by destruct (Exc.isinstance e Exc.ForgeError).
Qed.

(** A download under [except ForgeError]: the guarded block goes on with
    the body, the handler runs for a [ForgeError], and any other
    exception of the request leaves the statement. *)
Lemma try_download_eq {A} url (k : list byte -> M A) (h : M A) w :
  Eff.try_except (Eff.bind (request_bytes env url) k)
    [(Exc.ForgeError, fun _ => h)] w =
  let w' := {| files := files w; trace := trace w ++ [EvBytes url];
               n_clock := n_clock w; n_list := n_list w;
               n_bytes := S (n_bytes w) |} in
  match download env (n_bytes w) with
  | Bytes data => Eff.try_except (k data) [(Exc.ForgeError, fun _ => h)] w'
  | BytesError _ => h w'
  | BytesRaises e =>
      if Exc.isinstance e Exc.ForgeError then h w' else (Eff.Raised e, w')
  end.
Proof.
  unfold Eff.try_except, Eff.bind. rewrite download_request_eq.
  destruct (download env (n_bytes w)) as [data|msg|e];
    [reflexivity|reflexivity|].
  cbn [Eff.select]. by destruct (Exc.isinstance e Exc.ForgeError).
Qed.


Ltac run :=
  cbv [Eff.select Exc.isinstance Exc.subclass Exc.subclass_fuel Exc.class_of
       Exc.cls_eqb Exc.base orb Eff.ret Eff.raise Eff.bind Eff.modify
       Eff.try_except write_bytes fst snd files BadZipFile nonempty].

Lemma uncaught_download e w :
  download env (n_bytes w) = BytesRaises e ->
  Exc.isinstance e Exc.ForgeError = false -> uncaught e.
Proof. intros H He. split; [done|]. right. by exists (n_bytes w). Qed.

Lemma from_artifact_api_end log_filename cache_path w :
  step_end cache_path (files w)
    (fst (from_artifact_api env config log_filename cache_path w))
    (files (snd (from_artifact_api env config log_filename cache_path w))).
Proof.
  destruct (from_artifact_api env config log_filename cache_path w)
    as [o w'] eqn:E.
  cbn [fst snd]. unfold from_artifact_api in E.
  unfold Eff.bind at 1 in E. rewrite find_artifact_eq in E.
  destruct (listing env (n_list w)) as [a|msg|e] eqn:El.
  2:{ by injection E as <- <-. }
  2:{ unfold handled in E.
      destruct (Exc.isinstance e Exc.ForgeError) eqn:Ei;
        injection E as <- <-; [done|].
      right. split; [|done]. split; [done|]. left. by exists (n_list w). }
  destruct (List.find (Artifact.usable log_filename) (default [] a))
    as [art|]; [|by injection E as <- <-].
  cbv zeta in E.
  destruct (Py.truthy (Py.get_or (art_id art) Py.SNone));
    [|by injection E as <- <-].
  rewrite try_download_eq in E. cbv zeta in E. cbn [n_bytes] in E.
  destruct (download env (n_bytes w)) as [data|msg|e] eqn:Ed.
  2:{ by injection E as <- <-. }
  2:{ destruct (Exc.isinstance e Exc.ForgeError) eqn:Ei;
        injection E as <- <-; [done|].
      right. split; [|done]. by apply (uncaught_download e w). }
  revert E. run.
  destruct (unzip env data) as [infolist|];
    [|run; intros [= <- <-]; left; split; [done | by left]].
  destruct (List.filter (fun m => negb (is_dir m)) infolist)
    as [|member rest]; [by run; intros [= <- <-]|].
  destruct (content member) as [bytes| |]; run; intros [= <- <-].
  - by eexists.
  - left. split; [done | by left].
  - left. split; [done | by right].
Qed.

Lemma from_logs_branch_end log_filename cache_path w :
  step_end cache_path (files w)
    (fst (from_logs_branch env config log_filename cache_path w))
    (files (snd (from_logs_branch env config log_filename cache_path w))).
Proof.
  destruct (from_logs_branch env config log_filename cache_path w)
    as [o w'] eqn:E.
  cbn [fst snd]. unfold from_logs_branch in E.
  rewrite try_download_eq in E. cbv zeta in E.
  destruct (download env (n_bytes w)) as [data|msg|e] eqn:Ed.
  - revert E. destruct data; run; intros [= <- <-]; [done | by eexists].
  - by injection E as <- <-.
  - destruct (Exc.isinstance e Exc.ForgeError) eqn:Ei;
      injection E as <- <-; [done|].
    right. split; [|done]. by apply (uncaught_download e w).
Qed.

Lemma bind_unfold {S A B} (m : Eff.M S A) (k : A -> Eff.M S B) w :
  Eff.bind m k w =
  match m w with
  | (Eff.Ok a, s') => k a s'
  | (Eff.Raised e, s') => (Eff.Raised e, s')
  | (Eff.OutOfFuel, s') => (Eff.OutOfFuel, s')
  end.
Proof. reflexivity. Qed.

Lemma raised_reply cache_path before e after :
  step_end cache_path before (Eff.Raised e) after ->
  exists reply,
    delivers reply cache_path before (Eff.Raised e) after
    /\ match reply with
       | Delivered _ => True
       | Failed e' leftover => poll_failure e' leftover
       end.
Proof.
  intros [[-> [->| ->]]|[Hu ->]].
  - exists (Failed BadZipFile None). split; [done|].
    right. right. split; [done | by left].
  - exists (Failed BadZipFile (Some [])). split; [done|].
    right. right. split; [done | by right].
  - exists (Failed e None). split; [done|]. right. by left.
Qed.

Lemma artifact_loop_delivers log_filename cache_path deadline (fuel : nat) :
  forall w o w',
    artifact_loop env fuel config log_filename cache_path deadline w = (o, w') ->
    o <> Eff.OutOfFuel ->
    exists reply,
      delivers reply cache_path (files w) o (files w')
      /\ match reply with
         | Delivered _ => True
         | Failed e leftover => poll_failure e leftover
         end.
Proof.
  induction fuel as [|fuel IH]; intros w o w' H Hfuel.
  { injection H as <- <-. done. }
  cbn [artifact_loop] in H. unfold Eff.bind at 1, time_time in H.
  destruct (Qgtb (clock env (n_clock w)) deadline).
  { injection H as <- <-. exists (Failed (log_timed_out config) None).
    split; [done | by left]. }
  set (w1 := {| files := files w; trace := trace w; n_clock := S (n_clock w);
                n_list := n_list w; n_bytes := n_bytes w |}) in H.
  pose proof (from_artifact_api_end log_filename cache_path w1) as H1.
  destruct (from_artifact_api env config log_filename cache_path w1)
    as [[[|]|e|] w2] eqn:E1; cbn [fst snd Artifact.step_end] in H1;
    change (files w1) with (files w) in H1.
  - rewrite (LogSpec.bind_ok _ _ _ _ _ E1) in H. injection H as <- <-.
    destruct H1 as [data Hd]. exists (Delivered data). by split.
  - rewrite (LogSpec.bind_ok _ _ _ _ _ E1) in H.
    pose proof (from_logs_branch_end log_filename cache_path w2) as H2.
    destruct (from_logs_branch env config log_filename cache_path w2)
      as [[[|]|e|] w3] eqn:E2; cbn [fst snd Artifact.step_end] in H2;
      try rewrite H1 in H2.
    + rewrite (LogSpec.bind_ok _ _ _ _ _ E2) in H. injection H as <- <-.
      destruct H2 as [data Hd]. exists (Delivered data). by split.
    + rewrite (LogSpec.bind_ok _ _ _ _ _ E2) in H.
      unfold Eff.bind at 1, sleep, Eff.modify in H.
      destruct (IH _ _ _ H Hfuel) as (reply & Hdel & Hshape).
      exists reply. split; [|exact Hshape].
      cbn [emit files] in Hdel. by rewrite H2 in Hdel.
    + rewrite (LogSpec.bind_raised _ _ _ _ _ E2) in H. injection H as <- <-.
      by apply raised_reply.
    + done.
  - rewrite (LogSpec.bind_raised _ _ _ _ _ E1) in H. injection H as <- <-.
    by apply raised_reply.
  - done.
Qed.




End Env.


End ArtifactSpec.

(** * The job cache: round trips, listing and pruning *)

Module JobCacheSpec.
Import Forge JobCache.

Lemma load_save jobs s :
  writable s = true -> _load (_save jobs s) = jobs.
Proof. intros H. unfold _save. by rewrite H. Qed.



(** Sorting. *)

Lemma ltb_leb a b : String.ltb a b = true -> String.leb a b = true.
Proof.
  unfold String.ltb, String.leb. destruct (String.compare a b); congruence.
Qed.

Lemma not_ltb_leb a b : String.ltb a b = false -> String.leb b a = true.
Proof.
  unfold String.ltb, String.leb. rewrite (String.compare_antisym b a).
  destruct (String.compare a b); cbn; congruence.
Qed.

Lemma insert_desc_perm x l : Permutation (insert_desc x l) (x :: l).
Proof.
  induction l as [|y l IH]; cbn [insert_desc]; [done|].
  destruct (String.ltb _ _); [|done].
  rewrite IH. apply perm_swap.
Qed.

Lemma sort_desc_perm l : Permutation (sort_desc l) l.
Proof.
  induction l as [|x l IH]; [done|]. cbn [sort_desc fold_right].
  fold (sort_desc l). rewrite insert_desc_perm. by constructor.
Qed.

Lemma insert_desc_hd x l y :
  HdRel newer_first y l -> newer_first y x ->
  HdRel newer_first y (insert_desc x l).
Proof.
  intros Hl Hx. destruct l as [|z l]; cbn [insert_desc]; [by constructor|].
  destruct (String.ltb _ _); constructor; [|done].
  by inversion Hl.
Qed.

Lemma insert_desc_sorted x l :
  Sorted newer_first l -> Sorted newer_first (insert_desc x l).
Proof.
  induction l as [|y l IH]; intros Hs; cbn [insert_desc].
  - by repeat constructor.
  - inversion Hs as [|? ? Hl Hhd]; subst.
    destruct (String.ltb (j_created_at (snd x)) (j_created_at (snd y)))
      eqn:E.
    + constructor; [by apply IH|].
      apply insert_desc_hd; [done|]. by apply ltb_leb.
    + constructor; [done|]. constructor. by apply not_ltb_leb.
Qed.

Lemma sort_desc_sorted l : Sorted newer_first (sort_desc l).
Proof.
  induction l as [|x l IH]; [constructor|]. cbn [sort_desc fold_right].
  by apply insert_desc_sorted.
Qed.

(** Equal stamps keep their order: the sort is stable. *)
Lemma ltb_irrefl a b : String.eqb a b = true -> String.ltb a b = false.
Proof.
  intros H. apply String.eqb_eq in H as ->. unfold String.ltb.
  pose proof (String.compare_antisym b b) as H.
  destruct (String.compare b b); by cbn in H.
Qed.

Lemma insert_desc_stable stamp x l :
  List.filter (created_at_is stamp) (insert_desc x l)
  = List.filter (created_at_is stamp) (x :: l).
Proof.
  induction l as [|y l IH]; [done|]. cbn [insert_desc].
  destruct (String.ltb (j_created_at (snd x)) (j_created_at (snd y)))
    eqn:E; [|done].
  cbn [List.filter] in IH |- *. rewrite IH.
  destruct (created_at_is stamp x) eqn:Ex; [|done].
  destruct (created_at_is stamp y) eqn:Ey; [|done].
  unfold created_at_is in Ex, Ey.
  apply String.eqb_eq in Ex, Ey. rewrite Ex, Ey in E.
  by rewrite (ltb_irrefl stamp stamp) in E by apply String.eqb_refl.
Qed.

Lemma sort_desc_stable stamp l :
  List.filter (created_at_is stamp) (sort_desc l)
  = List.filter (created_at_is stamp) l.
Proof.
  induction l as [|x l IH]; [done|]. cbn [sort_desc fold_right].
  fold (sort_desc l). rewrite insert_desc_stable.
  cbn [List.filter]. by rewrite IH.
Qed.

Lemma selected_in status exclude s item :
  In item (selected status exclude s) ->
  In item (_load s)
  /\ (forall st, status = Some st -> st <> "" -> j_status (snd item) = st)
  /\ ~ In (j_status (snd item)) exclude.
Proof.
  unfold selected. intros Hin.
  assert (H1 : In item
                 match status with
                 | Some st =>
                     if Py.str_truthy st
                     then List.filter (has_status st) (_load s)
                     else _load s
                 | None => _load s
                 end
               /\ ~ In (j_status (snd item)) exclude).
  { destruct exclude as [|e exclude]; [split; [exact Hin | intros []]|].
    apply List.filter_In in Hin as [Hin Hex]. split; [done|].
    unfold not_excluded in Hex. apply negb_true_iff in Hex.
    intros Hmem. apply (proj2 (not_true_iff_false _) Hex).
    apply existsb_exists. exists (j_status (snd item)).
    split; [done | apply String.eqb_refl]. }
  destruct H1 as [H1 H2]. split; [|split; [|done]].
  - destruct status as [st|]; [|done].
    destruct (Py.str_truthy st); [|done].
    by apply List.filter_In in H1 as [H1 _].
  - intros st -> Hne. destruct st as [|c st]; [done|]. cbn in H1.
    apply List.filter_In in H1 as [_ H1]. by apply String.eqb_eq in H1.
Qed.

Lemma in_firstn {A} (n : nat) (l : list A) x : In x (firstn n l) -> In x l.
Proof.
  revert l. induction n as [|n IH]; intros [|y l]; cbn [firstn In]; try done.
  intros [->|H]; [by left | right; by apply IH].
Qed.

(** X26. [list_jobs] returns jobs of the cache that pass its filters (the
    status asked for, when one is given, and none of the excluded ones),
    newest first by [created_at], jobs of one [created_at] in the order
    of the cache; without a positive limit it returns all of them, each
    once, and with a limit [n > 0] the first [n] of that list, so at most
    [n]; a limit of 0 or below is no limit. *)
Theorem list_jobs_result (limit : option Z) (status : option string)
    (exclude : list string) (s : state) :
  let all := list_jobs None status exclude s in
  let res := list_jobs limit status exclude s in
  Permutation all (selected status exclude s)
  /\ Sorted newer_first all
  /\ (forall stamp,
        List.filter (created_at_is stamp) all
        = List.filter (created_at_is stamp) (selected status exclude s))
  /\ (forall item, In item res ->
        In item (_load s)
        /\ (forall st, status = Some st -> st <> "" ->
              j_status (snd item) = st)
        /\ ~ In (j_status (snd item)) exclude)
  /\ Sorted newer_first res
  /\ res = match limit with
           | Some n => if 0 <? n then firstn (Z.to_nat n) all else all
           | None => all
           end
  /\ (forall n, limit = Some n -> 0 < n -> (Z.of_nat (length res) <= n)).
Proof.
  intros all res. subst all res. unfold list_jobs.
  set (all := sort_desc (selected status exclude s)).
  assert (Hperm : Permutation all (selected status exclude s))
    by apply sort_desc_perm.
  assert (Hsorted : Sorted newer_first all) by apply sort_desc_sorted.
  assert (Hfirst : forall n, Sorted newer_first (firstn n all)).
  { clear Hperm. induction Hsorted as [|x l Hl IH Hhd]; intros [|n];
      cbn [firstn]; try constructor; [apply IH|].
    destruct Hhd as [|y l' Hy]; destruct n; cbn [firstn]; by constructor. }
  split; [done|]. split; [done|].
  split; [intros stamp; apply sort_desc_stable|].
  split; [|split; [|split; [done|]]].
  - intros item Hin. apply (selected_in status exclude s).
    apply (Permutation_in _ Hperm).
    destruct limit as [n|]; [|done]. destruct (0 <? n); [|done].
    by apply (in_firstn _ _ _ Hin).
  - destruct limit as [n|]; [|done]. destruct (0 <? n); [apply Hfirst | done].
  - intros n -> Hn. replace (0 <? n) with true by (symmetry; by apply Z.ltb_lt).
    rewrite length_firstn. lia.
Qed.

(** Deleting keys. *)

Lemma get_del_eq {V} k (d : Py.dict V) :
  List.NoDup (Py.keys d) -> Py.get k (Py.del k d) = None.
Proof.
  induction d as [|[k' v] d IH]; [done|]. cbn [Py.keys map fst].
  intros Hnd. apply List.NoDup_cons_iff in Hnd as [Hnot Hnd].
  cbn [Py.del]. destruct (String.eqb k k') eqn:E.
  - apply String.eqb_eq in E as ->.
    destruct (Py.get k' d) as [v'|] eqn:G; [|done].
    exfalso. apply Hnot. by apply (PyFacts.get_Some_key k' v').
  - cbn [Py.get]. rewrite E. by apply IH.
Qed.

Lemma fold_del_cons {V} (rest : list string) k (v : V) d :
  ~ In k rest ->
  fold_left (fun d job_id => Py.del job_id d) rest ((k, v) :: d)
  = (k, v) :: fold_left (fun d job_id => Py.del job_id d) rest d.
Proof.
  revert d. induction rest as [|r rest IH]; intros d Hnot; [done|].
  cbn [fold_left Py.del].
  destruct (String.eqb r k) eqn:E.
  - apply String.eqb_eq in E as ->. exfalso. apply Hnot. by left.
  - apply IH. intros Hin. apply Hnot. by right.
Qed.

Lemma fold_del_filter {V} (p : string * V -> bool) (d : Py.dict V) :
  List.NoDup (Py.keys d) ->
  fold_left (fun d job_id => Py.del job_id d) (map fst (List.filter p d)) d
  = List.filter (fun item => negb (p item)) d.
Proof.
  induction d as [|[k v] d IH]; [done|]. cbn [Py.keys map fst].
  intros Hnd. apply List.NoDup_cons_iff in Hnd as [Hnot Hnd].
  cbn [List.filter]. destruct (p (k, v)) eqn:E; cbn [negb].
  - cbn [map fst fold_left Py.del]. rewrite String.eqb_refl. by apply IH.
  - rewrite fold_del_cons; [by rewrite IH|].
    intros Hin. apply Hnot. apply in_map_iff in Hin as [item [<- Hin]].
    apply List.filter_In in Hin as [Hin _]. unfold Py.keys.
    by apply in_map.
Qed.



(** X28. [remove_job], on a writable cache file without a repeated key:
    it answers whether the job was cached; afterwards the job is not
    found, and every other job is found as before. *)
Theorem remove_job_result job_id (s : state) :
  keys_unique s -> writable s = true ->
  let res := remove_job job_id s in
  snd res = match get_job job_id s with Some _ => true | None => false end
  /\ get_job job_id (fst res) = None
  /\ (forall other, other <> job_id ->
        get_job other (fst res) = get_job other s).
Proof.
  intros Hu Hw res. subst res. unfold remove_job, get_job, Py.mem.
  destruct (Py.get job_id (_load s)) as [j|] eqn:G; cbn [fst snd].
  - rewrite load_save by done. split; [done|]. split.
    + by apply get_del_eq.
    + intros other Hne. apply PyFacts.get_del_ne. congruence.
  - by rewrite G.
Qed.

Lemma remove_job_result_witness :
  get_job "job-1" (fst (remove_job "job-1" cache_one)) = None.
Proof.
  apply (remove_job_result "job-1" cache_one); [|reflexivity].
  unfold keys_unique. cbn. repeat constructor. intros [].
Defined.

(** X29. The stored log offset of a cached job, on a writable cache:
    [get_log_offset] returns what [set_log_offset] stored, also after a
    later [update_status]; after [reset_log_offset] it is 0 and no cache
    time is kept. For a job that is not cached, [set_log_offset] and
    [update_status] change nothing, not even creating an entry, and the
    offset reads as 0. *)
Theorem log_offset_round_trip env job_id (offset : Z) status (s : state) :
  writable s = true ->
  (forall j, get_job job_id s = Some j ->
     let s1 := set_log_offset env job_id offset s in
     get_log_offset job_id s1 = offset
     /\ get_log_offset job_id (update_status env job_id status s1) = offset
     /\ (exists j1, get_job job_id (update_status env job_id status s1)
                     = Some j1
                   /\ j_status j1 = status
                   /\ j_created_at j1 = j_created_at j)
     /\ get_log_offset job_id (reset_log_offset job_id s1) = 0
     /\ (exists j0, get_job job_id (reset_log_offset job_id s1) = Some j0
                   /\ log_cached_at j0 = None))
  /\ (get_job job_id s = None ->
      set_log_offset env job_id offset s = s
      /\ update_status env job_id status s = s
      /\ reset_log_offset job_id s = s
      /\ get_log_offset job_id s = 0).
Proof.
  intros Hw. unfold get_job. split.
  - intros j G. cbv zeta.
    assert (H1 : _load (set_log_offset env job_id offset s)
                 = Py.set job_id
                     (with_offset j offset (Some (now env (n_now s))))
                     (_load s)).
    { unfold set_log_offset. rewrite G. by apply load_save. }
    assert (Hw1 : writable (set_log_offset env job_id offset s) = true).
    { unfold set_log_offset, _save. rewrite G. cbn [writable ticks].
      by rewrite Hw. }
    set (s1 := set_log_offset env job_id offset s) in *.
    assert (G1 : Py.get job_id (_load s1)
                 = Some (with_offset j offset (Some (now env (n_now s))))).
    { rewrite H1. apply PyFacts.get_set_eq. }
    split; [unfold get_log_offset; by rewrite G1|].
    unfold update_status, reset_log_offset. rewrite G1.
    unfold get_log_offset.
    rewrite !load_save by (cbn [writable ticks]; done).
    rewrite !PyFacts.get_set_eq. cbn.
    split; [done|]. split; [by eexists|]. split; [done | by eexists].
  - intros G. unfold set_log_offset, update_status, reset_log_offset,
      get_log_offset. by rewrite G.
Qed.

Lemma log_offset_round_trip_witness :
  get_log_offset "job-1" (set_log_offset env_fixed "job-1" 7 cache_one) = 7.
Proof.
  apply (proj1 (log_offset_round_trip env_fixed "job-1" 7 "RUNNING"
                  cache_one eq_refl) (Forge.example_job (Some 3))).
  reflexivity.
Defined.

End JobCacheSpec.

